(** * To-Do List Manager: task store and view projection

    A shallow embedding of [todo_app.py]: the task records, id generation,
    date validation, the add / toggle / edit / delete / clear-completed
    handlers, the filtered and sorted projection shown in the tree widget
    with its statistics label, the JSON persistence of the task list, the
    export of a task and the closing of the window.

    Conventions of the embedding.
    - A Python [str] is a [string] holding its UTF-8 bytes.  Byte order on
      UTF-8 coincides with code-point order, so [str] comparison is
      byte-wise comparison.  [str.isspace], [str.lower] and the digit class
      are modelled on their ASCII part.
    - A Python [int] is a [Z]; the limit that recent interpreters put on the
      number of digits [int()] and [str()] convert is not modelled.
    - A task is a [dict] carrying the seven keys written by [add_task], with
      values of the types [add_task] gives them; it is a record here, so the
      [.get(key, default)] fall-backs of the source are never taken.
    - [date.today()] and [datetime.now()] are inputs of the operations that
      read them. *)

From Stdlib Require Import List String Ascii ZArith Bool Lia.
From Stdlib Require Import Sorted Permutation.
From Stdlib Require Import DecimalString DecimalZ.
Import ListNotations.

#[local] Open Scope string_scope.
#[local] Open Scope list_scope.
#[local] Open Scope Z_scope.

Declare Scope py_scope.
Delimit Scope py_scope with py.
Infix "+++" := String.append (right associativity, at level 60) : py_scope.
#[local] Open Scope py_scope.

(** ** Python string primitives *)

Module Py.

(** [str.isspace] on one ASCII character: TAB..CR, FS..US and SPACE. *)
Definition isspace (c : ascii) : bool :=
  let n := N_of_ascii c in
  ((9 <=? n) && (n <=? 13) || (28 <=? n) && (n <=? 32))%N.

Definition isdigit (c : ascii) : bool :=
  let n := N_of_ascii c in ((48 <=? n) && (n <=? 57))%N.

(** Python truthiness of a [str]: the empty string is false. *)
Definition nonempty (s : string) : bool :=
  match s with EmptyString => false | String _ _ => true end.

(** [Py_ISSPACE]: the whitespace that [int()] skips around an ASCII
    literal, TAB..CR and SPACE. *)
Definition c_isspace (c : ascii) : bool :=
  let n := N_of_ascii c in ((9 <=? n) && (n <=? 13) || (n =? 32))%N.

Fixpoint lstrip_by (p : ascii -> bool) (s : string) : string :=
  match s with
  | EmptyString => EmptyString
  | String c r => if p c then lstrip_by p r else s
  end.

Fixpoint rstrip_by (p : ascii -> bool) (s : string) : string :=
  match s with
  | EmptyString => EmptyString
  | String c r =>
      match rstrip_by p r with
      | EmptyString => if p c then EmptyString else String c EmptyString
      | r' => String c r'
      end
  end.

Definition strip_by (p : ascii -> bool) (s : string) : string :=
  rstrip_by p (lstrip_by p s).

(** [s.lstrip()] *)
Definition lstrip (s : string) : string := lstrip_by isspace s.

(** [s.strip()] *)
Definition strip (s : string) : string := strip_by isspace s.

(** [s.startswith(p)] *)
Definition startswith (s p : string) : bool := String.prefix p s.

(** [s.endswith(p)] *)
Fixpoint endswith (s p : string) : bool :=
  (s =? p)%string ||
  match s with
  | EmptyString => false
  | String _ r => endswith r p
  end.

(** [p in s] for two strings. *)
Fixpoint contains (s p : string) : bool :=
  String.prefix p s ||
  match s with
  | EmptyString => false
  | String _ r => contains r p
  end.

(** [s.lower()], on the ASCII letters. *)
Definition lower_char (c : ascii) : ascii :=
  let n := N_of_ascii c in
  if ((65 <=? n) && (n <=? 90))%N then ascii_of_N (n + 32) else c.

Fixpoint lower (s : string) : string :=
  match s with
  | EmptyString => EmptyString
  | String c r => String (lower_char c) (lower r)
  end.

(** The characters of [s] up to the first whitespace. *)
Fixpoint take_word (s : string) : string :=
  match s with
  | EmptyString => EmptyString
  | String c r => if isspace c then EmptyString else String c (take_word r)
  end.

(** [s.split()[0]]: the first whitespace-separated word; [None] stands for
    the [IndexError] raised when [s.split()] is empty. *)
Definition split_first (s : string) : option string :=
  match lstrip s with
  | EmptyString => None
  | w => Some (take_word w)
  end.

(** Digits with single underscores between them, as [int()] accepts them;
    the result is the digit string with the underscores dropped.
    [prev] records that the previous character was a digit. *)
Fixpoint digit_groups (prev : bool) (s : string) : option string :=
  match s with
  | EmptyString => if prev then Some EmptyString else None
  | String c r =>
      if isdigit c then option_map (String c) (digit_groups true r)
      else if (Ascii.eqb c "_" && prev)%bool then digit_groups false r
      else None
  end.

Definition int_digits (s : string) : option Z :=
  match digit_groups false s with
  | None => None
  | Some ds => option_map Z.of_uint (NilEmpty.uint_of_string ds)
  end.

(** [int(s)] in base 10 for a [str]; [None] stands for [ValueError].
    Surrounding whitespace (that of [Py_ISSPACE], narrower than that of
    [str.strip]), one sign, leading zeros and single underscores between
    digits are accepted. *)
Definition int (s : string) : option Z :=
  match strip_by c_isspace s with
  | String "+" r => int_digits r
  | String "-" r => option_map Z.opp (int_digits r)
  | s' => int_digits s'
  end.

(** [str(n)] for an [int]. *)
Definition str (n : Z) : string := NilZero.string_of_int (Z.to_int n).

(** [max] of a non-empty sequence of integers given as head and tail. *)
Definition max (x : Z) (xs : list Z) : Z := fold_left Z.max xs x.

(** Evaluation of a generator whose body may raise: the first failure
    aborts the whole sequence. *)
Fixpoint traverse {A B} (f : A -> option B) (l : list A) : option (list B) :=
  match l with
  | [] => Some []
  | x :: r =>
      match f x with
      | None => None
      | Some y => option_map (cons y) (traverse f r)
      end
  end.

End Py.

(** ** Calendar dates ([datetime.date]) *)

Module Date.

Record t := mk { year : Z; month : Z; day : Z }.

Definition is_leap (y : Z) : bool :=
  (y mod 4 =? 0) && (negb (y mod 100 =? 0) || (y mod 400 =? 0)).

Definition days_in_month (y m : Z) : Z :=
  match m with
  | 1 => 31 | 2 => if is_leap y then 29 else 28 | 3 => 31 | 4 => 30
  | 5 => 31 | 6 => 30 | 7 => 31 | 8 => 31 | 9 => 30 | 10 => 31
  | 11 => 30 | 12 => 31 | _ => 0
  end.

(** The checks of the [date] constructor ([MINYEAR] = 1, [MAXYEAR] = 9999). *)
Definition valid (d : t) : bool :=
  (1 <=? year d) && (year d <=? 9999) &&
  (1 <=? month d) && (month d <=? 12) &&
  (1 <=? day d) && (day d <=? days_in_month (year d) (month d)).

Definition days_before_year (y : Z) : Z :=
  let y1 := y - 1 in y1 * 365 + y1 / 4 - y1 / 100 + y1 / 400.

Definition days_before_month (y m : Z) : Z :=
  match m with
  | 1 => 0 | 2 => 31 | 3 => 59 | 4 => 90 | 5 => 120 | 6 => 151
  | 7 => 181 | 8 => 212 | 9 => 243 | 10 => 273 | 11 => 304 | 12 => 334
  | _ => 0
  end + (if (2 <? m) && is_leap y then 1 else 0).

Definition toordinal (d : t) : Z :=
  days_before_year (year d) + days_before_month (year d) (month d) + day d.

(** [(a - b).days] *)
Definition sub_days (a b : t) : Z := toordinal a - toordinal b.

(** [a < b]: comparison of the (year, month, day) triples. *)
Definition ltb (a b : t) : bool :=
  (year a <? year b) ||
  ((year a =? year b) &&
   ((month a <? month b) || ((month a =? month b) && (day a <? day b)))).

(** [s.zfill(w)] for a digit string. *)
Definition zfill (w : nat) (s : string) : string :=
  let fix zeros n := match n with O => EmptyString | S k => String "0" (zeros k) end in
  zeros (w - String.length s)%nat +++ s.

(** [d.isoformat()]: ["%04d-%02d-%02d"]. *)
Definition isoformat (d : t) : string :=
  zfill 4 (Py.str (year d)) +++ "-" +++ zfill 2 (Py.str (month d)) +++ "-"
    +++ zfill 2 (Py.str (day d)).

(** *** [datetime.strptime(s, "%Y-%m-%d").date()]

    [strptime] compiles the format to the regular expression
    [(?P<Y>\d\d\d\d)-(?P<m>1[0-2]|0[1-9]|[1-9])-(?P<d>3[01]|[12]\d|0[1-9]|[1-9]| [1-9])],
    matches it at the start of [s], rejects the input when text remains
    after the match, and builds the date, which checks the calendar. *)

Definition digit (c : ascii) : option Z :=
  if Py.isdigit c then Some (Z.of_N (N_of_ascii c) - 48) else None.

Definition in_range (lo hi : Z) (c : ascii) : option Z :=
  match digit c with
  | Some v => if (lo <=? v) && (v <=? hi) then Some v else None
  | None => None
  end.

(** One alternative made of two character classes. *)
Definition two (lo1 hi1 lo2 hi2 : Z) (s : string) : list (Z * string) :=
  match s with
  | String a (String b r) =>
      match in_range lo1 hi1 a, in_range lo2 hi2 b with
      | Some x, Some y => [(10 * x + y, r)]
      | _, _ => []
      end
  | _ => []
  end.

Definition one (lo hi : Z) (s : string) : list (Z * string) :=
  match s with
  | String a r =>
      match in_range lo hi a with Some x => [(x, r)] | None => [] end
  | _ => []
  end.

(** A literal space followed by one character class. *)
Definition blank_one (lo hi : Z) (s : string) : list (Z * string) :=
  match s with
  | String " " r => one lo hi r
  | _ => []
  end.

(** [\d\d\d\d] *)
Definition match_Y (s : string) : option (Z * string) :=
  match s with
  | String a (String b (String c (String d r))) =>
      match digit a, digit b, digit c, digit d with
      | Some x, Some y, Some z, Some w =>
          Some (1000 * x + 100 * y + 10 * z + w, r)
      | _, _, _, _ => None
      end
  | _ => None
  end.

(** [1[0-2]|0[1-9]|[1-9]]: the matches of the alternatives, in the order
    the backtracking matcher tries them. *)
Definition match_m (s : string) : list (Z * string) :=
  two 1 1 0 2 s ++ two 0 0 1 9 s ++ one 1 9 s.

(** [3[01]|[12]\d|0[1-9]|[1-9]| [1-9]] *)
Definition match_d (s : string) : list (Z * string) :=
  two 3 3 0 1 s ++ two 1 2 0 9 s ++ two 0 0 1 9 s ++ one 1 9 s
    ++ blank_one 1 9 s.

Definition dash (s : string) : option string :=
  match s with String "-" r => Some r | _ => None end.

(** The first month alternative after which the rest of the pattern
    matches; the day group is last, so its first alternative is kept. *)
Fixpoint first_md (ms : list (Z * string)) : option (Z * Z * string) :=
  match ms with
  | [] => None
  | (m, r) :: ms' =>
      match dash r with
      | Some r' =>
          match match_d r' with
          | (d, r'') :: _ => Some (m, d, r'')
          | [] => first_md ms'
          end
      | None => first_md ms'
      end
  end.

Definition regex_match (s : string) : option (Z * Z * Z * string) :=
  match match_Y s with
  | Some (y, r) =>
      match dash r with
      | Some r' =>
          match first_md (match_m r') with
          | Some (m, d, rest) => Some (y, m, d, rest)
          | None => None
          end
      | None => None
      end
  | None => None
  end.

(** [None] stands for [ValueError]. *)
Definition strptime (s : string) : option t :=
  match regex_match s with
  | Some (y, m, d, EmptyString) =>
      let dt := mk y m d in if valid dt then Some dt else None
  | _ => None
  end.

End Date.

(** ** Task records *)

Record Task := mkTask {
  id : string;
  text : string;
  priority : string;
  due_date : option string;
  completed : bool;
  created : string;
  deleted : bool
}.

(** ** [next_id] *)

(** [None] from the generator is the [ValueError] that the [except] clause
    answers with [max_id = 0]. *)
Definition next_id (tasks : list Task) : Z :=
  match tasks with
  | [] => 1
  | _ =>
      let max_id :=
        match Py.traverse (fun t => Py.int (id t)) tasks with
        | Some (x :: xs) => Py.max x xs
        | _ => 0
        end in
      max_id + 1
  end.

(** ** The [json] module, as [save_tasks] and [load_tasks] call it

    [json.dump(obj, f, indent=2, ensure_ascii=False)] and [json.load(f)].
    Values are [None], [bool], [int], [str], [list] and [dict] with [str]
    keys; a [dict] is the list of its items in insertion order.  Numbers
    with a fraction or an exponent, [NaN] and [Infinity] denote floats,
    which are outside this model: the reader gives [None] for them as it
    does for malformed text. *)

Module Json.

#[local] Unset Elimination Schemes.

Inductive value :=
| Null
| Bool (b : bool)
| Int (n : Z)
| Str (s : string)
| Arr (items : list value)
| Obj (members : list (string * value)).

#[local] Set Elimination Schemes.

Definition quote : ascii := "034"%char.
Definition newline : ascii := "010"%char.

(** *** Encoder *)

Definition hexdigit (n : N) : ascii :=
  if (n <? 10)%N then ascii_of_N (48 + n) else ascii_of_N (87 + n).

(** [ESCAPE_DCT]: the quote, the backslash and the control characters. *)
Definition escape_char (c : ascii) : string :=
  let n := N_of_ascii c in
  if Ascii.eqb c quote then String "\" (String quote EmptyString)
  else if Ascii.eqb c "\" then "\\"
  else if (n =? 8)%N then "\b"
  else if (n =? 12)%N then "\f"
  else if (n =? 10)%N then "\n"
  else if (n =? 13)%N then "\r"
  else if (n =? 9)%N then "\t"
  else if (n <? 32)%N then
    "\u00" +++ String (hexdigit (n / 16)) (String (hexdigit (n mod 16)) EmptyString)
  else String c EmptyString.

Fixpoint escape (s : string) : string :=
  match s with
  | EmptyString => EmptyString
  | String c r => escape_char c +++ escape r
  end.

Definition encode_string (s : string) : string :=
  String quote (escape s +++ String quote EmptyString).

Fixpoint spaces (n : nat) : string :=
  match n with O => EmptyString | S k => String " " (spaces k) end.

(** ['\n' + indent * level] with [indent] two spaces. *)
Definition newline_indent (level : nat) : string :=
  String newline (spaces (2 * level)).

Fixpoint encode (level : nat) (v : value) {struct v} : string :=
  match v with
  | Null => "null"
  | Bool true => "true"
  | Bool false => "false"
  | Int n => Py.str n
  | Str s => encode_string s
  | Arr [] => "[]"
  | Arr (x :: xs) =>
      "[" +++ newline_indent (S level) +++ encode (S level) x +++
      (fix items (l : list value) : string :=
         match l with
         | [] => EmptyString
         | y :: r =>
             "," +++ newline_indent (S level) +++ encode (S level) y +++ items r
         end) xs +++
      newline_indent level +++ "]"
  | Obj [] => "{}"
  | Obj ((k, x) :: xs) =>
      "{" +++ newline_indent (S level) +++ encode_string k +++ ": " +++
      encode (S level) x +++
      (fix items (l : list (string * value)) : string :=
         match l with
         | [] => EmptyString
         | (k', y) :: r =>
             "," +++ newline_indent (S level) +++ encode_string k' +++ ": " +++
             encode (S level) y +++ items r
         end) xs +++
      newline_indent level +++ "}"
  end.

Definition dumps (v : value) : string := encode 0 v.

(** *** Decoder *)

(** [WHITESPACE]: any run of space, TAB, LF and CR. *)
Definition is_ws (c : ascii) : bool :=
  Ascii.eqb c " " || Ascii.eqb c "009" || Ascii.eqb c "010" || Ascii.eqb c "013".

Fixpoint skip_ws (s : string) : string :=
  match s with
  | EmptyString => EmptyString
  | String c r => if is_ws c then skip_ws r else s
  end.

Definition hexval (c : ascii) : option N :=
  let n := N_of_ascii c in
  if ((48 <=? n) && (n <=? 57))%N then Some (n - 48)%N
  else if ((97 <=? n) && (n <=? 102))%N then Some (n - 87)%N
  else if ((65 <=? n) && (n <=? 70))%N then Some (n - 55)%N
  else None.

Definition hex4 (a b c d : ascii) : option N :=
  match hexval a, hexval b, hexval c, hexval d with
  | Some x, Some y, Some z, Some w => Some (4096 * x + 256 * y + 16 * z + w)%N
  | _, _, _, _ => None
  end.

(** [chr(cp)], as the UTF-8 bytes of the code point; a lone surrogate is
    written in its three-byte form. *)
Definition chr (cp : N) : string :=
  let b (n : N) := ascii_of_N n in
  (if cp <? 128 then String (b cp) EmptyString
   else if cp <? 2048 then
     String (b (192 + cp / 64)) (String (b (128 + cp mod 64)) EmptyString)
   else if cp <? 65536 then
     String (b (224 + cp / 4096))
       (String (b (128 + (cp / 64) mod 64))
          (String (b (128 + cp mod 64)) EmptyString))
   else
     String (b (240 + cp / 262144))
       (String (b (128 + (cp / 4096) mod 64))
          (String (b (128 + (cp / 64) mod 64))
             (String (b (128 + cp mod 64)) EmptyString))))%N.

(** The character of a one-letter escape. *)
Definition backslash (e : ascii) : option ascii :=
  if Ascii.eqb e quote then Some quote
  else if Ascii.eqb e "\" then Some "\"%char
  else if Ascii.eqb e "/" then Some "/"%char
  else if Ascii.eqb e "b" then Some "008"%char
  else if Ascii.eqb e "f" then Some "012"%char
  else if Ascii.eqb e "n" then Some "010"%char
  else if Ascii.eqb e "r" then Some "013"%char
  else if Ascii.eqb e "t" then Some "009"%char
  else None.

Definition is_high (u : N) : bool := ((55296 <=? u) && (u <=? 56319))%N.
Definition is_low (u : N) : bool := ((56320 <=? u) && (u <=? 57343))%N.

(** [scanstring(s, end, strict=True)], entered after the opening quote:
    the decoded string and the text after the closing quote. *)
Fixpoint scanstring (s : string) : option (string * string) :=
  match s with
  | EmptyString => None
  | String c r =>
      if Ascii.eqb c quote then Some (EmptyString, r)
      else if Ascii.eqb c "\" then
        match r with
        | EmptyString => None
        | String e r1 =>
            if Ascii.eqb e "u" then
              match r1 with
              | String h1 (String h2 (String h3 (String h4 r2))) =>
                  match hex4 h1 h2 h3 h4 with
                  | None => None
                  | Some u =>
                      let single :=
                        match scanstring r2 with
                        | Some (t, rest) => Some (chr u +++ t, rest)
                        | None => None
                        end in
                      if is_high u then
                        match r2 with
                        | String "\" (String "u"
                            (String l1 (String l2 (String l3 (String l4 r4))))) =>
                            match hex4 l1 l2 l3 l4 with
                            | None => None
                            | Some u2 =>
                                if is_low u2 then
                                  let cp :=
                                    (65536 + ((u - 55296) * 1024 + (u2 - 56320)))%N in
                                  match scanstring r4 with
                                  | Some (t, rest) => Some (chr cp +++ t, rest)
                                  | None => None
                                  end
                                else single
                            end
                        | String "\" (String "u" _) => None
                        | _ => single
                        end
                      else single
                  end
              | _ => None
              end
            else
              match backslash e with
              | None => None
              | Some x =>
                  match scanstring r1 with
                  | Some (t, rest) => Some (String x t, rest)
                  | None => None
                  end
              end
        end
      else if (N_of_ascii c <? 32)%N then None
      else
        match scanstring r with
        | Some (t, rest) => Some (String c t, rest)
        | None => None
        end
  end.

Fixpoint span_digits (s : string) : string * string :=
  match s with
  | EmptyString => (EmptyString, EmptyString)
  | String c r =>
      if Py.isdigit c then let (ds, rest) := span_digits r in (String c ds, rest)
      else (EmptyString, s)
  end.

(** The integer group of [NUMBER_RE] after its optional sign: a single
    zero, or a non-zero digit followed by any digits. *)
Definition int_part (s : string) : option (string * string) :=
  match s with
  | String c r =>
      if Ascii.eqb c "0" then Some ("0"%string, r)
      else if Py.isdigit c then Some (span_digits s)
      else None
  | EmptyString => None
  end.

(** Does the fraction group (a dot and digits) or the exponent group ([e]
    or [E], an optional sign and digits) of [NUMBER_RE] match at [s]? *)
Definition float_tail (s : string) : bool :=
  match s with
  | String "." (String d _) => Py.isdigit d
  | String e r =>
      (Ascii.eqb e "e" || Ascii.eqb e "E") &&
      match r with
      | String g (String d _) =>
          Py.isdigit g || ((Ascii.eqb g "+" || Ascii.eqb g "-") && Py.isdigit d)
      | String g EmptyString => Py.isdigit g
      | EmptyString => false
      end
  | EmptyString => false
  end.

Definition scan_number (s : string) : option (value * string) :=
  let (neg, body) :=
    match s with
    | String "-" r => (true, r)
    | _ => (false, s)
    end in
  match int_part body with
  | None => None
  | Some (ds, rest) =>
      if float_tail rest then None
      else
        match NilEmpty.uint_of_string ds with
        | Some u =>
            let n := Z.of_uint u in Some (Int (if neg then - n else n), rest)
        | None => None
        end
  end.

(** [d[k] = v] on the item list of a [dict]. *)
Fixpoint dict_set (d : list (string * value)) (k : string) (v : value)
  : list (string * value) :=
  match d with
  | [] => [(k, v)]
  | (k', v') :: r =>
      if (k' =? k)%string then (k', v) :: r else (k', v') :: dict_set r k v
  end.

(** [dict(pairs)] *)
Definition dict_of_pairs (pairs : list (string * value)) : list (string * value) :=
  fold_left (fun d kv => dict_set d (fst kv) (snd kv)) pairs [].

(** [s[n:]] *)
Fixpoint drop (n : nat) (s : string) : string :=
  match n, s with
  | O, _ => s
  | S k, String _ r => drop k r
  | S _, EmptyString => EmptyString
  end.

(** [scan_once]; [elements] is the loop of [JSONArray] entered at a value,
    [members] the loop of [JSONObject] entered after the opening quote of a
    key.  The recursion is bounded by [fuel]: a scalar takes one unit, a
    list or a dict one unit more than its items, each of which takes one
    unit more than its value.  [loads] supplies the length of the text, and
    a value never has fewer characters than that. *)
Fixpoint scan_once (fuel : nat) (s : string) {struct fuel}
  : option (value * string) :=
  match fuel with
  | O => None
  | S f =>
      match s with
      | EmptyString => None
      | String c r =>
          if Ascii.eqb c quote then
            match scanstring r with
            | Some (t, rest) => Some (Str t, rest)
            | None => None
            end
          else if Ascii.eqb c "{" then
            match skip_ws r with
            | String c1 r1 =>
                if Ascii.eqb c1 "}" then Some (Obj [], r1)
                else if Ascii.eqb c1 quote then
                  match members f r1 with
                  | Some (pairs, rest) => Some (Obj (dict_of_pairs pairs), rest)
                  | None => None
                  end
                else None
            | EmptyString => None
            end
          else if Ascii.eqb c "[" then
            match skip_ws r with
            | String c1 r1 =>
                if Ascii.eqb c1 "]" then Some (Arr [], r1)
                else
                  match elements f (String c1 r1) with
                  | Some (vs, rest) => Some (Arr vs, rest)
                  | None => None
                  end
            | EmptyString => None
            end
          else if String.prefix "null" s then Some (Null, drop 4 s)
          else if String.prefix "true" s then Some (Bool true, drop 4 s)
          else if String.prefix "false" s then Some (Bool false, drop 5 s)
          else scan_number s
      end
  end

with elements (fuel : nat) (s : string) {struct fuel}
  : option (list value * string) :=
  match fuel with
  | O => None
  | S f =>
      match scan_once f s with
      | None => None
      | Some (v, r) =>
          match skip_ws r with
          | String c r1 =>
              if Ascii.eqb c "]" then Some ([v], r1)
              else if Ascii.eqb c "," then
                match elements f (skip_ws r1) with
                | Some (vs, rest) => Some (v :: vs, rest)
                | None => None
                end
              else None
          | EmptyString => None
          end
      end
  end

with members (fuel : nat) (s : string) {struct fuel}
  : option (list (string * value) * string) :=
  match fuel with
  | O => None
  | S f =>
      match scanstring s with
      | None => None
      | Some (k, r) =>
          match skip_ws r with
          | String ":" r1 =>
              match scan_once f (skip_ws r1) with
              | None => None
              | Some (v, r2) =>
                  match skip_ws r2 with
                  | String c r3 =>
                      if Ascii.eqb c "}" then Some ([(k, v)], r3)
                      else if Ascii.eqb c "," then
                        match skip_ws r3 with
                        | String q r4 =>
                            if Ascii.eqb q quote then
                              match members f r4 with
                              | Some (kvs, rest) => Some ((k, v) :: kvs, rest)
                              | None => None
                              end
                            else None
                        | EmptyString => None
                        end
                      else None
                  | EmptyString => None
                  end
              end
          | _ => None
          end
      end
  end.

(** [json.loads(s)]: one value between optional whitespace, nothing after. *)
Definition loads (s : string) : option value :=
  match scan_once (S (String.length s)) (skip_ws s) with
  | Some (v, rest) =>
      match skip_ws rest with
      | EmptyString => Some v
      | _ => None
      end
  | None => None
  end.

End Json.

(** ** Message boxes *)

Inductive Message :=
| EnterDescription   (* showwarning: "Please enter a task description." *)
| InvalidDateFormat  (* showerror: "Invalid date format. Use YYYY-MM-DD." *)
| SelectTask         (* showwarning: "Please select a task." *)
| TaskEmpty          (* showwarning: "Task cannot be empty." *)
| NoCompleted        (* showinfo: "No completed tasks to clear." *)
| SaveFailed         (* showerror: "Failed to save tasks: ..." *)
| LoadFailed.        (* showwarning: "Could not read data file; ..." *)

(** ** Persistence: [save_tasks] and [load_tasks] *)

(** The data file as [open(..., encoding='utf-8')] sees it: missing, not
    decodable as UTF-8, or a text. *)
Inductive File := Absent | Undecodable | Text (s : string).

(** [writable] tells whether [open(self.data_file, 'w')] succeeds. *)
Record Disk := mkDisk { file : File; writable : bool }.

(** The [dict] of a task, with its keys in the order of the literal in
    [add_task]. *)
Definition task_dict (t : Task) : Json.value :=
  Json.Obj
    [("id", Json.Str (id t));
     ("text", Json.Str (text t));
     ("priority", Json.Str (priority t));
     ("due_date", match due_date t with
                  | Some d => Json.Str d
                  | None => Json.Null
                  end);
     ("completed", Json.Bool (completed t));
     ("created", Json.Str (created t));
     ("deleted", Json.Bool (deleted t))].

Definition tasks_value (tasks : list Task) : Json.value :=
  Json.Arr (map task_dict tasks).

(** Either [open] fails and the error is shown, or the whole text is
    written; a failure in the middle of the write is not modelled. *)
Definition save_tasks (tasks : list Task) (d : Disk) : Disk * list Message :=
  if writable d then
    ({| file := Text (Json.dumps (tasks_value tasks)); writable := true |}, [])
  else (d, [SaveFailed]).

(** The value that [self.tasks] receives, and the warning shown if any. *)
Definition load_tasks (d : Disk) : Json.value * list Message :=
  match file d with
  | Absent => (Json.Arr [], [])
  | Undecodable => (Json.Arr [], [LoadFailed])
  | Text s =>
      match Json.loads s with
      | Some v => (v, [])
      | None => (Json.Arr [], [LoadFailed])
      end
  end.

(** ** [validate_date] *)

Inductive Validated := NoDate | Valid (d : Date.t) | INVALID.

Definition validate_date (s : string) : Validated :=
  if negb (Py.nonempty s) then NoDate
  else
    match Date.strptime s with
    | Some d => Valid d
    | None => INVALID
    end.

(** ** View projection: [refresh_task_list] *)

(** The rows of the tree widget: the seven column values and the tags. *)
Record Row := mkRow {
  row_id : string;
  row_priority : string;
  row_text : string;
  row_due : string;
  days_left : string;
  status : string;
  row_created : string;
  tags : list string
}.

(** Python truthiness of [t.get('due_date')]. *)
Definition has_due (t : Task) : option string :=
  match due_date t with
  | Some s => if Py.nonempty s then Some s else None
  | None => None
  end.

(** The body of the first loop: is [t] appended to [visible]?  [f] is the
    filter and [s] the search text, lowered and stripped. *)
Definition keep (f s : string) (t : Task) : bool :=
  if deleted t then false
  else if (f =? "Pending")%string && completed t then false
  else if (f =? "Completed")%string && negb (completed t) then false
  else if Py.endswith f "Priority" &&
          match Py.split_first f with
          | Some w => negb (priority t =? w)%string
          | None => true
          end then false
  else if Py.nonempty s && negb (Py.contains (Py.lower (text t)) s) then false
  else true.

Definition pri_order (p : string) : Z :=
  if (p =? "High")%string then 0
  else if (p =? "Medium")%string then 1
  else if (p =? "Low")%string then 2
  else 1.

Definition Key : Type := bool * Z * string * string.

Definition sort_key (x : Task) : Key :=
  let due := match has_due x with Some d => d | None => "9999-12-31" end in
  (completed x, pri_order (priority x), due, created x).

(** [a < b] on the key tuples: the first components that differ decide. *)
Definition key_lt (a b : Key) : bool :=
  let '(c1, p1, d1, t1) := a in
  let '(c2, p2, d2, t2) := b in
  if negb (Bool.eqb c1 c2) then negb c1 && c2
  else if negb (p1 =? p2) then p1 <? p2
  else if negb (d1 =? d2)%string then String.ltb d1 d2
  else String.ltb t1 t2.

(** [visible.sort(key=sort_key)].  [list.sort] is stable and compares keys
    with [<] only, which determines its result; it is computed here by
    insertion from the right, an element going before the first one whose
    key is not smaller than its own. *)
Fixpoint insert (x : Task) (l : list Task) : list Task :=
  match l with
  | [] => [x]
  | y :: r =>
      if key_lt (sort_key y) (sort_key x) then y :: insert x r
      else x :: y :: r
  end.

Fixpoint sort (l : list Task) : list Task :=
  match l with
  | [] => []
  | x :: r => insert x (sort r)
  end.

Arguments key_lt : simpl never.
Arguments sort_key : simpl never.

(** The sorted list [visible] for filter [f] and search text [search]. *)
Definition visible (tasks : list Task) (f search : string) : list Task :=
  sort (filter (keep f (Py.strip (Py.lower search))) tasks).

(** The text of the Days Left column and the parsed [due_date] of the
    second loop. *)
Definition due_info (today : Date.t) (t : Task) : string * option Date.t :=
  match has_due t with
  | Some due =>
      match Date.strptime due with
      | Some d =>
          let delta := Date.sub_days d today in
          (if 0 <=? delta then Py.str delta +++ " day(s)"
           else Py.str (Z.abs delta) +++ " day(s) overdue", Some d)
      | None => ("Invalid date", None)
      end
  | None => ("N/A", None)
  end.

Definition row_tags (today : Date.t) (t : Task) : list string :=
  if completed t then ["completed"]
  else
    (if (priority t =? "High")%string then ["high_priority"]
     else if (priority t =? "Medium")%string then ["medium_priority"]
     else ["low_priority"])
    ++ match snd (due_info today t) with
       | Some d => if Date.ltb d today then ["overdue"] else []
       | None => []
       end.

(** One iteration of the second loop; [None] stands for the [IndexError]
    of [created.split()[0]] on a [created] without a word. *)
Definition make_row (today : Date.t) (t : Task) : option Row :=
  match Py.split_first (created t) with
  | None => None
  | Some c =>
      Some {| row_id := id t;
              row_priority := priority t;
              row_text := text t;
              row_due := match has_due t with
                         | Some d => d
                         | None => "No due date"
                         end;
              days_left := fst (due_info today t);
              status := if completed t then "✓ Done" else "Pending";
              row_created := c;
              tags := row_tags today t |}
  end.

(** The rows inserted in the tree: those before the first exception. *)
Fixpoint insert_rows (today : Date.t) (vis : list Task) : list Row :=
  match vis with
  | [] => []
  | t :: r =>
      match make_row today t with
      | None => []
      | Some row => row :: insert_rows today r
      end
  end.

(** ** The application *)

(** [tasks] is [self.tasks]; [tree] the rows of the tree widget and
    [selection] the position of its selected row; [dialogs] holds, for
    every open Edit dialog, the position in [tasks] of the record [t] that
    its Save button closes over.  Records are only ever appended to
    [tasks], so a position denotes one record for good.  The status bar and
    the statistics label are not tracked. *)
Record App := mkApp {
  tasks : list Task;
  disk : Disk;
  filter_var : string;
  search_var : string;
  tree : list Row;
  selection : option nat;
  dialogs : list nat
}.

Definition with_tasks (app : App) (ts : list Task) (d : Disk) : App :=
  {| tasks := ts; disk := d; filter_var := filter_var app;
     search_var := search_var app; tree := tree app;
     selection := selection app; dialogs := dialogs app |}.

Definition with_dialogs (app : App) (ds : list nat) : App :=
  {| tasks := tasks app; disk := disk app; filter_var := filter_var app;
     search_var := search_var app; tree := tree app;
     selection := selection app; dialogs := ds |}.

(** Rebuilding the tree drops its items, and the selection with them. *)
Definition refresh_task_list (today : Date.t) (app : App) : App :=
  {| tasks := tasks app; disk := disk app; filter_var := filter_var app;
     search_var := search_var app;
     tree := insert_rows today
               (visible (tasks app) (filter_var app) (search_var app));
     selection := None; dialogs := dialogs app |}.

(** [t[...] = ...] on the record at position [i]. *)
Fixpoint modify (i : nat) (f : Task -> Task) (l : list Task) : list Task :=
  match l, i with
  | [], _ => []
  | t :: r, O => f t :: r
  | t :: r, S j => t :: modify j f r
  end.

Definition set_completed (b : bool) (t : Task) : Task :=
  {| id := id t; text := text t; priority := priority t;
     due_date := due_date t; completed := b; created := created t;
     deleted := deleted t |}.

Definition set_deleted (t : Task) : Task :=
  {| id := id t; text := text t; priority := priority t;
     due_date := due_date t; completed := completed t; created := created t;
     deleted := true |}.

Definition set_edited (new_text pvar : string) (new_due : option string)
  (t : Task) : Task :=
  {| id := id t; text := new_text; priority := pvar; due_date := new_due;
     completed := completed t; created := created t; deleted := deleted t |}.

(** The [for] loop of [get_selected_task]: the position of the first
    record with this id that is not deleted. *)
Fixpoint find_task (tasks : list Task) (task_id : string) : option nat :=
  match tasks with
  | [] => None
  | t :: r =>
      if (id t =? task_id)%string && negb (deleted t) then Some O
      else option_map S (find_task r task_id)
  end.

(** [sel] is the ID column of the selected row, if a row is selected. *)
Definition get_selected_task (tasks : list Task) (sel : option string)
  : option nat * list Message :=
  match sel with
  | None => (None, [SelectTask])
  | Some task_id => (find_task tasks task_id, [])
  end.

Definition selected_id (app : App) : option string :=
  match selection app with
  | Some i => option_map row_id (nth_error (tree app) i)
  | None => None
  end.

(** The tail shared by the handlers that change [self.tasks]. *)
Definition commit (today : Date.t) (app : App) (ts : list Task)
  : App * list Message :=
  let (d, msgs) := save_tasks ts (disk app) in
  (refresh_task_list today (with_tasks app ts d), msgs).

Section Handlers.

(** Whether [tkcalendar] could be imported; the due-date widgets are
    [DateEntry] exactly in that case. *)
Variable TKCALENDAR_AVAILABLE : bool.

(** A stripped, non-empty due-date text: the ISO date, or [None] for
    ["INVALID"]. *)
Definition checked_due (raw : string) : option (option string) :=
  match validate_date raw with
  | Valid d => Some (Some (Date.isoformat d))
  | INVALID => None
  | NoDate => None
  end.

(** The due date read by [add_task] from its widget. *)
Definition add_due (due_widget : string) : option (option string) :=
  let due_raw := Py.strip due_widget in
  if TKCALENDAR_AVAILABLE then
    if (due_raw =? "")%string then Some None else checked_due due_raw
  else
    if Py.startswith due_raw "YYYY" || negb (Py.nonempty due_raw) then Some None
    else checked_due due_raw.

(** [now] is the text of [datetime.now().strftime("%Y-%m-%d %H:%M")]. *)
Definition add_task (today : Date.t) (now : string)
  (task_entry priority_var due_widget : string) (app : App)
  : App * list Message :=
  let text := Py.strip task_entry in
  if negb (Py.nonempty text) then (app, [EnterDescription])
  else
    match add_due due_widget with
    | None => (app, [InvalidDateFormat])
    | Some due =>
        let task :=
          {| id := Py.str (next_id (tasks app)); text := text;
             priority := priority_var; due_date := due; completed := false;
             created := now; deleted := false |} in
        commit today app (tasks app ++ [task])
    end.

Definition toggle_complete (today : Date.t) (app : App)
  : App * list Message :=
  match get_selected_task (tasks app) (selected_id app) with
  | (None, msgs) => (app, msgs)
  | (Some i, _) =>
      commit today app
        (modify i (fun t => set_completed (negb (completed t)) t) (tasks app))
  end.

(** [edit_task] up to the display of the dialog. *)
Definition edit_task (app : App) : App * list Message :=
  match get_selected_task (tasks app) (selected_id app) with
  | (None, msgs) => (app, msgs)
  | (Some i, _) => (with_dialogs app (dialogs app ++ [i]), [])
  end.

(** The due date read by [save] from the dialog. *)
Definition edit_due (d_entry : string) : option (option string) :=
  let raw := Py.strip d_entry in
  if TKCALENDAR_AVAILABLE then
    if (raw =? "")%string then Some None else checked_due raw
  else
    if Py.nonempty raw then checked_due raw else Some None.

Fixpoint remove_nth {A} (k : nat) (l : list A) : list A :=
  match l, k with
  | [], _ => []
  | _ :: r, O => r
  | x :: r, S j => x :: remove_nth j r
  end.

(** The Save button of the [k]-th open dialog. *)
Definition save (today : Date.t) (k : nat) (e_task pvar d_entry : string)
  (app : App) : App * list Message :=
  match nth_error (dialogs app) k with
  | None => (app, [])
  | Some i =>
      let new_text := Py.strip e_task in
      if negb (Py.nonempty new_text) then (app, [TaskEmpty])
      else
        match edit_due d_entry with
        | None => (app, [InvalidDateFormat])
        | Some new_due_iso =>
            let (app', msgs) :=
              commit today app
                (modify i (set_edited new_text pvar new_due_iso) (tasks app)) in
            (with_dialogs app' (remove_nth k (dialogs app')), msgs)
        end
  end.

(** The Cancel button of the [k]-th open dialog. *)
Definition cancel (k : nat) (app : App) : App * list Message :=
  (with_dialogs app (remove_nth k (dialogs app)), []).

(** [confirm] is the answer to [askyesno]. *)
Definition delete_task (today : Date.t) (confirm : bool) (app : App)
  : App * list Message :=
  match get_selected_task (tasks app) (selected_id app) with
  | (None, msgs) => (app, msgs)
  | (Some i, _) =>
      if confirm then commit today app (modify i set_deleted (tasks app))
      else (app, [])
  end.

Definition is_comp (t : Task) : bool := completed t && negb (deleted t).

Definition clear_completed (today : Date.t) (confirm : bool) (app : App)
  : App * list Message :=
  match filter is_comp (tasks app) with
  | [] => (app, [NoCompleted])
  | _ =>
      if confirm then
        commit today app
          (map (fun t => if is_comp t then set_deleted t else t) (tasks app))
      else (app, [])
  end.

(** *** User actions *)

Inductive Action :=
| AddTask (now task_entry priority_var due_widget : string)
| SelectRow (i : nat)
| SetFilter (f : string)
| SetSearch (s : string)
| ToggleComplete
| EditTask
| DialogSave (k : nat) (e_task pvar d_entry : string)
| DialogCancel (k : nat)
| DeleteTask (confirm : bool)
| ClearCompleted (confirm : bool).

Definition step (today : Date.t) (a : Action) (app : App)
  : App * list Message :=
  match a with
  | AddTask now task_entry priority_var due_widget =>
      add_task today now task_entry priority_var due_widget app
  | SelectRow i =>
      ({| tasks := tasks app; disk := disk app; filter_var := filter_var app;
          search_var := search_var app; tree := tree app;
          selection := if (i <? List.length (tree app))%nat then Some i
                       else selection app;
          dialogs := dialogs app |}, [])
  | SetFilter f =>
      (refresh_task_list today
         {| tasks := tasks app; disk := disk app; filter_var := f;
            search_var := search_var app; tree := tree app;
            selection := selection app; dialogs := dialogs app |}, [])
  | SetSearch s =>
      (refresh_task_list today
         {| tasks := tasks app; disk := disk app; filter_var := filter_var app;
            search_var := s; tree := tree app;
            selection := selection app; dialogs := dialogs app |}, [])
  | ToggleComplete => toggle_complete today app
  | EditTask => edit_task app
  | DialogSave k e_task pvar d_entry => save today k e_task pvar d_entry app
  | DialogCancel k => cancel k app
  | DeleteTask confirm => delete_task today confirm app
  | ClearCompleted confirm => clear_completed today confirm app
  end.

(** A session: each action with the date [date.today()] gives when it is
    handled. *)
Fixpoint run (acts : list (Date.t * Action)) (app : App) : App :=
  match acts with
  | [] => app
  | (today, a) :: r => run r (fst (step today a app))
  end.

End Handlers.

(** ** The statistics label of [refresh_task_list] *)

(** The counts [total], [pending] and [completed], computed after the rows
    are inserted. *)
Definition stats (tasks : list Task) : Z * Z * Z :=
  let total :=
    Z.of_nat (List.length (filter (fun x => negb (deleted x)) tasks)) in
  let completed :=
    Z.of_nat (List.length
                (filter (fun x => completed x && negb (deleted x)) tasks)) in
  let pending := total - completed in
  (total, pending, completed).

Definition stats_label (tasks : list Task) : string :=
  let '(total, pending, completed) := stats tasks in
  "Total: " +++ Py.str total +++ " | Pending: " +++ Py.str pending +++
  " | Completed: " +++ Py.str completed.

(** ** [_clear_date_placeholder] *)

(** The text of the plain due-date entry after it receives the focus: a
    text that starts with "YYYY" is deleted. *)
Definition clear_date_placeholder (widget_text : string) : string :=
  if Py.startswith widget_text "YYYY" then "" else widget_text.

(** ** The Edit dialog when it opens *)

(** The contents [edit_task] gives to the task entry, to the priority
    variable and, when the due-date widget is the plain entry used without
    [tkcalendar], to that entry: the stored due date, or nothing. *)
Definition dialog_fields (t : Task) : string * string * string :=
  (text t, priority t, match has_due t with Some d => d | None => "" end).

(** ** [export_task] *)

Definition LF : string := String Json.newline EmptyString.

(** The six lines written to a text file. *)
Definition export_text (t : Task) : string :=
  ("Task ID: " +++ id t +++ LF) +++
  ("Task: " +++ text t +++ LF) +++
  ("Priority: " +++ priority t +++ LF) +++
  ("Due Date: " +++
     match has_due t with Some d => d | None => "No due date" end +++ LF) +++
  ("Status: " +++ (if completed t then "Done" else "Pending") +++ LF) +++
  ("Created: " +++ created t +++ LF).

(** What [export_task] did: nothing (no task resolved, or the file dialog
    cancelled), an error box, or a file written and an information box. *)
Inductive Export :=
| NotExported
| ExportFailed
| Exported (path content : string).

(** [path] is the answer of the file dialog, empty when it is cancelled;
    [can_open] tells whether [open(path, 'w')] succeeds.  As in
    [save_tasks], a failure in the middle of the write is not modelled.
    The lookup returns a position of the list, so the record is there. *)
Definition export_task (path : string) (can_open : bool) (app : App)
  : Export * list Message :=
  match get_selected_task (tasks app) (selected_id app) with
  | (None, msgs) => (NotExported, msgs)
  | (Some i, _) =>
      match nth_error (tasks app) i with
      | None => (NotExported, [])
      | Some t =>
          if negb (Py.nonempty path) then (NotExported, [])
          else if can_open then
            if Py.endswith (Py.lower path) ".json"
            then (Exported path (Json.dumps (task_dict t)), [])
            else (Exported path (export_text t), [])
          else (ExportFailed, [])
      end
  end.

(** ** [on_close] *)

(** [confirm] is the answer to "Do you want to save and exit?".  The
    result holds the application, the messages shown, and whether the
    window was destroyed: [save_tasks] handles its own failure, so
    [root.destroy()] follows it in any case. *)
Definition on_close (confirm : bool) (app : App) : App * list Message * bool :=
  if confirm then
    let (d, msgs) := save_tasks (tasks app) (disk app) in
    (with_tasks app (tasks app) d, msgs, true)
  else (app, [], false).

(** ** Notions used in the statements *)

(** The rule for [next_id] in the words of the specification: every id
    counts for its number, a non-numeric one for 0, and the result is the
    greatest of them plus one. *)
Definition numeric_or_zero (t : Task) : Z :=
  match Py.int (id t) with
  | Some n => n
  | None => 0
  end.

Definition next_id_spec (tasks : list Task) : Z :=
  match map numeric_or_zero tasks with
  | [] => 1
  | x :: xs => Py.max x xs + 1
  end.

(** Empty or whitespace-only text. *)
Fixpoint whitespace_only (s : string) : bool :=
  match s with
  | EmptyString => true
  | String c r => Py.isspace c && whitespace_only r
  end.

(** The order of the sort keys, component by component: [completed] with
    [false] first, then the priority rank, then the due date and the
    creation stamp as strings. *)
Definition str_lt (s t : string) : Prop := String.compare s t = Lt.
Definition str_le (s t : string) : Prop := String.compare s t <> Gt.

Definition key_le (a b : Key) : Prop :=
  let '(c1, p1, d1, t1) := a in
  let '(c2, p2, d2, t2) := b in
  (c1 = false /\ c2 = true) \/
  (c1 = c2 /\
   (p1 < p2 \/
    (p1 = p2 /\
     (str_lt d1 d2 \/
      (d1 = d2 /\ str_le t1 t2))))).

Definition ascending (l : list Task) : Prop :=
  StronglySorted (fun x y => key_le (sort_key x) (sort_key y)) l.

Definition numeric (t : Task) : Prop := Py.int (id t) <> None.

(** What every handler leaves alone in a stored record: its id, its
    creation stamp, and the deleted mark once it is set. *)
Definition same_identity (t t' : Task) : Prop :=
  id t' = id t /\ created t' = created t /\
  (deleted t = true -> deleted t' = true).

(** [ts'] is [ts] with its records possibly rewritten in place, followed
    by at most one record appended under the next id. *)
Definition frame (ts ts' : list Task) : Prop :=
  exists kept added,
    ts' = kept ++ added /\ Forall2 same_identity ts kept /\
    (added = [] \/ exists a, added = [a] /\ id a = Py.str (next_id ts)).

(** [ts] is what a session can make of [ts0]: the records of [ts0]
    rewritten in place, followed by appended records; when the ids of
    [ts0] are numeric, so are all ids, and every appended id is greater
    than every id of [ts0]. *)
Definition extends (ts0 ts : list Task) : Prop :=
  exists kept added,
    ts = kept ++ added /\ Forall2 same_identity ts0 kept /\
    (Forall numeric ts0 ->
     Forall numeric ts /\
     forall u t n m,
       In u added -> In t ts0 ->
       Py.int (id t) = Some n -> Py.int (id u) = Some m -> n < m).

(** A Save of a dialog whose record has been soft-deleted since the dialog
    was opened. *)
Definition stale_save (app : App) (a : Action) : Prop :=
  match a with
  | DialogSave k _ _ _ =>
      exists j u,
        nth_error (dialogs app) k = Some j /\
        nth_error (tasks app) j = Some u /\ deleted u = true
  | _ => False
  end.

(** ** Sample data *)

Definition today0 : Date.t := Date.mk 2030 1 1.

Definition sample (i : string) (del : bool) : Task :=
  {| id := i; text := "Buy milk"; priority := "Medium"; due_date := None;
     completed := false; created := "2024-05-01 09:30"; deleted := del |}.

Definition sample_urgent : Task :=
  {| id := "4"; text := "Call Ann"; priority := "Urgent"; due_date := None;
     completed := false; created := "2024-05-01 09:30"; deleted := false |}.

(** The three tasks of the example of the specification, with any ids,
    texts and creation stamps. *)
Definition task_A (i txt c : string) : Task :=
  {| id := i; text := txt; priority := "High"; due_date := Some "2099-01-01";
     completed := false; created := c; deleted := false |}.

Definition task_B (i txt c : string) : Task :=
  {| id := i; text := txt; priority := "Low"; due_date := Some "2000-01-01";
     completed := false; created := c; deleted := false |}.

Definition task_C (i txt c : string) : Task :=
  {| id := i; text := txt; priority := "High"; due_date := Some "2000-01-01";
     completed := true; created := c; deleted := false |}.

Definition sample_B : Task := task_B "1" "Pay rent" "2024-05-01 09:30".

Definition row_B : Row :=
  {| row_id := "1"; row_priority := "Low"; row_text := "Pay rent";
     row_due := "2000-01-01"; days_left := "10958 day(s) overdue";
     status := "Pending"; row_created := "2024-05-01";
     tags := ["low_priority"; "overdue"] |}.

(** The application as [__init__] leaves it when the data file holds
    [ts]. *)
Definition start (ts : list Task) : App :=
  refresh_task_list today0
    {| tasks := ts;
       disk := {| file := Text (Json.dumps (tasks_value ts));
                  writable := true |};
       filter_var := "All"; search_var := ""; tree := [];
       selection := None; dialogs := [] |}.

(** The Delete key pressed, and confirmed, while the Edit dialog of the
    selected task is open, then that dialog saved.  [bind_all] puts the
    Delete shortcut on every widget of the application, those of the
    dialog included; the grab of the dialog confines pointer events only,
    and the class binding of the entry does not stop the event. *)
Definition stale_dialog_session : list (Date.t * Action) :=
  [(today0, SelectRow 0); (today0, EditTask); (today0, DeleteTask true);
   (today0, DialogSave 0 "Buy oat milk" "Low" "")].

(** ** Notions used in the proofs about the JSON text *)

(** Every character of [s] satisfies [p]. *)
Fixpoint every (p : ascii -> bool) (s : string) : bool :=
  match s with
  | EmptyString => true
  | String c r => p c && every p r
  end.

(** The two inner loops of [Json.encode], named. *)
Definition encode_items (level : nat) : list Json.value -> string :=
  fix items (l : list Json.value) : string :=
    match l with
    | [] => EmptyString
    | y :: r =>
        "," +++ Json.newline_indent level +++ Json.encode level y +++ items r
    end.

Definition encode_members (level : nat) : list (string * Json.value) -> string :=
  fix items (l : list (string * Json.value)) : string :=
    match l with
    | [] => EmptyString
    | (k', y) :: r =>
        "," +++ Json.newline_indent level +++ Json.encode_string k' +++ ": " +++
        Json.encode level y +++ items r
    end.

(** Fuel that suffices to read a value back: one unit for the value and
    one for every item below it. *)
Fixpoint need (v : Json.value) : nat :=
  match v with
  | Json.Arr l =>
      S ((fix go (l : list Json.value) : nat :=
            match l with
            | [] => O
            | x :: r => S (need x + go r)
            end) l)
  | Json.Obj l =>
      S ((fix go (l : list (string * Json.value)) : nat :=
            match l with
            | [] => O
            | (_, x) :: r => S (need x + go r)
            end) l)
  | _ => 1%nat
  end.

Definition need_items : list Json.value -> nat :=
  fix go (l : list Json.value) : nat :=
    match l with
    | [] => O
    | x :: r => S (need x + go r)
    end.

Definition need_members : list (string * Json.value) -> nat :=
  fix go (l : list (string * Json.value)) : nat :=
    match l with
    | [] => O
    | (_, x) :: r => S (need x + go r)
    end.

(** Values whose [dict]s have distinct keys, as every Python [dict] has. *)
Fixpoint wf (v : Json.value) : Prop :=
  match v with
  | Json.Arr l =>
      (fix go (l : list Json.value) : Prop :=
         match l with
         | [] => True
         | x :: r => wf x /\ go r
         end) l
  | Json.Obj l =>
      NoDup (map fst l) /\
      (fix go (l : list (string * Json.value)) : Prop :=
         match l with
         | [] => True
         | (_, x) :: r => wf x /\ go r
         end) l
  | _ => True
  end.

(** The first character of an encoded value is not whitespace and is not a
    closing bracket. *)
Definition opens_value (s : string) : Prop :=
  exists c r, s = String c r /\ Json.is_ws c = false /\ Ascii.eqb c "]" = false.

(** Text at which a number ends: it starts with no digit, and with no
    fraction and no exponent. *)
Definition ends_number (rest : string) : Prop :=
  Json.float_tail rest = false /\
  match rest with
  | String c _ => Py.isdigit c = false
  | EmptyString => True
  end.

(** The decoder reads the encoding of [v] back, at any indentation level
    and before any text at which a number ends, given enough fuel. *)
Definition reads_back (v : Json.value) : Prop :=
  forall level fuel rest,
    (need v <= fuel)%nat -> ends_number rest ->
    Json.scan_once fuel (Json.encode level v +++ rest) = Some (v, rest).

(** ** Notions used in the statements about sessions, views and exports *)

(** A stored due date in the form [isoformat] writes, or none. *)
Definition canonical_due (t : Task) : Prop :=
  match due_date t with
  | None => True
  | Some s => exists d, Date.valid d = true /\ s = Date.isoformat d
  end.

(** The data file holds the list that is in memory: [load_tasks] would
    return it, without a warning. *)
Definition in_sync (app : App) : Prop :=
  load_tasks (disk app) = (tasks_value (tasks app), []).

(** Equality of two sort keys. *)
Definition key_eqb (a b : Key) : bool :=
  let '(c1, p1, d1, t1) := a in
  let '(c2, p2, d2, t2) := b in
  Bool.eqb c1 c2 && (p1 =? p2) && (d1 =? d2)%string && (t1 =? t2)%string.

(** The lines of a text, as [s.split("\n")] gives them: the pieces between
    its line feeds.  [cur] holds the line being read. *)
Fixpoint lines_from (cur : string -> string) (s : string) : list string :=
  match s with
  | EmptyString => [cur EmptyString]
  | String c r =>
      if Ascii.eqb c Json.newline then cur EmptyString :: lines_from (fun x => x) r
      else lines_from (fun x => cur (String c x)) r
  end.

Definition lines (s : string) : list string := lines_from (fun x => x) s.

Definition one_line (s : string) : bool :=
  every (fun c => negb (Ascii.eqb c Json.newline)) s.

(** The records that are not deleted. *)
Definition live (ts : list Task) : list Task :=
  filter (fun t => negb (deleted t)) ts.

(** ** Notions used in the proofs about dates and numbers *)

(** The [n] integers from [lo] on, and the integers [1], ..., [n]. *)
Fixpoint range (lo : Z) (n : nat) : list Z :=
  match n with
  | O => []
  | S k => lo :: range (lo + 1) k
  end.

Definition upto (n : Z) : list Z := range 1 (Z.to_nat n).

(** The number that a text of exactly four digits denotes. *)
Definition four_digits (s : string) : option Z :=
  match s with
  | String a (String b (String c (String d EmptyString))) =>
      match Date.digit a, Date.digit b, Date.digit c, Date.digit d with
      | Some x, Some y, Some z, Some w => Some (1000 * x + 100 * y + 10 * z + w)
      | _, _, _, _ => None
      end
  | _ => None
  end.

Definition reads_as (v : Z) (o : option Z) : bool :=
  match o with Some x => x =? v | None => false end.

(** The month and day fields of an ISO date are read back by the month and
    day groups of the pattern. *)
Definition month_day_read (m d : Z) : bool :=
  match Date.first_md
          (Date.match_m (Date.zfill 2 (Py.str m) +++ "-" +++ Date.zfill 2 (Py.str d)))
  with
  | Some (m', d', EmptyString) => (m' =? m) && (d' =? d)
  | _ => false
  end.

(** The characters [str] makes of an [int]. *)
Definition sign_or_digit (c : ascii) : bool := Py.isdigit c || Ascii.eqb c "-".

(** * Properties *)

(** ** Sample evaluations of the Python primitives *)

Example int_strips_and_groups : Py.int " 12_3 " = Some 123.
Proof. reflexivity. Qed.

Example int_signed_leading_zeros : Py.int "-007" = Some (-7).
Proof. reflexivity. Qed.

Example int_rejects_double_underscore : Py.int "1__0" = None.
Proof. reflexivity. Qed.

Example int_rejects_letters : Py.int "abc" = None.
Proof. reflexivity. Qed.

Example int_rejects_empty : Py.int "" = None.
Proof. reflexivity. Qed.

(** The separator FS is whitespace for [str.strip] and not for [int()]. *)
Example int_rejects_separator : Py.int (String "028" "5") = None.
Proof. reflexivity. Qed.

Example strip_drops_separator : Py.strip (String "028" "5") = "5".
Proof. reflexivity. Qed.

Example str_negative : Py.str (-120) = "-120".
Proof. reflexivity. Qed.

Example strip_both_sides : Py.strip "  a b  " = "a b".
Proof. reflexivity. Qed.

Example split_first_filter : Py.split_first "High Priority" = Some "High".
Proof. reflexivity. Qed.

Example strptime_leap_day :
  Date.strptime "2024-02-29" = Some (Date.mk 2024 2 29).
Proof. reflexivity. Qed.

Example strptime_no_leap_day : Date.strptime "2023-02-29" = None.
Proof. reflexivity. Qed.

Example strptime_february_30 : Date.strptime "2024-02-30" = None.
Proof. reflexivity. Qed.

Example strptime_short_fields :
  Date.strptime "2024-2- 9" = Some (Date.mk 2024 2 9).
Proof. reflexivity. Qed.

Example strptime_month_13 : Date.strptime "2024-13-01" = None.
Proof. reflexivity. Qed.

Example strptime_year_zero : Date.strptime "0000-01-01" = None.
Proof. reflexivity. Qed.

Example strptime_trailing_text : Date.strptime "2024-01-01x" = None.
Proof. reflexivity. Qed.

Example isoformat_pads :
  Date.isoformat (Date.mk 987 2 9) = "0987-02-09".
Proof. reflexivity. Qed.

Example toordinal_first_day : Date.toordinal (Date.mk 1 1 1) = 1.
Proof. reflexivity. Qed.

Example toordinal_2024_03_01 : Date.toordinal (Date.mk 2024 3 1) = 738946.
Proof. reflexivity. Qed.

Example dumps_layout :
  Json.dumps
    (Json.Arr [Json.Null; Json.Bool true; Json.Int (-12); Json.Arr [];
               Json.Obj []; Json.Arr [Json.Bool false]]) =
  "[
  null,
  true,
  -12,
  [],
  {},
  [
    false
  ]
]".
Proof. reflexivity. Qed.

Example loads_whitespace_and_numbers :
  Json.loads " [ 1 , -20,[ ] ,{ } ] " =
  Some (Json.Arr [Json.Int 1; Json.Int (-20); Json.Arr []; Json.Obj []]).
Proof. reflexivity. Qed.

Example loads_rejects_leading_zero : Json.loads "[01]" = None.
Proof. reflexivity. Qed.

Example loads_rejects_trailing_comma : Json.loads "[1,]" = None.
Proof. reflexivity. Qed.

Example loads_rejects_extra_data : Json.loads "[] []" = None.
Proof. reflexivity. Qed.

Example save_writes_task :
  file (fst (save_tasks [sample "1" false] (mkDisk Absent true))) =
  Text ("[
  {
    " +++ String Json.quote "id" +++ String Json.quote ": " +++
        String Json.quote "1" +++ String Json.quote ",
    " +++ String Json.quote "text" +++ String Json.quote ": " +++
        String Json.quote "Buy milk" +++ String Json.quote ",
    " +++ String Json.quote "priority" +++ String Json.quote ": " +++
        String Json.quote "Medium" +++ String Json.quote ",
    " +++ String Json.quote "due_date" +++ String Json.quote ": null,
    " +++ String Json.quote "completed" +++ String Json.quote ": false,
    " +++ String Json.quote "created" +++ String Json.quote ": " +++
        String Json.quote "2024-05-01 09:30" +++ String Json.quote ",
    " +++ String Json.quote "deleted" +++ String Json.quote ": false
  }
]").
Proof. reflexivity. Qed.

(** ** Generators and [max] *)

Lemma traverse_none {A B} (f : A -> option B) (l : list A) :
  (exists x, In x l /\ f x = None) -> Py.traverse f l = None.
Proof.
  induction l as [|a l IH]; intros [x [Hin Hx]]; simpl in *.
  - contradiction.
  - destruct (f a) eqn:Ha; [|reflexivity].
    destruct Hin as [->|Hin]; [congruence|].
    rewrite IH; [reflexivity|eauto].
Qed.

Lemma traverse_some {A B} (f : A -> option B) (l : list A) :
  (forall x, In x l -> exists y, f x = Some y) ->
  exists ys, Py.traverse f l = Some ys /\ Forall2 (fun x y => f x = Some y) l ys.
Proof.
  induction l as [|a l IH]; intros H; simpl.
  - exists []. split; [reflexivity|constructor].
  - destruct (H a (or_introl eq_refl)) as [y Hy]. rewrite Hy.
    destruct IH as [ys [E F]]; [intros x Hx; apply H; now right|].
    rewrite E. exists (y :: ys). split; [reflexivity|now constructor].
Qed.

Lemma max_ge_init (xs : list Z) (x : Z) : x <= Py.max x xs.
Proof.
  unfold Py.max. revert x.
  induction xs as [|y ys IH]; intros x; simpl; [lia|].
  apply Z.le_trans with (Z.max x y); [apply Z.le_max_l|apply IH].
Qed.

Lemma max_ge (xs : list Z) (x n : Z) : In n (x :: xs) -> n <= Py.max x xs.
Proof.
  unfold Py.max. revert x.
  induction xs as [|y ys IH]; intros x [->|H]; simpl in *; try lia; try contradiction.
  - apply Z.le_trans with (Z.max n y); [apply Z.le_max_l|].
    apply (max_ge_init ys (Z.max n y)).
  - destruct H as [->|H]; [|apply IH; now right].
    apply Z.le_trans with (Z.max x n); [apply Z.le_max_r|].
    apply (max_ge_init ys (Z.max x n)).
Qed.

Lemma max_in (xs : list Z) (x : Z) : In (Py.max x xs) (x :: xs).
Proof.
  unfold Py.max. revert x.
  induction xs as [|y ys IH]; intros x; simpl; [now left|].
  destruct (IH (Z.max x y)) as [E|H]; [|now right; right].
  rewrite <- E. destruct (Z.max_spec x y) as [[_ ->]|[_ ->]]; auto.
Qed.

(** ** [next_id] *)

Lemma next_id_cons (t : Task) (r : list Task) :
  next_id (t :: r) =
  match Py.traverse (fun t => Py.int (id t)) (t :: r) with
  | Some (x :: xs) => Py.max x xs + 1
  | _ => 1
  end.
Proof.
  unfold next_id. destruct (Py.traverse _ _) as [[|x xs]|]; reflexivity.
Qed.


Lemma next_id_numeric (tasks : list Task) :
  tasks <> [] ->
  (forall t, In t tasks -> exists n, Py.int (id t) = Some n) ->
  exists m,
    next_id tasks = m + 1 /\
    (exists t, In t tasks /\ Py.int (id t) = Some m) /\
    (forall t n, In t tasks -> Py.int (id t) = Some n -> n <= m).
Proof.
  intros Hne Hall. destruct tasks as [|t r]; [congruence|].
  destruct (traverse_some (fun t => Py.int (id t)) (t :: r) Hall)
    as [ys [E F]].
  rewrite next_id_cons, E. inversion F as [|a y l ys' Hy F' E1 E2]; subst.
  exists (Py.max y ys'). split; [reflexivity|]. split.
  - assert (G : forall n, In n (y :: ys') ->
              exists u, In u (t :: r) /\ Py.int (id u) = Some n).
    { clear -F. induction F as [|a b l l' Hab F IH]; intros n [].
      - subst. exists a. split; [now left|assumption].
      - destruct (IH n H) as [u [Hu E]]. exists u. split; [now right|assumption]. }
    apply G, max_in.
  - intros u n Hu En. apply max_ge.
    clear -F Hu En. induction F as [|a b l l' Hab F IH]; [contradiction|].
    destruct Hu as [->|Hu]; [left; congruence|right; auto].
Qed.



(** ** Stripping *)

Lemma lstrip_by_all (p : ascii -> bool) (s : string) :
  every p s = true -> Py.lstrip_by p s = "".
Proof.
  induction s as [|c r IH]; simpl; [reflexivity|].
  intros H. apply andb_prop in H as [Hc Hr]. rewrite Hc. auto.
Qed.

Lemma whitespace_only_every (s : string) :
  whitespace_only s = every Py.isspace s.
Proof. induction s as [|c r IH]; simpl; [reflexivity|now rewrite IH]. Qed.

Lemma strip_whitespace_only (s : string) :
  whitespace_only s = true -> Py.strip s = "".
Proof.
  rewrite whitespace_only_every. intros H.
  unfold Py.strip, Py.strip_by. now rewrite lstrip_by_all.
Qed.

Lemma lstrip_by_head (p : ascii -> bool) (s : string) :
  every p s = false ->
  exists c r, Py.lstrip_by p s = String c r /\ p c = false.
Proof.
  induction s as [|c r IH]; simpl; [discriminate|].
  destruct (p c) eqn:Hc; simpl; [exact IH|].
  intros _. now exists c, r.
Qed.

Lemma rstrip_by_head (p : ascii -> bool) (c : ascii) (r : string) :
  p c = false -> Py.nonempty (Py.rstrip_by p (String c r)) = true.
Proof.
  intros Hc. simpl. destruct (Py.rstrip_by p r); [now rewrite Hc|reflexivity].
Qed.

Lemma strip_nonempty (s : string) :
  whitespace_only s = false -> Py.nonempty (Py.strip s) = true.
Proof.
  rewrite whitespace_only_every. intros H.
  destruct (lstrip_by_head _ s H) as [c [r [E Hc]]].
  unfold Py.strip, Py.strip_by. rewrite E. now apply rstrip_by_head.
Qed.

Lemma nonempty_eqb (s : string) : Py.nonempty s = negb (s =? "")%string.
Proof. now destruct s. Qed.

(** ** Validation in [add_task] and in the Save button of the dialog *)

Lemma checked_due_invalid (raw : string) :
  Date.strptime raw = None -> checked_due raw = None.
Proof.
  intros H. unfold checked_due, validate_date.
  destruct (Py.nonempty raw); simpl; [now rewrite H|reflexivity].
Qed.

(** [validate_date] answers [NoDate] for the empty text only, which
    [add_task] and [save] never pass to it. *)
Lemma validate_date_nonempty (raw : string) :
  Py.nonempty raw = true -> validate_date raw <> NoDate.
Proof.
  intros H. unfold validate_date. rewrite H. cbn.
  destruct (Date.strptime raw); discriminate.
Qed.

Lemma add_due_invalid (tk : bool) (w : string) :
  whitespace_only w = false ->
  Date.strptime (Py.strip w) = None ->
  (tk = false -> Py.startswith (Py.strip w) "YYYY" = false) ->
  add_due tk w = None.
Proof.
  intros Hw Hp Hy. unfold add_due.
  pose proof (strip_nonempty w Hw) as Hn.
  destruct tk.
  - rewrite nonempty_eqb in Hn. apply negb_true_iff in Hn. rewrite Hn.
    now apply checked_due_invalid.
  - rewrite (Hy eq_refl), Hn. now apply checked_due_invalid.
Qed.

Lemma edit_due_invalid (tk : bool) (w : string) :
  whitespace_only w = false ->
  Date.strptime (Py.strip w) = None ->
  edit_due tk w = None.
Proof.
  intros Hw Hp. unfold edit_due.
  pose proof (strip_nonempty w Hw) as Hn.
  destruct tk.
  - rewrite nonempty_eqb in Hn. apply negb_true_iff in Hn. rewrite Hn.
    now apply checked_due_invalid.
  - rewrite Hn. now apply checked_due_invalid.
Qed.




(** ** The order of the sort keys *)

Lemma str_compare_refl (s : string) : String.compare s s = Eq.
Proof.
  induction s as [|c r IH]; simpl; [reflexivity|].
  unfold Ascii.compare. now rewrite N.compare_refl.
Qed.

Lemma str_lt_trans (a b c : string) : str_lt a b -> str_lt b c -> str_lt a c.
Proof.
  unfold str_lt. revert b c.
  induction a as [|x a IH]; intros [|y b] [|z c]; simpl; try easy.
  destruct (Ascii.compare x y) eqn:E1; try easy;
    destruct (Ascii.compare y z) eqn:E2; try easy.
  - apply Ascii.compare_eq_iff in E1. subst. rewrite E2. apply IH.
  - apply Ascii.compare_eq_iff in E1. subst. now rewrite E2.
  - apply Ascii.compare_eq_iff in E2. subst. now rewrite E1.
  - unfold Ascii.compare in *. rewrite N.compare_lt_iff in *.
    intros _ _.
    assert (H : (N_of_ascii x ?= N_of_ascii z)%N = Lt)
      by (apply N.compare_lt_iff; lia).
    now rewrite H.
Qed.

Lemma str_lt_gt (a b : string) : str_lt a b -> String.compare b a = Gt.
Proof.
  unfold str_lt. intros H. rewrite String.compare_antisym, H. reflexivity.
Qed.

Lemma str_le_trans (a b c : string) : str_le a b -> str_le b c -> str_le a c.
Proof.
  unfold str_le. intros H1 H2.
  destruct (String.compare a b) eqn:E1; [| |congruence].
  - apply String.compare_eq_iff in E1. now subst.
  - destruct (String.compare b c) eqn:E2; [| |congruence].
    + apply String.compare_eq_iff in E2. subst. now rewrite E1.
    + now rewrite (str_lt_trans a b c E1 E2).
Qed.

Lemma str_ltb_false_le (s t : string) :
  String.ltb s t = false <-> str_le t s.
Proof.
  unfold String.ltb, str_le. rewrite (String.compare_antisym t s).
  destruct (String.compare s t); simpl; split; congruence.
Qed.

Lemma str_neq_ltb_false (s t : string) :
  s <> t -> String.ltb s t = false -> str_lt t s.
Proof.
  unfold String.ltb, str_lt. intros Hne. rewrite (String.compare_antisym t s).
  destruct (String.compare s t) eqn:E; simpl; try congruence.
  apply String.compare_eq_iff in E. contradiction.
Qed.

Lemma tail_lt_false (p1 p2 : Z) (d1 d2 t1 t2 : string) :
  (if negb (p2 =? p1) then p2 <? p1
   else if negb (d2 =? d1)%string then String.ltb d2 d1
   else String.ltb t2 t1) = false <->
  (p1 < p2 \/
   (p1 = p2 /\ (str_lt d1 d2 \/ (d1 = d2 /\ str_le t1 t2)))).
Proof.
  destruct (Z.eqb_spec p2 p1) as [->|Hp]; simpl.
  - destruct (String.eqb_spec d2 d1) as [->|Hd]; simpl.
    + rewrite str_ltb_false_le. split.
      * intros H. right. split; [reflexivity|]. right. now split.
      * intros [H|[_ [H|[_ H]]]]; [lia| |exact H].
        unfold str_lt in H. rewrite str_compare_refl in H. discriminate.
    + split.
      * intros H. right. split; [reflexivity|]. left.
        now apply str_neq_ltb_false.
      * intros [H|[_ [H|[E _]]]]; [lia| |congruence].
        unfold String.ltb. now rewrite (str_lt_gt _ _ H).
  - rewrite Z.ltb_ge. split.
    + intros H. left. lia.
    + intros [H|[E _]]; [lia|congruence].
Qed.

(** [not (b < a)] on the tuples is [a <= b] component by component. *)
Lemma key_lt_false (a b : Key) : key_lt b a = false <-> key_le a b.
Proof.
  destruct a as [[[c1 p1] d1] t1], b as [[[c2 p2] d2] t2].
  unfold key_lt, key_le.
  destruct c1, c2; simpl; rewrite ?tail_lt_false.
  - split; [intros H; right; now split|].
    intros [[H _]|[_ H]]; [discriminate|exact H].
  - split; [discriminate|]. intros [[? ?]|[? _]]; discriminate.
  - split; [now left|reflexivity].
  - split; [intros H; right; now split|].
    intros [[_ H]|[_ H]]; [discriminate|exact H].
Qed.

Lemma key_lt_true_le (a b : Key) : key_lt a b = true -> key_le a b.
Proof.
  intros H. apply key_lt_false.
  destruct a as [[[c1 p1] d1] t1], b as [[[c2 p2] d2] t2].
  unfold key_lt in *.
  destruct c1, c2; simpl in *; try discriminate; try reflexivity.
  all: destruct (Z.eqb_spec p1 p2) as [->|Hp]; simpl in *.
  all: try (rewrite Z.eqb_refl; simpl).
  all: try (destruct (String.eqb_spec d1 d2) as [->|Hd]; simpl in * ).
  all: try (rewrite String.eqb_refl; simpl).
  all: try (unfold String.ltb in *;
            destruct (String.compare t1 t2) eqn:E; try discriminate;
            now rewrite (str_lt_gt _ _ E)).
  all: try (assert (Hd' : (d2 =? d1)%string = false)
              by (apply String.eqb_neq; congruence); rewrite Hd'; simpl;
            unfold String.ltb in *;
            destruct (String.compare d1 d2) eqn:E; try discriminate;
            now rewrite (str_lt_gt _ _ E)).
  all: try (assert (Hp' : (p2 =? p1) = false) by (apply Z.eqb_neq; congruence);
            rewrite Hp'; simpl; apply Z.ltb_ge; apply Z.ltb_lt in H; lia).
Qed.

Lemma key_le_trans (a b c : Key) : key_le a b -> key_le b c -> key_le a c.
Proof.
  destruct a as [[[c1 p1] d1] t1], b as [[[c2 p2] d2] t2],
           c as [[[c3 p3] d3] t3].
  unfold key_le.
  intros [[-> ->]|[-> H1]] [[E1 E2]|[-> H2]]; try discriminate.
  - left. now split.
  - left. now split.
  - right. split; [reflexivity|].
    destruct H1 as [H1|[-> H1]], H2 as [H2|[-> H2]].
    + left. lia.
    + now left.
    + now left.
    + right. split; [reflexivity|].
      destruct H1 as [H1|[-> H1]], H2 as [H2|[-> H2]].
      * left. eapply str_lt_trans; eassumption.
      * now left.
      * now left.
      * right. split; [reflexivity|]. eapply str_le_trans; eassumption.
Qed.

(** ** [visible.sort(key=sort_key)] *)

Lemma insert_perm (x : Task) (l : list Task) : Permutation (insert x l) (x :: l).
Proof.
  induction l as [|y r IH]; simpl; [reflexivity|].
  destruct (key_lt (sort_key y) (sort_key x)); [|reflexivity].
  rewrite IH. apply perm_swap.
Qed.

Lemma sort_perm (l : list Task) : Permutation (sort l) l.
Proof.
  induction l as [|x r IH]; simpl; [reflexivity|].
  rewrite insert_perm. now constructor.
Qed.

Lemma insert_ascending (x : Task) (l : list Task) :
  ascending l -> ascending (insert x l).
Proof.
  unfold ascending.
  induction l as [|y r IH]; intros H; simpl.
  - constructor; constructor.
  - inversion H as [|? ? Hr Hy]; subst.
    destruct (key_lt (sort_key y) (sort_key x)) eqn:E.
    + constructor; [now apply IH|].
      eapply Permutation_Forall; [symmetry; apply insert_perm|].
      constructor; [exact (key_lt_true_le _ _ E)|assumption].
    + apply key_lt_false in E.
      constructor; [assumption|]. constructor; [assumption|].
      eapply Forall_impl; [|exact Hy]. intros z Hz.
      exact (key_le_trans _ _ _ E Hz).
Qed.

Lemma sort_ascending (l : list Task) : ascending (sort l).
Proof.
  induction l as [|x r IH]; simpl; [constructor|now apply insert_ascending].
Qed.

Lemma keep_not_deleted (f s : string) (t : Task) :
  keep f s t = true -> deleted t = false.
Proof. unfold keep. now destruct (deleted t). Qed.

(** The filter on a priority always finds its first word. *)
Lemma endswith_split_first (f : string) :
  Py.endswith f "Priority" = true -> Py.split_first f <> None.
Proof.
  assert (G : forall s, Py.endswith s "Priority" = true -> Py.lstrip s <> "").
  { unfold Py.lstrip.
    induction s as [|c r IH]; cbn [Py.endswith Py.lstrip_by]; [discriminate|].
    intros H. destruct (Py.isspace c) eqn:Hc; [|discriminate].
    apply orb_prop in H as [H|H]; [|now apply IH].
    apply String.eqb_eq in H. injection H as -> _. discriminate Hc. }
  intros H. unfold Py.split_first. specialize (G f H).
  destruct (Py.lstrip f); [congruence|discriminate].
Qed.

Lemma visible_in (tasks : list Task) (f s : string) (t : Task) :
  In t (visible tasks f s) <->
  In t tasks /\ keep f (Py.strip (Py.lower s)) t = true.
Proof.
  unfold visible. rewrite <- filter_In. split; apply Permutation_in.
  - apply sort_perm.
  - symmetry. apply sort_perm.
Qed.

(** C3: the visible rows are the records kept by the filter and the
    search, in ascending order of the composite key: incomplete before
    completed, then priority rank (High 0, Medium 1, Low 2), then due date
    with "9999-12-31" standing for an absent one (null or empty), then
    creation stamp.  The tasks A, B, C of the example come out as
    [A, B, C] under the filter All, in whatever order they are stored. *)
Theorem visible_ascending :
  (forall tasks f s,
     ascending (visible tasks f s) /\
     Permutation (visible tasks f s)
       (filter (keep f (Py.strip (Py.lower s))) tasks)) /\
  (pri_order "High" = 0 /\ pri_order "Medium" = 1 /\ pri_order "Low" = 2) /\
  (forall x,
     sort_key x =
     (completed x, pri_order (priority x),
      match due_date x with
      | None | Some "" => "9999-12-31"
      | Some d => d
      end, created x)) /\
  (forall ia ta ca ib tb cb ic tc cc,
     let A := task_A ia ta ca in
     let B := task_B ib tb cb in
     let C := task_C ic tc cc in
     Forall (fun l => visible l "All" "" = [A; B; C])
       [[A; B; C]; [A; C; B]; [B; A; C]; [B; C; A]; [C; A; B]; [C; B; A]]).
Proof.
  split; [|split; [|split]].
  - intros tasks f s. split; [apply sort_ascending|apply sort_perm].
  - repeat split.
  - intros x. unfold sort_key, has_due.
    destruct (due_date x) as [[|c r]|]; reflexivity.
  - intros. repeat constructor.
Qed.

(** ** The rows of the tree *)

Lemma in_insert_rows (today : Date.t) (vis : list Task) (row : Row) :
  In row (insert_rows today vis) ->
  exists t, In t vis /\ make_row today t = Some row.
Proof.
  induction vis as [|t r IH]; simpl; [contradiction|].
  destruct (make_row today t) as [row'|] eqn:E; [|contradiction].
  intros [<-|H].
  - exists t. split; [now left|assumption].
  - destruct (IH H) as [u [Hu Eu]]. exists u. split; [now right|assumption].
Qed.

(** Every row of the tree comes from a record that is stored, not deleted
    and kept by the filter and the search. *)
Lemma tree_row_origin (today : Date.t) (tasks : list Task) (f s : string)
  (row : Row) :
  In row (insert_rows today (visible tasks f s)) ->
  exists t,
    In t tasks /\ deleted t = false /\
    keep f (Py.strip (Py.lower s)) t = true /\ make_row today t = Some row.
Proof.
  intros H. destruct (in_insert_rows _ _ _ H) as [t [Ht E]].
  apply visible_in in Ht as [Hin Hk].
  exists t. repeat split; try assumption. eapply keep_not_deleted; eassumption.
Qed.

Lemma make_row_fields (today : Date.t) (t : Task) (row : Row) :
  make_row today t = Some row ->
  days_left row = fst (due_info today t) /\ tags row = row_tags today t.
Proof.
  unfold make_row. destruct (Py.split_first (created t)); [|discriminate].
  intros [= <-]. split; reflexivity.
Qed.

Lemma has_due_some (t : Task) (due : string) (d : Date.t) :
  due_date t = Some due -> Date.strptime due = Some d -> has_due t = Some due.
Proof.
  intros E P. unfold has_due. rewrite E. now destruct due.
Qed.

Lemma has_due_inv (t : Task) (due : string) :
  has_due t = Some due -> due_date t = Some due /\ due <> "".
Proof.
  unfold has_due. destruct (due_date t) as [[|c r]|]; try discriminate.
  intros [= <-]. split; [reflexivity|discriminate].
Qed.

(** The parsed due date of the second loop is the date of a stored,
    non-empty, parseable [due_date]. *)
Lemma due_info_date (today : Date.t) (t : Task) (d : Date.t) :
  snd (due_info today t) = Some d <->
  exists due, due_date t = Some due /\ Date.strptime due = Some d.
Proof.
  unfold due_info. split.
  - destruct (has_due t) as [due|] eqn:E; [|discriminate].
    apply has_due_inv in E as [E _].
    destruct (Date.strptime due) as [d'|] eqn:P; [|discriminate].
    simpl. intros [= <-]. now exists due.
  - intros [due [E P]]. rewrite (has_due_some t due d E P), P. reflexivity.
Qed.

Lemma row_tags_overdue (today : Date.t) (t : Task) :
  In "overdue" (row_tags today t) <->
  (exists due d,
     due_date t = Some due /\ Date.strptime due = Some d /\
     Date.ltb d today = true) /\
  completed t = false.
Proof.
  unfold row_tags. destruct (completed t).
  - split.
    + intros [H|H]; [discriminate|contradiction].
    + intros [_ H]. discriminate.
  - assert (P : forall l, In "overdue" l ->
                l = ["high_priority"] \/ l = ["medium_priority"] \/
                l = ["low_priority"] -> False).
    { intros l Hl [-> | [-> | ->]]; destruct Hl as [H|H];
        discriminate || contradiction. }
    rewrite in_app_iff. split.
    + intros [H|H].
      * exfalso. apply (P _ H).
        destruct (priority t =? "High")%string; [now left|].
        destruct (priority t =? "Medium")%string; auto.
      * destruct (snd (due_info today t)) as [d|] eqn:E; [|contradiction].
        destruct (Date.ltb d today) eqn:L; [|contradiction].
        apply due_info_date in E as [due [E1 E2]].
        split; [|reflexivity]. now exists due, d.
    + intros [[due [d [E1 [E2 L]]]] _]. right.
      assert (E : snd (due_info today t) = Some d)
        by (apply due_info_date; now exists due).
      rewrite E, L. now left.
Qed.

Lemma row_tags_shape (today : Date.t) (t : Task) :
  (completed t = true -> row_tags today t = ["completed"]) /\
  (completed t = false ->
   exists p,
     (p = "high_priority" /\ priority t = "High" \/
      p = "medium_priority" /\ priority t = "Medium" \/
      p = "low_priority" /\ priority t <> "High" /\ priority t <> "Medium") /\
     (row_tags today t = [p] \/ row_tags today t = [p; "overdue"])).
Proof.
  unfold row_tags. split; intros ->; [reflexivity|].
  assert (T : forall p : string,
            let l := match snd (due_info today t) with
                     | Some d => if Date.ltb d today then ["overdue"] else []
                     | None => []
                     end in
            [p] ++ l = [p] \/ [p] ++ l = [p; "overdue"]).
  { intros p. destruct (snd (due_info today t)) as [d|]; [|now left].
    destruct (Date.ltb d today); [now right|now left]. }
  destruct (String.eqb_spec (priority t) "High") as [E|N1].
  - exists "high_priority". split; [now left|apply T].
  - destruct (String.eqb_spec (priority t) "Medium") as [E|N2].
    + exists "medium_priority". split; [right; now left|apply T].
    + exists "low_priority". split; [right; right; now repeat split|apply T].
Qed.

(** C4: on every row of the tree the overdue tag is present exactly when
    the task has a due date that parses, lies strictly before the
    reference date, and the task is not completed; a completed task
    carries the tag completed alone; a task that is not completed carries
    one priority tag, followed or not by overdue. *)
Theorem overdue_flag_and_tags (today : Date.t) (tasks : list Task)
  (f s : string) (row : Row) :
  In row (insert_rows today (visible tasks f s)) ->
  exists t,
    In t tasks /\ deleted t = false /\ make_row today t = Some row /\
    (In "overdue" (tags row) <->
     (exists due d,
        due_date t = Some due /\ Date.strptime due = Some d /\
        Date.ltb d today = true) /\
     completed t = false) /\
    (completed t = true -> tags row = ["completed"]) /\
    (completed t = false ->
     exists p,
       In p ["high_priority"; "medium_priority"; "low_priority"] /\
       (tags row = [p] \/ tags row = [p; "overdue"])).
Proof.
  intros H. destruct (tree_row_origin _ _ _ _ _ H) as [t [Hin [Hd [_ E]]]].
  exists t. destruct (make_row_fields _ _ _ E) as [_ ->].
  split; [assumption|]. split; [assumption|]. split; [assumption|].
  split; [apply row_tags_overdue|].
  split; [apply (proj1 (row_tags_shape today t))|].
  intros Hc. destruct (proj2 (row_tags_shape today t) Hc) as [p [Hp Ht]].
  exists p. split; [|exact Ht]. simpl.
  destruct Hp as [[-> _]|[[-> _]|[-> _]]]; auto.
Qed.

Lemma overdue_flag_and_tags_witness :
  exists t,
    In t [sample_B] /\ deleted t = false /\
    make_row today0 t = Some row_B /\
    (In "overdue" (tags row_B) <->
     (exists due d,
        due_date t = Some due /\ Date.strptime due = Some d /\
        Date.ltb d today0 = true) /\
     completed t = false) /\
    (completed t = true -> tags row_B = ["completed"]) /\
    (completed t = false ->
     exists p,
       In p ["high_priority"; "medium_priority"; "low_priority"] /\
       (tags row_B = [p] \/ tags row_B = [p; "overdue"])).
Proof.
  apply (overdue_flag_and_tags today0 [sample_B] "All" "" row_B).
  left. reflexivity.
Defined.

(** C5: on every row of the tree the Days Left column is "N/A" when the
    task has no due date (null or empty), "Invalid date" when the stored
    text does not parse, and otherwise renders
    [(due_date - reference_date).days]: "N day(s)" when it is not negative
    and "|N| day(s) overdue" when it is.  Against the reference date
    2030-01-01 a task due 2000-01-01 shows "10958 day(s) overdue". *)
Theorem days_left_rendering :
  (forall today tasks f s row,
     In row (insert_rows today (visible tasks f s)) ->
     exists t,
       In t tasks /\ make_row today t = Some row /\
       (due_date t = None \/ due_date t = Some "" -> days_left row = "N/A") /\
       (forall due d,
          due_date t = Some due -> Date.strptime due = Some d ->
          let n := Date.sub_days d today in
          (0 <= n -> days_left row = Py.str n +++ " day(s)") /\
          (n < 0 -> days_left row = Py.str (Z.abs n) +++ " day(s) overdue")) /\
       (forall due,
          due_date t = Some due -> due <> "" -> Date.strptime due = None ->
          days_left row = "Invalid date")) /\
  (forall t row,
     due_date t = Some "2000-01-01" ->
     make_row (Date.mk 2030 1 1) t = Some row ->
     days_left row = "10958 day(s) overdue").
Proof.
  split.
  - intros today tasks f s row H.
    destruct (tree_row_origin _ _ _ _ _ H) as [t [Hin [_ [_ E]]]].
    exists t. destruct (make_row_fields _ _ _ E) as [-> _].
    split; [assumption|]. split; [assumption|].
    unfold due_info. split; [|split].
    + unfold has_due. intros [->| ->]; reflexivity.
    + intros due d E1 P. rewrite (has_due_some t due d E1 P), P. simpl.
      split; intros Hn.
      * apply Z.leb_le in Hn. now rewrite Hn.
      * apply Z.leb_gt in Hn. now rewrite Hn.
    + intros due E1 Hne P. unfold has_due. rewrite E1.
      destruct due; [congruence|]. simpl. now rewrite P.
  - intros t row E1 E. destruct (make_row_fields _ _ _ E) as [-> _].
    unfold due_info, has_due. rewrite E1. reflexivity.
Qed.

Lemma days_left_rendering_witness :
  (exists t,
     In t [sample_B] /\ make_row today0 t = Some row_B /\
     (due_date t = None \/ due_date t = Some "" -> days_left row_B = "N/A") /\
     (forall due d,
        due_date t = Some due -> Date.strptime due = Some d ->
        let n := Date.sub_days d today0 in
        (0 <= n -> days_left row_B = Py.str n +++ " day(s)") /\
        (n < 0 -> days_left row_B = Py.str (Z.abs n) +++ " day(s) overdue")) /\
     (forall due,
        due_date t = Some due -> due <> "" -> Date.strptime due = None ->
        days_left row_B = "Invalid date")) /\
  days_left row_B = "10958 day(s) overdue".
Proof.
  split.
  - apply (proj1 days_left_rendering today0 [sample_B] "All" "" row_B).
    left. reflexivity.
  - apply (proj2 days_left_rendering sample_B row_B); reflexivity.
Defined.

(** C10: a task that is neither deleted nor completed and whose priority
    is none of High, Medium, Low is sorted with rank 1, the rank of Medium,
    and its row carries the tag low_priority, not medium_priority. *)
Theorem unknown_priority_rank_and_tag (today : Date.t) (t : Task) :
  deleted t = false ->
  completed t = false ->
  priority t <> "High" -> priority t <> "Medium" -> priority t <> "Low" ->
  sort_key t =
    (false, 1, match has_due t with Some d => d | None => "9999-12-31" end,
     created t) /\
  pri_order (priority t) = pri_order "Medium" /\
  (forall row,
     make_row today t = Some row ->
     (tags row = ["low_priority"] \/ tags row = ["low_priority"; "overdue"]) /\
     ~ In "medium_priority" (tags row)).
Proof.
  intros _ Hc N1 N2 N3.
  assert (R : pri_order (priority t) = 1).
  { unfold pri_order.
    apply String.eqb_neq in N1, N2, N3. now rewrite N1, N2, N3. }
  split; [|split].
  - unfold sort_key. now rewrite Hc, R.
  - rewrite R. reflexivity.
  - intros row E. destruct (make_row_fields _ _ _ E) as [_ ->].
    destruct (proj2 (row_tags_shape today t) Hc) as [p [Hp Ht]].
    destruct Hp as [[_ ?]|[[_ ?]|[-> _]]]; try contradiction.
    split; [exact Ht|].
    destruct Ht as [-> | ->]; simpl; intuition discriminate.
Qed.

Lemma unknown_priority_rank_and_tag_witness :
  sort_key sample_urgent = (false, 1, "9999-12-31", "2024-05-01 09:30") /\
  pri_order "Urgent" = pri_order "Medium" /\
  (forall row,
     make_row today0 sample_urgent = Some row ->
     (tags row = ["low_priority"] \/ tags row = ["low_priority"; "overdue"]) /\
     ~ In "medium_priority" (tags row)).
Proof.
  apply (unknown_priority_rank_and_tag today0 sample_urgent).
  - reflexivity.
  - reflexivity.
  - discriminate.
  - discriminate.
  - discriminate.
Defined.

(** ** [int(str(n))] *)

Lemma rstrip_by_none (p : ascii -> bool) (s : string) :
  every (fun c => negb (p c)) s = true -> Py.rstrip_by p s = s.
Proof.
  induction s as [|c r IH]; simpl; [reflexivity|].
  intros H. apply andb_prop in H as [Hc Hr]. rewrite (IH Hr).
  apply negb_true_iff in Hc. rewrite Hc. now destruct r.
Qed.

Lemma strip_by_none (p : ascii -> bool) (s : string) :
  every (fun c => negb (p c)) s = true -> Py.strip_by p s = s.
Proof.
  intros H. unfold Py.strip_by.
  assert (L : Py.lstrip_by p s = s).
  { destruct s as [|c r]; [reflexivity|]. simpl in *.
    apply andb_prop in H as [Hc _]. apply negb_true_iff in Hc. now rewrite Hc. }
  rewrite L. now apply rstrip_by_none.
Qed.

Lemma every_impl (p q : ascii -> bool) (s : string) :
  (forall c, p c = true -> q c = true) -> every p s = true -> every q s = true.
Proof.
  intros H. induction s as [|c r IH]; simpl; [reflexivity|].
  intros E. apply andb_prop in E as [Hc Hr]. now rewrite (H c Hc), IH.
Qed.

Lemma digit_not_space (c : ascii) :
  Py.isdigit c = true -> negb (Py.c_isspace c) = true.
Proof.
  unfold Py.isdigit, Py.c_isspace. intros H.
  apply andb_prop in H as [H1 H2]. apply N.leb_le in H1, H2.
  apply negb_true_iff, orb_false_iff. split.
  - apply andb_false_iff. right. apply N.leb_gt. lia.
  - apply N.eqb_neq. lia.
Qed.

Lemma string_of_uint_digits (d : Decimal.uint) :
  every Py.isdigit (NilEmpty.string_of_uint d) = true.
Proof. induction d; simpl; auto. Qed.

Lemma digit_groups_digits (s : string) :
  every Py.isdigit s = true -> Py.digit_groups true s = Some s.
Proof.
  induction s as [|c r IH]; simpl; [reflexivity|].
  intros H. apply andb_prop in H as [Hc Hr]. now rewrite Hc, (IH Hr).
Qed.

Lemma int_digits_of_uint (d : Decimal.uint) :
  d <> Decimal.Nil ->
  Py.int_digits (NilEmpty.string_of_uint d) = Some (Z.of_uint d).
Proof.
  intros Hd. unfold Py.int_digits.
  pose proof (string_of_uint_digits d) as D.
  assert (G : Py.digit_groups false (NilEmpty.string_of_uint d) =
              Some (NilEmpty.string_of_uint d)).
  { destruct (NilEmpty.string_of_uint d) as [|c r] eqn:E.
    - destruct d; simpl in E; congruence.
    - simpl in *. apply andb_prop in D as [Hc Hr].
      now rewrite Hc, (digit_groups_digits r Hr). }
  rewrite G, NilEmpty.usu. reflexivity.
Qed.

Lemma head_digit_of_uint (d : Decimal.uint) :
  d <> Decimal.Nil ->
  exists c r, NilEmpty.string_of_uint d = String c r /\ Py.isdigit c = true.
Proof.
  intros Hd. pose proof (string_of_uint_digits d) as D.
  destruct (NilEmpty.string_of_uint d) as [|c r] eqn:E.
  - destruct d; simpl in E; congruence.
  - simpl in D. apply andb_prop in D as [Hc _]. now exists c, r.
Qed.

Lemma int_of_digits (d : Decimal.uint) :
  d <> Decimal.Nil ->
  Py.int (NilEmpty.string_of_uint d) = Some (Z.of_uint d).
Proof.
  intros Hd. unfold Py.int.
  rewrite strip_by_none
    by (eapply every_impl; [apply digit_not_space|apply string_of_uint_digits]).
  rewrite <- (int_digits_of_uint d Hd).
  destruct (head_digit_of_uint d Hd) as [c [r [E Hc]]]. rewrite E.
  destruct c as [[] [] [] [] [] [] [] []]; try reflexivity; discriminate Hc.
Qed.

Lemma int_of_minus_digits (d : Decimal.uint) :
  d <> Decimal.Nil ->
  Py.int (String "-" (NilEmpty.string_of_uint d)) = Some (- Z.of_uint d).
Proof.
  intros Hd. unfold Py.int.
  rewrite strip_by_none.
  - now rewrite (int_digits_of_uint d Hd).
  - simpl. eapply every_impl; [apply digit_not_space|apply string_of_uint_digits].
Qed.

Lemma nilzero_string_of_uint (d : Decimal.uint) :
  d <> Decimal.Nil -> NilZero.string_of_uint d = NilEmpty.string_of_uint d.
Proof. now destruct d. Qed.

Lemma of_uint_to_uint (p : positive) : Z.of_uint (Pos.to_uint p) = Z.pos p.
Proof. unfold Z.of_uint. now rewrite DecimalPos.Unsigned.of_to. Qed.

(** [int(str(n)) == n] *)
Lemma int_str (n : Z) : Py.int (Py.str n) = Some n.
Proof.
  unfold Py.str. destruct n as [|p|p]; simpl.
  - reflexivity.
  - rewrite nilzero_string_of_uint by apply DecimalPos.Unsigned.to_uint_nonnil.
    rewrite int_of_digits by apply DecimalPos.Unsigned.to_uint_nonnil.
    now rewrite of_uint_to_uint.
  - rewrite nilzero_string_of_uint by apply DecimalPos.Unsigned.to_uint_nonnil.
    rewrite int_of_minus_digits by apply DecimalPos.Unsigned.to_uint_nonnil.
    now rewrite of_uint_to_uint.
Qed.

(** ** What the handlers do to the task list *)

Lemma same_identity_refl (t : Task) : same_identity t t.
Proof. now repeat split. Qed.

Lemma same_identity_trans (a b c : Task) :
  same_identity a b -> same_identity b c -> same_identity a c.
Proof.
  intros [I1 [C1 D1]] [I2 [C2 D2]]. repeat split; try congruence. auto.
Qed.

Lemma Forall2_same_refl (l : list Task) : Forall2 same_identity l l.
Proof. induction l; constructor; auto using same_identity_refl. Qed.

Lemma Forall2_same_trans (a b c : list Task) :
  Forall2 same_identity a b -> Forall2 same_identity b c ->
  Forall2 same_identity a c.
Proof.
  intros H. revert c. induction H as [|x y l l' Hxy H IH]; intros c Hc;
    inversion Hc; subst; constructor; eauto using same_identity_trans.
Qed.

Lemma Forall2_same_ids (a b : list Task) :
  Forall2 same_identity a b -> map id b = map id a.
Proof.
  induction 1 as [|x y l l' [I _] H IH]; simpl; [reflexivity|].
  now rewrite I, IH.
Qed.

Lemma Forall2_same_created (a b : list Task) :
  Forall2 same_identity a b -> map created b = map created a.
Proof.
  induction 1 as [|x y l l' [_ [C _]] H IH]; simpl; [reflexivity|].
  now rewrite C, IH.
Qed.

Lemma modify_same (i : nat) (g : Task -> Task) (l : list Task) :
  (forall t, same_identity t (g t)) -> Forall2 same_identity l (modify i g l).
Proof.
  intros Hg. revert i. induction l as [|t r IH]; intros i; simpl.
  - destruct i; constructor.
  - destruct i; constructor; auto using same_identity_refl, Forall2_same_refl.
Qed.

Lemma map_same (g : Task -> Task) (l : list Task) :
  (forall t, same_identity t (g t)) -> Forall2 same_identity l (map g l).
Proof. intros Hg. induction l; simpl; constructor; auto. Qed.

Lemma modify_nth (i : nat) (g : Task -> Task) (l : list Task) (t : Task) :
  nth_error l i = Some t -> nth_error (modify i g l) i = Some (g t).
Proof.
  revert i. induction l as [|x r IH]; intros [|i]; simpl; try discriminate.
  - now intros [= ->].
  - apply IH.
Qed.

Lemma frame_refl (ts : list Task) : frame ts ts.
Proof.
  exists ts, []. rewrite app_nil_r.
  split; [reflexivity|]. split; [apply Forall2_same_refl|now left].
Qed.

Lemma frame_kept (ts ts' : list Task) :
  Forall2 same_identity ts ts' -> frame ts ts'.
Proof.
  intros H. exists ts', []. rewrite app_nil_r.
  split; [reflexivity|]. split; [assumption|now left].
Qed.

Lemma tasks_commit (today : Date.t) (app : App) (ts : list Task) :
  tasks (fst (commit today app ts)) = ts.
Proof. unfold commit. now destruct (save_tasks ts (disk app)). Qed.

Lemma add_task_frame tk today now e p d (app : App) :
  frame (tasks app) (tasks (fst (add_task tk today now e p d app))).
Proof.
  unfold add_task.
  destruct (negb (Py.nonempty (Py.strip e))); [apply frame_refl|].
  destruct (add_due tk d) as [due|]; [|apply frame_refl].
  rewrite tasks_commit. eexists (tasks app), [_].
  split; [reflexivity|]. split; [apply Forall2_same_refl|].
  right. eexists. split; reflexivity.
Qed.

Lemma save_tasks_of tk today k e p d (app : App) :
  tasks (fst (save tk today k e p d app)) = tasks app \/
  exists i due,
    nth_error (dialogs app) k = Some i /\
    Py.nonempty (Py.strip e) = true /\ edit_due tk d = Some due /\
    tasks (fst (save tk today k e p d app)) =
    modify i (set_edited (Py.strip e) p due) (tasks app).
Proof.
  unfold save. destruct (nth_error (dialogs app) k) as [i|]; [|now left].
  destruct (Py.nonempty (Py.strip e)) eqn:He; simpl; [|now left].
  destruct (edit_due tk d) as [due|] eqn:Ed; [|now left].
  right. exists i, due. repeat split.
  pose proof (tasks_commit today app
                (modify i (set_edited (Py.strip e) p due) (tasks app))) as T.
  destruct (commit today app _) as [app' msgs]. simpl in *. exact T.
Qed.

Lemma save_frame tk today k e p d (app : App) :
  frame (tasks app) (tasks (fst (save tk today k e p d app))).
Proof.
  destruct (save_tasks_of tk today k e p d app) as [->|[i [due [_ [_ [_ ->]]]]]].
  - apply frame_refl.
  - apply frame_kept, modify_same. intros t. now repeat split.
Qed.

Lemma step_frame tk today (a : Action) (app : App) :
  frame (tasks app) (tasks (fst (step tk today a app))).
Proof.
  destruct a; simpl; try apply frame_refl.
  - apply add_task_frame.
  - unfold toggle_complete.
    destruct (get_selected_task _ _) as [[i|] msgs]; [|apply frame_refl].
    rewrite tasks_commit. apply frame_kept, modify_same.
    intros t. now repeat split.
  - unfold edit_task.
    destruct (get_selected_task _ _) as [[i|] msgs]; apply frame_refl.
  - apply save_frame.
  - unfold delete_task.
    destruct (get_selected_task _ _) as [[i|] msgs]; [|apply frame_refl].
    destruct confirm; [|apply frame_refl].
    rewrite tasks_commit. apply frame_kept, modify_same.
    intros t. now repeat split.
  - unfold clear_completed.
    destruct (filter is_comp (tasks app)); [apply frame_refl|].
    destruct confirm; [|apply frame_refl].
    rewrite tasks_commit. apply frame_kept, map_same.
    intros u. destruct (is_comp u); now repeat split.
Qed.

(** C8: the Save button of an Edit dialog leaves the id and the creation
    stamp of every stored record as they were; when it succeeds, the
    edited record is the old one with the new text, priority and due
    date. *)
Theorem edit_keeps_id_and_created tk today k e_task pvar d_entry (app : App) :
  map id (tasks (fst (save tk today k e_task pvar d_entry app))) =
    map id (tasks app) /\
  map created (tasks (fst (save tk today k e_task pvar d_entry app))) =
    map created (tasks app) /\
  (forall i t new_due,
     nth_error (dialogs app) k = Some i ->
     nth_error (tasks app) i = Some t ->
     whitespace_only e_task = false ->
     edit_due tk d_entry = Some new_due ->
     exists t',
       nth_error (tasks (fst (save tk today k e_task pvar d_entry app))) i =
         Some t' /\
       t' = set_edited (Py.strip e_task) pvar new_due t /\
       id t' = id t /\ created t' = created t).
Proof.
  assert (F : Forall2 same_identity (tasks app)
                (tasks (fst (save tk today k e_task pvar d_entry app)))).
  { destruct (save_tasks_of tk today k e_task pvar d_entry app)
      as [->|[i [due [_ [_ [_ ->]]]]]].
    - apply Forall2_same_refl.
    - apply modify_same. intros t. now repeat split. }
  split; [now apply Forall2_same_ids|].
  split; [now apply Forall2_same_created|].
  intros i t new_due Hk Ht Hw Hd.
  exists (set_edited (Py.strip e_task) pvar new_due t).
  split; [|now repeat split].
  unfold save. rewrite Hk, (strip_nonempty _ Hw), Hd. simpl.
  pose proof (tasks_commit today app
    (modify i (set_edited (Py.strip e_task) pvar new_due) (tasks app))) as T.
  destruct (commit today app _) as [app' msgs]. simpl in *.
  rewrite T. now apply modify_nth.
Qed.

Lemma edit_keeps_id_and_created_witness :
  exists t',
    nth_error
      (tasks (fst (save true today0 0 " Buy oat milk " "Low" "2024-6-1"
                     (with_dialogs (start [sample "1" false]) [0%nat])))) 0 =
      Some t' /\
    t' = set_edited (Py.strip " Buy oat milk ") "Low" (Some "2024-06-01")
           (sample "1" false) /\
    id t' = id (sample "1" false) /\
    created t' = created (sample "1" false).
Proof.
  apply (proj2 (proj2 (edit_keeps_id_and_created true today0 0
                         " Buy oat milk " "Low" "2024-6-1"
                         (with_dialogs (start [sample "1" false]) [0%nat])))
           0%nat (sample "1" false) (Some "2024-06-01"));
    reflexivity.
Defined.

(** ** Sessions *)

Lemma Forall2_in_l {A B} (R : A -> B -> Prop) (l : list A) (l' : list B) x :
  Forall2 R l l' -> In x l -> exists y, In y l' /\ R x y.
Proof.
  induction 1 as [|a b l l' Hab H IH]; intros Hin; [contradiction|].
  destruct Hin as [->|Hin].
  - exists b. split; [now left|assumption].
  - destruct (IH Hin) as [y [Hy Rxy]]. exists y. split; [now right|assumption].
Qed.

Lemma Forall2_in_r {A B} (R : A -> B -> Prop) (l : list A) (l' : list B) y :
  Forall2 R l l' -> In y l' -> exists x, In x l /\ R x y.
Proof.
  induction 1 as [|a b l l' Hab H IH]; intros Hin; [contradiction|].
  destruct Hin as [->|Hin].
  - exists a. split; [now left|assumption].
  - destruct (IH Hin) as [x [Hx Rxy]]. exists x. split; [now right|assumption].
Qed.

Lemma Forall2_same_numeric (a b : list Task) :
  Forall2 same_identity a b -> Forall numeric a -> Forall numeric b.
Proof.
  induction 1 as [|x y l l' [I _] H IH]; intros F; [constructor|].
  inversion F; subst. constructor; [|auto].
  unfold numeric in *. now rewrite I.
Qed.

Lemma next_id_above (ts : list Task) (t : Task) (n : Z) :
  Forall numeric ts -> In t ts -> Py.int (id t) = Some n -> n < next_id ts.
Proof.
  intros F Hin E.
  destruct (next_id_numeric ts) as [m [-> [_ Hm]]].
  - intros ->. contradiction.
  - intros u Hu. rewrite Forall_forall in F. specialize (F u Hu).
    unfold numeric in F. destruct (Py.int (id u)) as [k|]; [now exists k|congruence].
  - specialize (Hm t n Hin E). lia.
Qed.

Lemma extends_refl (ts : list Task) : extends ts ts.
Proof.
  exists ts, []. rewrite app_nil_r.
  split; [reflexivity|]. split; [apply Forall2_same_refl|].
  intros F. split; [assumption|]. intros u t n m [].
Qed.

Lemma extends_frame (ts0 ts ts' : list Task) :
  extends ts0 ts -> frame ts ts' -> extends ts0 ts'.
Proof.
  intros [kept [added [-> [K N]]]] [kept' [added' [-> [K' A']]]].
  apply Forall2_app_inv_l in K' as [k1 [a1 [K1 [A1 ->]]]].
  exists k1, (a1 ++ added'). rewrite app_assoc.
  split; [reflexivity|]. split; [eapply Forall2_same_trans; eassumption|].
  intros F0. destruct (N F0) as [F Fresh].
  assert (F1 : Forall numeric (k1 ++ a1)).
  { eapply Forall2_same_numeric; [|exact F]. now apply Forall2_app. }
  split.
  - apply Forall_app. split; [assumption|].
    destruct A' as [->|[a [-> Ia]]]; constructor; [|constructor].
    unfold numeric. rewrite Ia, int_str. discriminate.
  - intros u t n m Hu Ht En Em. apply in_app_iff in Hu as [Hu|Hu].
    + destruct (Forall2_in_r _ _ _ _ A1 Hu) as [u0 [Hu0 [I _]]].
      apply (Fresh u0 t n m); try assumption. now rewrite <- I.
    + destruct A' as [->|[a [-> Ia]]]; [contradiction|].
      destruct Hu as [<-|[]]. rewrite Ia, int_str in Em. injection Em as <-.
      destruct (Forall2_in_l _ _ _ _ K Ht) as [t' [Ht' [I _]]].
      apply (next_id_above _ t'); [assumption|apply in_app_iff; now left|].
      now rewrite I.
Qed.

Lemma run_extends tk (acts : list (Date.t * Action)) (app : App) :
  extends (tasks app) (tasks (run tk acts app)).
Proof.
  assert (G : forall ts0, extends ts0 (tasks app) ->
                extends ts0 (tasks (run tk acts app))).
  { revert app. induction acts as [|[today a] r IH]; intros app ts0 H; simpl.
    - assumption.
    - apply IH. eapply extends_frame; [exact H|apply step_frame]. }
  apply G, extends_refl.
Qed.

Lemma visible_not_deleted (ts : list Task) (f s : string) (u : Task) :
  In u (visible ts f s) -> deleted u = false.
Proof.
  intros H. apply visible_in in H as [_ H]. eapply keep_not_deleted; eassumption.
Qed.

(** The selection is resolved to a stored record that carries the selected
    id and is not deleted. *)
Lemma find_task_sound (ts : list Task) (task_id : string) (i : nat) :
  find_task ts task_id = Some i ->
  exists t, nth_error ts i = Some t /\ id t = task_id /\ deleted t = false.
Proof.
  revert i. induction ts as [|x r IH]; intros i; simpl; [discriminate|].
  destruct ((id x =? task_id)%string && negb (deleted x)) eqn:E.
  - intros [= <-]. apply andb_prop in E as [E1 E2].
    apply String.eqb_eq in E1. apply negb_true_iff in E2. now exists x.
  - destruct (find_task r task_id) as [j|]; [|discriminate].
    intros [= <-]. apply (IH j eq_refl).
Qed.

Lemma get_selected_task_sound (ts : list Task) (sel : option string)
  (i : nat) (msgs : list Message) :
  get_selected_task ts sel = (Some i, msgs) ->
  exists t task_id,
    sel = Some task_id /\ nth_error ts i = Some t /\ id t = task_id /\
    deleted t = false.
Proof.
  unfold get_selected_task. destruct sel as [task_id|]; [|discriminate].
  intros [= E _]. destruct (find_task_sound _ _ _ E) as [t H].
  now exists t, task_id.
Qed.

Lemma nth_error_kept {A} (kept added : list A) (i : nat) (x : A) :
  nth_error kept i = Some x -> nth_error (kept ++ added) i = Some x.
Proof.
  intros H. rewrite nth_error_app1; [assumption|].
  apply nth_error_Some. congruence.
Qed.

Lemma Forall2_nth {A B} (R : A -> B -> Prop) (l : list A) (l' : list B) i x :
  Forall2 R l l' -> nth_error l i = Some x ->
  exists y, nth_error l' i = Some y /\ R x y.
Proof.
  intros H. revert i. induction H as [|a b l l' Hab H IH]; intros [|i]; simpl;
    try discriminate.
  - intros [= <-]. now exists b.
  - apply IH.
Qed.

Lemma modify_other (i j : nat) (g : Task -> Task) (l : list Task) :
  i <> j -> nth_error (modify j g l) i = nth_error l i.
Proof.
  revert i j. induction l as [|x r IH]; intros [|i] [|j] H; cbn;
    try reflexivity; try congruence.
  apply IH. congruence.
Qed.

(** A record that is deleted is not the one a handler resolves, so the
    handler leaves it as it is. *)
Lemma modify_spares (ts : list Task) (sel : option string) (j : nat)
  (msgs : list Message) (g : Task -> Task) (i : nat) (t : Task) :
  get_selected_task ts sel = (Some j, msgs) ->
  nth_error ts i = Some t -> deleted t = true ->
  nth_error (modify j g ts) i = Some t.
Proof.
  intros Hsel Ht Hd.
  destruct (get_selected_task_sound _ _ _ _ Hsel) as [u [_ [_ [Hu [_ Du]]]]].
  rewrite modify_other; [assumption|]. intros ->. congruence.
Qed.

(** Apart from the Save of a dialog whose record was deleted in the
    meantime, no user action changes a deleted record. *)
Lemma step_spares_deleted tk today (a : Action) (app : App) (i : nat)
  (t : Task) :
  ~ stale_save app a ->
  nth_error (tasks app) i = Some t -> deleted t = true ->
  nth_error (tasks (fst (step tk today a app))) i = Some t.
Proof.
  intros Hs Ht Hd. destruct a; cbn [step fst]; try assumption.
  - unfold add_task.
    destruct (negb (Py.nonempty (Py.strip task_entry))); [assumption|].
    destruct (add_due tk due_widget); [|assumption].
    rewrite tasks_commit. now apply nth_error_kept.
  - unfold toggle_complete.
    destruct (get_selected_task _ _) as [[j|] msgs] eqn:E; [|assumption].
    rewrite tasks_commit. eapply modify_spares; eassumption.
  - unfold edit_task.
    destruct (get_selected_task _ _) as [[j|] msgs]; assumption.
  - destruct (save_tasks_of tk today k e_task pvar d_entry app)
      as [->|[j [due [Hk [_ [_ ->]]]]]]; [assumption|].
    destruct (Nat.eq_dec i j) as [->|N]; [|now rewrite modify_other].
    exfalso. apply Hs. cbn. now exists j, t.
  - unfold delete_task.
    destruct (get_selected_task _ _) as [[j|] msgs] eqn:E; [|assumption].
    destruct confirm; [|assumption].
    rewrite tasks_commit. eapply modify_spares; eassumption.
  - unfold clear_completed.
    destruct (filter is_comp (tasks app)); [assumption|].
    destruct confirm; [|assumption].
    rewrite tasks_commit, nth_error_map, Ht. cbn.
    unfold is_comp. rewrite Hd, andb_false_r. reflexivity.
Qed.




(** C9: the lookup of the selection never returns a deleted record, but a
    record is changed after its soft deletion all the same.  With the Edit
    dialog of a task open, the Delete key, confirmed, soft-deletes the
    task; the Save button of the dialog then rewrites the text, priority
    and due date of the deleted record. *)
Theorem stale_dialog_edits_deleted_record :
  tasks (run true (firstn 3 stale_dialog_session) (start [sample "1" false])) =
    [sample "1" true] /\
  dialogs (run true (firstn 3 stale_dialog_session) (start [sample "1" false])) =
    [0%nat] /\
  tasks (run true stale_dialog_session (start [sample "1" false])) =
    [ {| id := "1"; text := "Buy oat milk"; priority := "Low";
         due_date := None; completed := false;
         created := "2024-05-01 09:30"; deleted := true |} ].
Proof. repeat split; reflexivity. Qed.

(** ** Reading back what the encoder writes *)

Lemma append_assoc (a b c : string) : (a +++ b) +++ c = a +++ (b +++ c).
Proof. induction a as [|x a IH]; simpl; [reflexivity|now rewrite IH]. Qed.

Lemma length_append (a b : string) :
  String.length (a +++ b) = (String.length a + String.length b)%nat.
Proof. induction a as [|x a IH]; simpl; [reflexivity|now rewrite IH]. Qed.

(** One escaped character, then the rest of the string. *)
Lemma scanstring_escape_char (c : ascii) (r : string) (t rest : string) :
  Json.scanstring r = Some (t, rest) ->
  Json.scanstring (Json.escape_char c +++ r) = Some (String c t, rest).
Proof.
  intros H.
  destruct c as [[] [] [] [] [] [] [] []]; cbn; rewrite ?H; try reflexivity.
Qed.

Lemma scanstring_escape (s rest : string) :
  Json.scanstring (Json.escape s +++ String Json.quote rest) = Some (s, rest).
Proof.
  induction s as [|c r IH]; [reflexivity|].
  cbn [Json.escape]. rewrite append_assoc.
  now apply scanstring_escape_char.
Qed.

Lemma encode_string_append (s rest : string) :
  Json.encode_string s +++ rest =
  String Json.quote (Json.escape s +++ String Json.quote rest).
Proof. unfold Json.encode_string. cbn. now rewrite append_assoc. Qed.

Lemma skip_ws_head (c : ascii) (r : string) :
  Json.is_ws c = false -> Json.skip_ws (String c r) = String c r.
Proof. intros H. cbn. now rewrite H. Qed.

Lemma skip_ws_spaces (n : nat) (s : string) :
  Json.skip_ws (Json.spaces n +++ s) = Json.skip_ws s.
Proof. induction n as [|n IH]; [reflexivity|exact IH]. Qed.

Lemma skip_ws_newline_indent (level : nat) (s : string) :
  Json.skip_ws (Json.newline_indent level +++ s) = Json.skip_ws s.
Proof. unfold Json.newline_indent. cbn. apply skip_ws_spaces. Qed.

(** A strong induction principle for values: the items of a list and the
    values of a dict satisfy the property. *)
Lemma value_ind' (P : Json.value -> Prop) :
  P Json.Null ->
  (forall b, P (Json.Bool b)) ->
  (forall n, P (Json.Int n)) ->
  (forall s, P (Json.Str s)) ->
  (forall l, Forall P l -> P (Json.Arr l)) ->
  (forall l, Forall (fun kv => P (snd kv)) l -> P (Json.Obj l)) ->
  forall v, P v.
Proof.
  intros HN HB HI HS HA HO. fix IH 1. intros [| b | n | s | l | l].
  - exact HN.
  - apply HB.
  - apply HI.
  - apply HS.
  - apply HA. induction l as [|x r IHl]; constructor; [apply IH|exact IHl].
  - apply HO. induction l as [|[k x] r IHl]; constructor; [apply IH|exact IHl].
Qed.

Lemma head_digit_opens (d : Decimal.uint) (rest : string) :
  d <> Decimal.Nil -> opens_value (NilEmpty.string_of_uint d +++ rest).
Proof.
  intros Hd. destruct (head_digit_of_uint d Hd) as [c [r [E Hc]]].
  rewrite E. exists c, (r +++ rest). split; [reflexivity|].
  destruct c as [[] [] [] [] [] [] [] []]; try discriminate Hc; now split.
Qed.

Lemma encode_opens (level : nat) (v : Json.value) (rest : string) :
  opens_value (Json.encode level v +++ rest).
Proof.
  destruct v as [| [] | n | s | [|x xs] | [|[k x] xs]]; cbn;
    try (eexists _, _; split; [reflexivity|now split]).
  unfold Py.str. destruct n as [|p|p]; cbn.
  - eexists _, _; split; [reflexivity|now split].
  - rewrite nilzero_string_of_uint by apply DecimalPos.Unsigned.to_uint_nonnil.
    apply head_digit_opens, DecimalPos.Unsigned.to_uint_nonnil.
  - eexists _, _; split; [reflexivity|now split].
Qed.

Lemma elements_eq (f : nat) (s : string) :
  Json.elements (S f) s =
  match Json.scan_once f s with
  | None => None
  | Some (v, r) =>
      match Json.skip_ws r with
      | String c r1 =>
          if Ascii.eqb c "]" then Some ([v], r1)
          else if Ascii.eqb c "," then
            match Json.elements f (Json.skip_ws r1) with
            | Some (vs, rest) => Some (v :: vs, rest)
            | None => None
            end
          else None
      | EmptyString => None
      end
  end.
Proof. reflexivity. Qed.

Lemma ends_number_empty : ends_number "".
Proof. now split. Qed.

Lemma ends_number_bracket (rest : string) : ends_number (String "]" rest).
Proof. now split. Qed.

Lemma ends_number_brace (rest : string) : ends_number (String "}" rest).
Proof. now split. Qed.

Lemma ends_number_newline_indent (level : nat) (rest : string) :
  ends_number (Json.newline_indent level +++ rest).
Proof. now split. Qed.

Lemma ends_number_items (level lvl0 : nat) (xs : list Json.value)
  (rest : string) :
  ends_number
    (encode_items level xs +++ Json.newline_indent lvl0 +++ String "]" rest).
Proof. destruct xs; now split. Qed.

Lemma ends_number_members (level lvl0 : nat)
  (xs : list (string * Json.value)) (rest : string) :
  ends_number
    (encode_members level xs +++ Json.newline_indent lvl0 +++ String "}" rest).
Proof. destruct xs as [|[k x] xs]; now split. Qed.

Lemma skip_ws_encode (level : nat) (v : Json.value) (rest : string) :
  Json.skip_ws (Json.encode level v +++ rest) = Json.encode level v +++ rest.
Proof.
  destruct (encode_opens level v rest) as [c [r [E [W _]]]].
  rewrite E. now apply skip_ws_head.
Qed.

Lemma elements_reads_back (xs : list Json.value) :
  Forall reads_back xs ->
  forall x level lvl0 fuel rest,
    reads_back x ->
    (need_items (x :: xs) <= fuel)%nat ->
    Json.elements fuel
      (Json.encode level x +++ encode_items level xs +++
       Json.newline_indent lvl0 +++ String "]" rest) =
    Some (x :: xs, rest).
Proof.
  induction 1 as [|y ys Hy Hys IH]; intros x level lvl0 fuel rest Hx Hf;
    (destruct fuel as [|f]; [cbn in Hf; lia|]); rewrite elements_eq.
  - rewrite Hx; [|cbn in Hf; lia|apply ends_number_items].
    cbn [encode_items]. cbn [String.append].
    rewrite skip_ws_newline_indent. reflexivity.
  - rewrite Hx; [|cbn in Hf; lia|apply ends_number_items].
    cbn [encode_items]. rewrite !append_assoc. cbn [String.append].
    rewrite skip_ws_head by reflexivity. cbn [Ascii.eqb Bool.eqb].
    rewrite skip_ws_newline_indent, skip_ws_encode.
    rewrite IH; [reflexivity|assumption|]. cbn in Hf |- *. lia.
Qed.

Lemma members_eq (f : nat) (s : string) :
  Json.members (S f) s =
  match Json.scanstring s with
  | None => None
  | Some (k, r) =>
      match Json.skip_ws r with
      | String ":" r1 =>
          match Json.scan_once f (Json.skip_ws r1) with
          | None => None
          | Some (v, r2) =>
              match Json.skip_ws r2 with
              | String c r3 =>
                  if Ascii.eqb c "}" then Some ([(k, v)], r3)
                  else if Ascii.eqb c "," then
                    match Json.skip_ws r3 with
                    | String q r4 =>
                        if Ascii.eqb q Json.quote then
                          match Json.members f r4 with
                          | Some (kvs, rest) => Some ((k, v) :: kvs, rest)
                          | None => None
                          end
                        else None
                    | EmptyString => None
                    end
                  else None
              | EmptyString => None
              end
          end
      | _ => None
      end
  end.
Proof. reflexivity. Qed.

Lemma members_reads_back (xs : list (string * Json.value)) :
  Forall (fun kv => reads_back (snd kv)) xs ->
  forall k x level lvl0 fuel rest,
    reads_back x ->
    (need_members ((k, x) :: xs) <= fuel)%nat ->
    Json.members fuel
      (Json.escape k +++
       String Json.quote
         (String ":" (String " "
            (Json.encode level x +++ encode_members level xs +++
             Json.newline_indent lvl0 +++ String "}" rest)))) =
    Some ((k, x) :: xs, rest).
Proof.
  induction 1 as [|[k' y] ys Hy Hys IH]; intros k x level lvl0 fuel rest Hx Hf;
    (destruct fuel as [|f]; [cbn in Hf; lia|]); rewrite members_eq;
    rewrite scanstring_escape; rewrite skip_ws_head by reflexivity;
    cbn [Json.skip_ws Json.is_ws Ascii.eqb Bool.eqb orb];
    rewrite skip_ws_encode.
  - rewrite Hx; [|cbn in Hf; lia|apply ends_number_members].
    cbn [encode_members]. cbn [String.append].
    rewrite skip_ws_newline_indent. reflexivity.
  - rewrite Hx; [|cbn in Hf; lia|apply ends_number_members].
    cbn [encode_members]. rewrite !append_assoc. cbn [String.append].
    rewrite skip_ws_head by reflexivity. cbn [Ascii.eqb Bool.eqb].
    rewrite skip_ws_newline_indent, encode_string_append.
    rewrite skip_ws_head by reflexivity.
    change (Ascii.eqb Json.quote Json.quote) with true. cbv iota.
    rewrite IH; [reflexivity|assumption|]. cbn in Hf |- *. lia.
Qed.

Lemma wf_arr (l : list Json.value) : wf (Json.Arr l) -> Forall wf l.
Proof.
  cbn. induction l as [|x r IH]; intros H; constructor; [apply H|apply IH, H].
Qed.

Lemma wf_obj (l : list (string * Json.value)) :
  wf (Json.Obj l) ->
  NoDup (map fst l) /\ Forall (fun kv => wf (snd kv)) l.
Proof.
  cbn. intros [N H]. split; [exact N|]. clear N.
  induction l as [|[k x] r IH]; constructor; [apply H|apply IH, H].
Qed.

Lemma dict_set_fresh (d : list (string * Json.value)) (k : string)
  (v : Json.value) :
  ~ In k (map fst d) -> Json.dict_set d k v = d ++ [(k, v)].
Proof.
  induction d as [|[k' v'] r IH]; cbn; [reflexivity|].
  intros H. destruct (String.eqb_spec k' k) as [->|N].
  - exfalso. apply H. now left.
  - rewrite IH; [reflexivity|]. intros Hin. apply H. now right.
Qed.

Lemma dict_of_pairs_nodup (l : list (string * Json.value)) :
  NoDup (map fst l) -> Json.dict_of_pairs l = l.
Proof.
  unfold Json.dict_of_pairs.
  assert (G : forall d,
            NoDup (map fst (d ++ l)) ->
            fold_left (fun d kv => Json.dict_set d (fst kv) (snd kv)) l d =
            d ++ l).
  { induction l as [|[k v] r IH]; intros d N; cbn.
    - now rewrite app_nil_r.
    - rewrite dict_set_fresh.
      + rewrite IH; rewrite <- app_assoc; [reflexivity|exact N].
      + rewrite map_app in N. cbn in N. apply NoDup_remove_2 in N.
        intros Hin. apply N. apply in_app_iff. now left. }
  intros N. apply (G [] N).
Qed.

Lemma scan_once_arr (f : nat) (r : string) :
  Json.scan_once (S f) (String "[" r) =
  match Json.skip_ws r with
  | String c1 r1 =>
      if Ascii.eqb c1 "]" then Some (Json.Arr [], r1)
      else
        match Json.elements f (String c1 r1) with
        | Some (vs, rest) => Some (Json.Arr vs, rest)
        | None => None
        end
  | EmptyString => None
  end.
Proof. reflexivity. Qed.

Lemma scan_once_obj (f : nat) (r : string) :
  Json.scan_once (S f) (String "{" r) =
  match Json.skip_ws r with
  | String c1 r1 =>
      if Ascii.eqb c1 "}" then Some (Json.Obj [], r1)
      else if Ascii.eqb c1 Json.quote then
        match Json.members f r1 with
        | Some (pairs, rest) => Some (Json.Obj (Json.dict_of_pairs pairs), rest)
        | None => None
        end
      else None
  | EmptyString => None
  end.
Proof. reflexivity. Qed.

Lemma scan_once_str (f : nat) (r : string) :
  Json.scan_once (S f) (String Json.quote r) =
  match Json.scanstring r with
  | Some (t, rest) => Some (Json.Str t, rest)
  | None => None
  end.
Proof. reflexivity. Qed.

Lemma nzhead_no_zero (d : Decimal.uint) :
  match Decimal.nzhead d with
  | Decimal.D0 _ => False
  | _ => True
  end.
Proof. induction d; cbn; auto. Qed.

Lemma to_uint_unorm (p : positive) :
  Pos.to_uint p = Decimal.unorm (Pos.to_uint p).
Proof.
  rewrite <- (DecimalPos.Unsigned.to_of (Pos.to_uint p)).
  now rewrite DecimalPos.Unsigned.of_to.
Qed.

(** The decimal text of a positive number starts with a digit that is not
    zero. *)
Lemma to_uint_head (p : positive) :
  exists c r,
    NilEmpty.string_of_uint (Pos.to_uint p) = String c r /\
    Py.isdigit c = true /\ Ascii.eqb c "0" = false.
Proof.
  pose proof (nzhead_no_zero (Pos.to_uint p)) as Z.
  pose proof (to_uint_unorm p) as U. unfold Decimal.unorm in U.
  pose proof (DecimalPos.Unsigned.to_uint_nonzero p) as NZ.
  destruct (Decimal.nzhead (Pos.to_uint p)) eqn:E; try contradiction;
    try (exfalso; apply NZ; exact U);
    rewrite U; cbn; eexists _, _; (split; [reflexivity|now split]).
Qed.

Lemma span_digits_append (ds rest : string) :
  every Py.isdigit ds = true ->
  match rest with
  | String c _ => Py.isdigit c = false
  | EmptyString => True
  end ->
  Json.span_digits (ds +++ rest) = (ds, rest).
Proof.
  intros D R. induction ds as [|c r IH]; cbn.
  - destruct rest as [|c r]; [reflexivity|]. cbn. now rewrite R.
  - cbn in D. apply andb_prop in D as [Dc Dr]. now rewrite Dc, (IH Dr).
Qed.

Lemma int_part_digits (p : positive) (rest : string) :
  ends_number rest ->
  Json.int_part (NilEmpty.string_of_uint (Pos.to_uint p) +++ rest) =
  Some (NilEmpty.string_of_uint (Pos.to_uint p), rest).
Proof.
  intros [_ R]. destruct (to_uint_head p) as [c [r [E [D Z]]]].
  pose proof (string_of_uint_digits (Pos.to_uint p)) as A.
  rewrite <- (span_digits_append _ rest A R).
  rewrite E. cbn [String.append Json.int_part]. now rewrite Z, D.
Qed.

Lemma scan_number_unsigned (p : positive) (rest : string) :
  ends_number rest ->
  Json.scan_number (NilEmpty.string_of_uint (Pos.to_uint p) +++ rest) =
  Some (Json.Int (Z.pos p), rest).
Proof.
  intros He. unfold Json.scan_number.
  assert (B : match NilEmpty.string_of_uint (Pos.to_uint p) +++ rest with
              | String "-" r => (true, r)
              | _ => (false, NilEmpty.string_of_uint (Pos.to_uint p) +++ rest)
              end = (false, NilEmpty.string_of_uint (Pos.to_uint p) +++ rest)).
  { destruct (to_uint_head p) as [c [r [E [D _]]]]. rewrite E. cbn.
    destruct c as [[] [] [] [] [] [] [] []]; try reflexivity; discriminate D. }
  rewrite B, (int_part_digits p rest He). destruct He as [F _]. rewrite F.
  now rewrite NilEmpty.usu, of_uint_to_uint.
Qed.

Lemma scan_number_str (n : Z) (rest : string) :
  ends_number rest ->
  Json.scan_number (Py.str n +++ rest) = Some (Json.Int n, rest).
Proof.
  intros He. unfold Py.str. destruct n as [|p|p]; cbn [Z.to_int NilZero.string_of_int].
  - cbn. destruct He as [F _]. now rewrite F.
  - rewrite nilzero_string_of_uint by apply DecimalPos.Unsigned.to_uint_nonnil.
    now apply scan_number_unsigned.
  - rewrite nilzero_string_of_uint by apply DecimalPos.Unsigned.to_uint_nonnil.
    unfold Json.scan_number. cbn [String.append].
    rewrite (int_part_digits p rest He). destruct He as [F _]. rewrite F.
    now rewrite NilEmpty.usu, of_uint_to_uint.
Qed.

Lemma scan_once_number (f : nat) (c : ascii) (r : string) :
  Py.isdigit c = true \/ c = "-"%char ->
  Json.scan_once (S f) (String c r) = Json.scan_number (String c r).
Proof.
  intros [D| ->]; [|reflexivity].
  destruct c as [[] [] [] [] [] [] [] []]; try reflexivity; discriminate D.
Qed.

Lemma str_head (n : Z) :
  exists c r, Py.str n = String c r /\ (Py.isdigit c = true \/ c = "-"%char).
Proof.
  unfold Py.str. destruct n as [|p|p]; cbn [Z.to_int NilZero.string_of_int].
  - exists "0"%char, "". split; [reflexivity|now left].
  - rewrite nilzero_string_of_uint by apply DecimalPos.Unsigned.to_uint_nonnil.
    destruct (to_uint_head p) as [c [r [E [D _]]]]. exists c, r. auto.
  - eexists _, _. split; [reflexivity|now right].
Qed.

(** The decoder reads an encoded value back, at any indentation level and
    before any text at which a number ends, given enough fuel. *)
Lemma wf_reads_back (v : Json.value) : wf v -> reads_back v.
Proof.
  induction v as [| b | n | s | l IH | l IH] using value_ind';
    intros Hp level fuel rest Hf He;
    (destruct fuel as [|f]; [cbn in Hf; lia|]).
  - destruct rest; reflexivity.
  - destruct b, rest; reflexivity.
  - cbn [Json.encode]. destruct (str_head n) as [c [r [E H]]].
    rewrite <- (scan_number_str n rest He), E. cbn [String.append].
    now apply scan_once_number.
  - cbn [Json.encode]. rewrite encode_string_append, scan_once_str.
    now rewrite scanstring_escape.
  - apply wf_arr in Hp.
    assert (R : Forall reads_back l).
    { clear -IH Hp. induction IH as [|x r Hx _ IHr]; constructor;
        inversion Hp; subst; auto. }
    destruct l as [|x xs]; [reflexivity|].
    inversion R as [|? ? Rx Rxs]; subst.
    change (Json.encode level (Json.Arr (x :: xs))) with
      ("[" +++ Json.newline_indent (S level) +++ Json.encode (S level) x +++
       encode_items (S level) xs +++ Json.newline_indent level +++ "]").
    rewrite !append_assoc. cbn [String.append].
    rewrite scan_once_arr, skip_ws_newline_indent, skip_ws_encode.
    destruct (encode_opens (S level) x
                (encode_items (S level) xs +++
                 Json.newline_indent level +++ String "]" rest))
      as [c [r [E [_ B]]]].
    rewrite E, B, <- E.
    rewrite elements_reads_back; [reflexivity|assumption|assumption|].
    change (need (Json.Arr (x :: xs))) with (S (need_items (x :: xs))) in Hf.
    lia.
  - apply wf_obj in Hp as [N Hp].
    assert (R : Forall (fun kv => reads_back (snd kv)) l).
    { clear -IH Hp. induction IH as [|x r Hx _ IHr]; constructor;
        inversion Hp; subst; auto. }
    destruct l as [|[k x] xs]; [reflexivity|].
    inversion R as [|? ? Rx Rxs]; subst.
    change (Json.encode level (Json.Obj ((k, x) :: xs))) with
      ("{" +++ Json.newline_indent (S level) +++ Json.encode_string k +++ ": " +++
       Json.encode (S level) x +++ encode_members (S level) xs +++
       Json.newline_indent level +++ "}").
    rewrite !append_assoc. cbn [String.append].
    rewrite scan_once_obj, skip_ws_newline_indent, encode_string_append.
    rewrite skip_ws_head by reflexivity.
    change (Ascii.eqb Json.quote "}") with false.
    change (Ascii.eqb Json.quote Json.quote) with true. cbv iota.
    change (need (Json.Obj ((k, x) :: xs)))
      with (S (need_members ((k, x) :: xs))) in Hf.
    rewrite members_reads_back; [|assumption|assumption|lia].
    now rewrite dict_of_pairs_nodup.
Qed.

Lemma length_newline_indent (level : nat) :
  (1 <= String.length (Json.newline_indent level))%nat.
Proof. cbn. lia. Qed.

Lemma need_le_length (v : Json.value) :
  wf v -> forall level, (need v <= String.length (Json.encode level v))%nat.
Proof.
  induction v as [| b | n | s | l IH | l IH] using value_ind';
    intros Hp level.
  - cbn. lia.
  - destruct b; cbn; lia.
  - cbn [Json.encode need]. destruct (str_head n) as [c [r [-> _]]]. cbn. lia.
  - cbn. lia.
  - apply wf_arr in Hp. destruct l as [|x xs]; [cbn; lia|].
    change (Json.encode level (Json.Arr (x :: xs))) with
      ("[" +++ Json.newline_indent (S level) +++ Json.encode (S level) x +++
       encode_items (S level) xs +++ Json.newline_indent level +++ "]").
    change (need (Json.Arr (x :: xs))) with (S (S (need x + need_items xs))).
    inversion IH as [|? ? Hx Hxs]; inversion Hp as [|? ? Px Pxs]; subst.
    assert (I : (need_items xs <= String.length (encode_items (S level) xs))%nat).
    { clear -Hxs Pxs. induction Hxs as [|y ys Hy _ IHys]; [cbn; lia|].
      inversion Pxs; subst.
      change (encode_items (S level) (y :: ys)) with
        ("," +++ Json.newline_indent (S level) +++ Json.encode (S level) y +++
         encode_items (S level) ys).
      change (need_items (y :: ys)) with (S (need y + need_items ys)).
      rewrite !length_append. specialize (Hy H1 (S level)).
      specialize (IHys H2). cbn [String.length]. lia. }
    rewrite !length_append. specialize (Hx Px (S level)).
    pose proof (length_newline_indent (S level)). cbn [String.length]. lia.
  - apply wf_obj in Hp as [_ Hp]. destruct l as [|[k x] xs]; [cbn; lia|].
    change (Json.encode level (Json.Obj ((k, x) :: xs))) with
      ("{" +++ Json.newline_indent (S level) +++ Json.encode_string k +++ ": " +++
       Json.encode (S level) x +++ encode_members (S level) xs +++
       Json.newline_indent level +++ "}").
    change (need (Json.Obj ((k, x) :: xs)))
      with (S (S (need x + need_members xs))).
    inversion IH as [|? ? Hx Hxs]; inversion Hp as [|? ? Px Pxs]; subst.
    assert (I : (need_members xs <=
                 String.length (encode_members (S level) xs))%nat).
    { clear -Hxs Pxs. induction Hxs as [|[k' y] ys Hy _ IHys]; [cbn; lia|].
      inversion Pxs; subst.
      change (encode_members (S level) ((k', y) :: ys)) with
        ("," +++ Json.newline_indent (S level) +++ Json.encode_string k' +++
         ": " +++ Json.encode (S level) y +++ encode_members (S level) ys).
      change (need_members ((k', y) :: ys)) with (S (need y + need_members ys)).
      rewrite !length_append. specialize (Hy H1 (S level)).
      specialize (IHys H2). cbn [String.length]. cbn [snd] in Hy. lia. }
    rewrite !length_append. specialize (Hx Px (S level)). cbn [snd] in Hx.
    pose proof (length_newline_indent (S level)). cbn [String.length]. lia.
Qed.

Lemma append_empty (s : string) : s +++ "" = s.
Proof. induction s as [|c r IH]; cbn; [reflexivity|now rewrite IH]. Qed.

(** [json.loads(json.dumps(v, indent=2, ensure_ascii=False)) == v] for
    every value of the model. *)
Lemma loads_dumps (v : Json.value) :
  wf v -> Json.loads (Json.dumps v) = Some v.
Proof.
  intros Hp. unfold Json.loads, Json.dumps.
  rewrite <- (append_empty (Json.encode 0 v)) at 2.
  rewrite skip_ws_encode.
  rewrite (wf_reads_back v Hp); [reflexivity| |apply ends_number_empty].
  pose proof (need_le_length v Hp 0%nat). lia.
Qed.

Lemma wf_task_dict (t : Task) : wf (task_dict t).
Proof.
  cbn. split.
  - repeat constructor; cbn; intuition discriminate.
  - destruct (due_date t); repeat split.
Qed.

Lemma wf_tasks_value (ts : list Task) : wf (tasks_value ts).
Proof.
  unfold tasks_value. cbn.
  induction ts as [|t r IH]; [exact I|]. split; [apply wf_task_dict|exact IH].
Qed.

Lemma task_dict_inj (t u : Task) : task_dict t = task_dict u -> t = u.
Proof.
  destruct t as [i1 x1 p1 d1 c1 r1 e1], u as [i2 x2 p2 d2 c2 r2 e2].
  unfold task_dict. cbn. intros H.
  injection H as Hi Hx Hp Hd Hc Hr He. subst.
  destruct d1, d2; try discriminate; [injection Hd as ->|]; reflexivity.
Qed.

Lemma tasks_value_inj (ts us : list Task) :
  tasks_value ts = tasks_value us -> ts = us.
Proof.
  unfold tasks_value. intros [= H]. revert us H.
  induction ts as [|t r IH]; intros [|u us]; cbn [map]; try discriminate; auto.
  intros H.
  pose proof (f_equal (@List.hd Json.value Json.Null) H) as E1.
  pose proof (f_equal (@List.tl Json.value) H) as E2.
  cbn [List.hd List.tl] in E1, E2.
  f_equal; [now apply task_dict_inj|now apply IH].
Qed.



(** * Further properties of the code *)

(** ** Dates written by [isoformat] and read by [strptime] *)

Lemma range_in (lo : Z) (n : nat) (x : Z) :
  lo <= x < lo + Z.of_nat n -> In x (range lo n).
Proof.
  revert lo. induction n as [|k IH]; intros lo H; [lia|]. cbn [range].
  destruct (Z.eq_dec lo x) as [->|N]; [now left|].
  right. apply IH. lia.
Qed.

Lemma in_upto (n x : Z) : 1 <= x <= n -> In x (upto n).
Proof. intros H. apply range_in. lia. Qed.

Lemma year_read (y : Z) :
  1 <= y <= 9999 -> four_digits (Date.zfill 4 (Py.str y)) = Some y.
Proof.
  intros H.
  assert (A : forallb (fun y => reads_as y (four_digits (Date.zfill 4 (Py.str y))))
                (upto 9999) = true) by (vm_compute; reflexivity).
  rewrite forallb_forall in A. specialize (A y (in_upto 9999 y H)).
  unfold reads_as in A. destruct (four_digits _) as [x|]; [|discriminate].
  apply Z.eqb_eq in A. now subst.
Qed.

Lemma match_Y_four_digits (s r : string) (y : Z) :
  four_digits s = Some y -> Date.match_Y (s +++ r) = Some (y, r).
Proof.
  unfold four_digits.
  destruct s as [|a [|b [|c [|d [|e s]]]]]; try discriminate. cbn.
  destruct (Date.digit a), (Date.digit b), (Date.digit c), (Date.digit d);
    try discriminate.
  now intros [= <-].
Qed.

Lemma month_day_read_all (m d : Z) :
  1 <= m <= 12 -> 1 <= d <= 31 -> month_day_read m d = true.
Proof.
  intros Hm Hd.
  assert (A : forallb (fun m => forallb (month_day_read m) (upto 31)) (upto 12)
              = true) by (vm_compute; reflexivity).
  rewrite forallb_forall in A. specialize (A m (in_upto 12 m Hm)).
  rewrite forallb_forall in A. exact (A d (in_upto 31 d Hd)).
Qed.

Lemma days_in_month_le (y m : Z) : Date.days_in_month y m <= 31.
Proof.
  unfold Date.days_in_month.
  destruct m as [|p|p]; try lia.
  repeat (destruct p as [p|p|]; cbn; try lia).
  destruct (Date.is_leap y); lia.
Qed.

Lemma valid_bounds (d : Date.t) :
  Date.valid d = true ->
  1 <= Date.year d <= 9999 /\ 1 <= Date.month d <= 12 /\
  1 <= Date.day d <= Date.days_in_month (Date.year d) (Date.month d).
Proof.
  unfold Date.valid. intros H.
  repeat (apply andb_prop in H as [H ?]).
  repeat match goal with E : (_ <=? _) = true |- _ => apply Z.leb_le in E end.
  apply Z.leb_le in H. lia.
Qed.

Lemma strptime_isoformat_valid (d : Date.t) :
  Date.valid d = true -> Date.strptime (Date.isoformat d) = Some d.
Proof.
  intros V. destruct (valid_bounds d V) as [Hy [Hm Hd]].
  pose proof (days_in_month_le (Date.year d) (Date.month d)) as Hle.
  unfold Date.strptime, Date.regex_match, Date.isoformat.
  rewrite (match_Y_four_digits _ _ _ (year_read _ Hy)).
  cbn [Date.dash String.append].
  assert (R : month_day_read (Date.month d) (Date.day d) = true)
    by (apply month_day_read_all; lia).
  unfold month_day_read in R.
  destruct (Date.first_md _) as [[[m' d'] [|c r]]|]; try discriminate R.
  apply andb_prop in R as [E1 E2]. apply Z.eqb_eq in E1, E2. subst.
  destruct d as [y m dd]. cbn in *. now rewrite V.
Qed.

(** X1: a calendar date written by [isoformat] is read back by
    [strptime], so [validate_date] accepts every due date that the
    application stores and returns the date it was made from. *)
Theorem isoformat_validates (d : Date.t) :
  Date.valid d = true ->
  Date.strptime (Date.isoformat d) = Some d /\
  validate_date (Date.isoformat d) = Valid d /\
  checked_due (Date.isoformat d) = Some (Some (Date.isoformat d)).
Proof.
  intros V. pose proof (strptime_isoformat_valid d V) as P.
  assert (E : validate_date (Date.isoformat d) = Valid d).
  { unfold validate_date. rewrite P.
    destruct (Date.isoformat d); [discriminate P|reflexivity]. }
  split; [assumption|]. split; [assumption|].
  unfold checked_due. now rewrite E.
Qed.

Lemma isoformat_validates_witness :
  Date.strptime (Date.isoformat (Date.mk 2024 2 29)) = Some (Date.mk 2024 2 29) /\
  validate_date (Date.isoformat (Date.mk 2024 2 29)) = Valid (Date.mk 2024 2 29) /\
  checked_due (Date.isoformat (Date.mk 2024 2 29)) =
    Some (Some (Date.isoformat (Date.mk 2024 2 29))).
Proof. apply (isoformat_validates (Date.mk 2024 2 29)). reflexivity. Defined.

(** ** The order of dates and the day count *)

Lemma days_before_year_succ (y : Z) :
  Date.days_before_year (y + 1) =
  Date.days_before_year y + 365 + (if Date.is_leap y then 1 else 0).
Proof.
  unfold Date.days_before_year, Date.is_leap.
  replace (y + 1 - 1) with y by lia.
  destruct (y mod 4 =? 0) eqn:E4; destruct (y mod 100 =? 0) eqn:E100;
    destruct (y mod 400 =? 0) eqn:E400; cbn [andb orb negb];
    rewrite ?Z.eqb_eq, ?Z.eqb_neq in *;
    Z.div_mod_to_equations; lia.
Qed.

Lemma days_before_year_mono (y y' : Z) :
  y <= y' -> Date.days_before_year y <= Date.days_before_year y'.
Proof.
  unfold Date.days_before_year. intros H. Z.div_mod_to_equations. lia.
Qed.

Lemma month_cases (m : Z) :
  1 <= m <= 12 ->
  m = 1 \/ m = 2 \/ m = 3 \/ m = 4 \/ m = 5 \/ m = 6 \/
  m = 7 \/ m = 8 \/ m = 9 \/ m = 10 \/ m = 11 \/ m = 12.
Proof. lia. Qed.

Ltac each_month H :=
  destruct (month_cases _ H) as
    [->|[->|[->|[->|[->|[->|[->|[->|[->|[->|[->| ->]]]]]]]]]]].

Ltac month_arith l :=
  cbv beta iota delta [Z.ltb Z.compare Pos.compare Pos.compare_cont andb];
  destruct l; lia.

(** The day of the year lies between 1 and the length of the year. *)
Lemma day_of_year_bounds (y m d : Z) :
  1 <= m <= 12 -> 1 <= d <= Date.days_in_month y m ->
  1 <= Date.days_before_month y m + d <=
  365 + (if Date.is_leap y then 1 else 0).
Proof.
  intros Hm. unfold Date.days_before_month, Date.days_in_month.
  generalize (Date.is_leap y). intros l.
  each_month Hm; month_arith l.
Qed.

Lemma day_of_year_lt (y m d m' d' : Z) :
  1 <= m <= 12 -> 1 <= d <= Date.days_in_month y m ->
  1 <= m' <= 12 -> 1 <= d' <= Date.days_in_month y m' ->
  m < m' \/ (m = m' /\ d < d') ->
  Date.days_before_month y m + d < Date.days_before_month y m' + d'.
Proof.
  intros Hm Hd Hm' Hd' H. revert Hd Hd' H.
  unfold Date.days_before_month, Date.days_in_month.
  generalize (Date.is_leap y). intros l.
  each_month Hm; each_month Hm'; month_arith l.
Qed.

Lemma ltb_toordinal (a b : Date.t) :
  Date.valid a = true -> Date.valid b = true ->
  Date.ltb a b = true -> Date.toordinal a < Date.toordinal b.
Proof.
  intros Va Vb. destruct (valid_bounds a Va) as [Ya [Ma Da]].
  destruct (valid_bounds b Vb) as [Yb [Mb Db]].
  unfold Date.ltb, Date.toordinal. intros H.
  apply orb_prop in H as [H|H].
  - apply Z.ltb_lt in H.
    pose proof (day_of_year_bounds _ _ _ Ma Da) as Ba.
    pose proof (day_of_year_bounds _ _ _ Mb Db) as Bb.
    pose proof (days_before_year_succ (Date.year a)) as S.
    pose proof (days_before_year_mono (Date.year a + 1) (Date.year b)) as M.
    lia.
  - apply andb_prop in H as [E H]. apply Z.eqb_eq in E.
    rewrite E in *. 
    assert (L : Date.month a < Date.month b \/
                (Date.month a = Date.month b /\ Date.day a < Date.day b)).
    { apply orb_prop in H as [H|H]; [left; now apply Z.ltb_lt|].
      apply andb_prop in H as [H1 H2]. right.
      split; [now apply Z.eqb_eq|now apply Z.ltb_lt]. }
    pose proof (day_of_year_lt _ _ _ _ _ Ma Da Mb Db L). lia.
Qed.

Lemma ltb_trichotomy (a b : Date.t) :
  Date.ltb a b = true \/ a = b \/ Date.ltb b a = true.
Proof.
  destruct a as [y m d], b as [y' m' d']. unfold Date.ltb. cbn.
  destruct (Z.lt_trichotomy y y') as [H|[->|H]].
  - left. apply Z.ltb_lt in H. now rewrite H.
  - rewrite Z.ltb_irrefl, Z.eqb_refl. cbn.
    destruct (Z.lt_trichotomy m m') as [H|[->|H]].
    + left. apply Z.ltb_lt in H. now rewrite H.
    + rewrite Z.ltb_irrefl, Z.eqb_refl. cbn.
      destruct (Z.lt_trichotomy d d') as [H|[->|H]].
      * left. now apply Z.ltb_lt.
      * right. now left.
      * right. right. now apply Z.ltb_lt.
    + right. right. apply Z.ltb_lt in H. now rewrite H.
  - right. right. apply Z.ltb_lt in H. now rewrite H.
Qed.

(** On calendar dates, [a < b] holds exactly when [(a - b).days] is
    negative. *)
Lemma ltb_sub_days (a b : Date.t) :
  Date.valid a = true -> Date.valid b = true ->
  (Date.ltb a b = true <-> Date.sub_days a b < 0).
Proof.
  intros Va Vb. unfold Date.sub_days. split.
  - intros H. pose proof (ltb_toordinal a b Va Vb H). lia.
  - intros H. destruct (ltb_trichotomy a b) as [L|[->|L]]; [assumption|lia|].
    pose proof (ltb_toordinal b a Vb Va L). lia.
Qed.

Lemma strptime_valid (s : string) (d : Date.t) :
  Date.strptime s = Some d -> Date.valid d = true.
Proof.
  unfold Date.strptime.
  destruct (Date.regex_match s) as [[[[y m] dd] [|c r]]|]; try discriminate.
  destruct (Date.valid (Date.mk y m dd)) eqn:V; [|discriminate].
  now intros [= <-].
Qed.

(** X2: for two calendar dates the day count [(a - b).days] agrees with the
    order of the dates: it is negative exactly when [a < b], and it is zero
    exactly when the dates are the same. *)
Theorem day_count_agrees_with_order (a b : Date.t) :
  Date.valid a = true -> Date.valid b = true ->
  (Date.ltb a b = true <-> Date.sub_days a b < 0) /\
  (Date.sub_days a b = 0 <-> a = b).
Proof.
  intros Va Vb. split; [now apply ltb_sub_days|]. split.
  - intros H. destruct (ltb_trichotomy a b) as [L|[E|L]]; [|assumption|].
    + apply (ltb_sub_days a b Va Vb) in L. lia.
    + apply (ltb_sub_days b a Vb Va) in L. unfold Date.sub_days in *. lia.
  - intros ->. unfold Date.sub_days. lia.
Qed.

Lemma day_count_agrees_with_order_witness :
  (Date.ltb (Date.mk 2024 2 29) (Date.mk 2024 3 1) = true <->
   Date.sub_days (Date.mk 2024 2 29) (Date.mk 2024 3 1) < 0) /\
  (Date.sub_days (Date.mk 2024 2 29) (Date.mk 2024 3 1) = 0 <->
   Date.mk 2024 2 29 = Date.mk 2024 3 1).
Proof.
  apply (day_count_agrees_with_order (Date.mk 2024 2 29) (Date.mk 2024 3 1));
    reflexivity.
Defined.

(** ** Texts and their ends *)

Lemma every_append (p : ascii -> bool) (a b : string) :
  every p (a +++ b) = every p a && every p b.
Proof.
  induction a as [|c a IH]; cbn; [reflexivity|]. now rewrite IH, andb_assoc.
Qed.

Lemma str_chars (n : Z) : every sign_or_digit (Py.str n) = true.
Proof.
  assert (D : forall u, every sign_or_digit (NilEmpty.string_of_uint u) = true).
  { intros u. eapply every_impl; [|apply string_of_uint_digits].
    intros c H. unfold sign_or_digit. now rewrite H. }
  unfold Py.str. destruct n as [|p|p]; cbn [Z.to_int NilZero.string_of_int].
  - reflexivity.
  - rewrite nilzero_string_of_uint by apply DecimalPos.Unsigned.to_uint_nonnil.
    apply D.
  - rewrite nilzero_string_of_uint by apply DecimalPos.Unsigned.to_uint_nonnil.
    cbn. apply D.
Qed.

Lemma append_last (a b : string) (x y : ascii) :
  a +++ String x "" = b +++ String y "" -> x = y.
Proof.
  revert b. induction a as [|c a IH]; intros [|e b]; cbn; intros H.
  - now injection H.
  - injection H as _ H. destruct b; discriminate.
  - injection H as _ H. destruct a; discriminate.
  - injection H as _ H. now apply IH in H.
Qed.

Lemma endswith_append (a p : string) : Py.endswith (a +++ p) p = true.
Proof.
  induction a as [|c a IH]; cbn [String.append].
  - destruct p; cbn [Py.endswith]; now rewrite String.eqb_refl.
  - cbn [Py.endswith]. rewrite IH. apply orb_true_r.
Qed.

Lemma endswith_inv (s p : string) :
  Py.endswith s p = true -> exists a, s = a +++ p.
Proof.
  induction s as [|c s IH]; cbn [Py.endswith]; intros H.
  - rewrite orb_false_r in H. apply String.eqb_eq in H. now exists "".
  - apply orb_prop in H as [H|H].
    + apply String.eqb_eq in H. now exists "".
    + destruct (IH H) as [a ->]. now exists (String c a).
Qed.

(** ** The overdue tag and the Days Left column *)

Lemma days_text_not_overdue (n : Z) :
  Py.endswith (Py.str n +++ " day(s)") "overdue" = false.
Proof.
  destruct (Py.endswith _ _) eqn:E; [|reflexivity].
  apply endswith_inv in E as [a E].
  change " day(s)" with (" day(s" +++ ")") in E.
  change "overdue" with ("overdu" +++ "e") in E.
  rewrite <- !append_assoc in E. apply append_last in E. discriminate E.
Qed.

Lemma overdue_text_overdue (n : Z) :
  Py.endswith (Py.str n +++ " day(s) overdue") "overdue" = true.
Proof.
  change " day(s) overdue" with (" day(s) " +++ "overdue").
  rewrite <- append_assoc. apply endswith_append.
Qed.

(** X3: on a row of the tree, the overdue tag is present exactly when the
    task is not completed and the Days Left column reads "N day(s)
    overdue": the tag, decided by comparing dates, and the text, decided
    by the sign of the day count, never disagree. *)
Theorem overdue_tag_matches_days_left (today : Date.t) (t : Task) (row : Row) :
  Date.valid today = true ->
  make_row today t = Some row ->
  (In "overdue" (tags row) <->
   completed t = false /\ Py.endswith (days_left row) "overdue" = true).
Proof.
  intros V E. destruct (make_row_fields _ _ _ E) as [-> ->].
  rewrite row_tags_overdue. split.
  - intros [[due [d [E1 [P L]]]] Hc]. split; [assumption|].
    unfold due_info. rewrite (has_due_some t due d E1 P), P. cbn [fst].
    apply (ltb_sub_days d today (strptime_valid _ _ P) V) in L.
    apply Z.leb_gt in L. rewrite L. apply overdue_text_overdue.
  - intros [Hc H]. split; [|assumption]. unfold due_info in H.
    destruct (has_due t) as [due|] eqn:E1; [|discriminate H].
    apply has_due_inv in E1 as [E1 _].
    destruct (Date.strptime due) as [d|] eqn:P; [|discriminate H].
    cbn [fst] in H. exists due, d. split; [assumption|]. split; [assumption|].
    apply (ltb_sub_days d today (strptime_valid _ _ P) V).
    destruct (0 <=? Date.sub_days d today) eqn:L; [|now apply Z.leb_gt].
    rewrite days_text_not_overdue in H. discriminate H.
Qed.

Lemma overdue_tag_matches_days_left_witness :
  In "overdue" (tags row_B) <->
  completed sample_B = false /\ Py.endswith (days_left row_B) "overdue" = true.
Proof.
  apply (overdue_tag_matches_days_left today0 sample_B row_B); reflexivity.
Defined.

(** ** What one user action does to the list and to the file *)

Lemma commit_fields (today : Date.t) (app : App) (ts : list Task) :
  tasks (fst (commit today app ts)) = ts /\
  disk (fst (commit today app ts)) = fst (save_tasks ts (disk app)) /\
  snd (commit today app ts) = snd (save_tasks ts (disk app)) /\
  dialogs (fst (commit today app ts)) = dialogs app /\
  tree (fst (commit today app ts)) =
    insert_rows today (visible ts (filter_var app) (search_var app)).
Proof. unfold commit. destruct (save_tasks ts (disk app)). now repeat split. Qed.

(** The list after a user action: unchanged, or one record appended by
    [add_task], or one record rewritten by a handler, or the completed
    records marked by [clear_completed]. *)
Lemma step_tasks tk today (a : Action) (app : App) :
  tasks (fst (step tk today a app)) = tasks app \/
  (exists now e p w due,
     a = AddTask now e p w /\ Py.nonempty (Py.strip e) = true /\
     add_due tk w = Some due /\
     tasks (fst (step tk today a app)) =
       tasks app ++
       [ {| id := Py.str (next_id (tasks app)); text := Py.strip e;
            priority := p; due_date := due; completed := false;
            created := now; deleted := false |} ]) \/
  (exists i msgs,
     a = ToggleComplete /\
     get_selected_task (tasks app) (selected_id app) = (Some i, msgs) /\
     tasks (fst (step tk today a app)) =
       modify i (fun t => set_completed (negb (completed t)) t) (tasks app)) \/
  (exists k e p d i due,
     a = DialogSave k e p d /\ nth_error (dialogs app) k = Some i /\
     Py.nonempty (Py.strip e) = true /\ edit_due tk d = Some due /\
     tasks (fst (step tk today a app)) =
       modify i (set_edited (Py.strip e) p due) (tasks app)) \/
  (exists i msgs,
     a = DeleteTask true /\
     get_selected_task (tasks app) (selected_id app) = (Some i, msgs) /\
     tasks (fst (step tk today a app)) = modify i set_deleted (tasks app)) \/
  (a = ClearCompleted true /\ filter is_comp (tasks app) <> [] /\
   tasks (fst (step tk today a app)) =
     map (fun t => if is_comp t then set_deleted t else t) (tasks app)).
Proof.
  destruct a; cbn [step fst]; try (now left).
  - unfold add_task.
    destruct (Py.nonempty (Py.strip task_entry)) eqn:He; cbn [negb]; [|now left].
    destruct (add_due tk due_widget) as [due|] eqn:Ed; [|now left].
    right. left. exists now, task_entry, priority_var, due_widget, due.
    rewrite tasks_commit. now repeat split.
  - unfold toggle_complete.
    destruct (get_selected_task _ _) as [[i|] msgs] eqn:E; [|now left].
    right. right. left. exists i, msgs. rewrite tasks_commit. now repeat split.
  - unfold edit_task.
    destruct (get_selected_task _ _) as [[i|] msgs]; now left.
  - destruct (save_tasks_of tk today k e_task pvar d_entry app)
      as [->|[i [due [Hk [He [Ed ->]]]]]]; [now left|].
    right. right. right. left. exists k, e_task, pvar, d_entry, i, due.
    now repeat split.
  - unfold delete_task.
    destruct (get_selected_task _ _) as [[i|] msgs] eqn:E; [|now left].
    destruct confirm; [|now left].
    right. right. right. right. left. exists i, msgs.
    rewrite tasks_commit. now repeat split.
  - unfold clear_completed.
    destruct (filter is_comp (tasks app)) as [|c comp] eqn:E; [now left|].
    destruct confirm; [|now left].
    right. right. right. right. right. rewrite tasks_commit.
    split; [reflexivity|]. split; [discriminate|reflexivity].
Qed.

(** A user action either leaves the list and the file alone and does not
    try to save, or it saves the list it leaves. *)
Lemma step_disk tk today (a : Action) (app : App) :
  (tasks (fst (step tk today a app)) = tasks app /\
   disk (fst (step tk today a app)) = disk app /\
   ~ In SaveFailed (snd (step tk today a app))) \/
  (disk (fst (step tk today a app)) =
     fst (save_tasks (tasks (fst (step tk today a app))) (disk app)) /\
   snd (step tk today a app) =
     snd (save_tasks (tasks (fst (step tk today a app))) (disk app))).
Proof.
  assert (Q : forall m, m <> SaveFailed -> ~ In SaveFailed [m]).
  { intros m Hm [H|[]]. congruence. }
  assert (C : forall ts,
             disk (fst (commit today app ts)) =
               fst (save_tasks (tasks (fst (commit today app ts))) (disk app)) /\
             snd (commit today app ts) =
               snd (save_tasks (tasks (fst (commit today app ts))) (disk app))).
  { intros ts. destruct (commit_fields today app ts) as [-> [-> [-> _]]].
    now split. }
  destruct a; cbn [step fst snd];
    try (left; repeat split; intros []; fail).
  - unfold add_task.
    destruct (negb (Py.nonempty (Py.strip task_entry)));
      [left; repeat split; now apply Q|].
    destruct (add_due tk due_widget);
      [right; apply C|left; repeat split; now apply Q].
  - unfold toggle_complete, get_selected_task.
    destruct (selected_id app) as [task_id|];
      [|left; repeat split; now apply Q].
    destruct (find_task _ _); [right; apply C|left; repeat split; intros []].
  - unfold edit_task, get_selected_task.
    destruct (selected_id app) as [task_id|];
      [|left; repeat split; now apply Q].
    destruct (find_task _ _); left; repeat split; intros [].
  - unfold save.
    destruct (nth_error (dialogs app) k) as [i|];
      [|left; repeat split; intros []].
    destruct (negb (Py.nonempty (Py.strip e_task)));
      [left; repeat split; now apply Q|].
    destruct (edit_due tk d_entry) as [due|];
      [|left; repeat split; now apply Q].
    right. specialize (C (modify i (set_edited (Py.strip e_task) pvar due)
                            (tasks app))).
    destruct (commit today app _) as [app' msgs]. exact C.
  - unfold delete_task, get_selected_task.
    destruct (selected_id app) as [task_id|];
      [|left; repeat split; now apply Q].
    destruct (find_task _ _); [|left; repeat split; intros []].
    destruct confirm; [right; apply C|left; repeat split; intros []].
  - unfold clear_completed.
    destruct (filter is_comp (tasks app));
      [left; repeat split; now apply Q|].
    destruct confirm; [right; apply C|left; repeat split; intros []].
Qed.

(** ** Invariants of a session *)

Lemma run_invariant tk (P : list Task -> Prop) :
  (forall today a app, P (tasks app) -> P (tasks (fst (step tk today a app)))) ->
  forall acts app, P (tasks app) -> P (tasks (run tk acts app)).
Proof.
  intros H acts. induction acts as [|[today a] r IH]; intros app HP; cbn [run].
  - assumption.
  - apply IH, H, HP.
Qed.

Lemma modify_Forall (P : Task -> Prop) (i : nat) (g : Task -> Task)
  (l : list Task) :
  (forall t, P t -> P (g t)) -> Forall P l -> Forall P (modify i g l).
Proof.
  intros Hg H. revert i. induction H as [|t r Ht H IH]; intros i.
  - destruct i; constructor.
  - destruct i; cbn [modify]; constructor; auto.
Qed.

(** *** Due dates *)

Lemma checked_due_some (raw : string) (due : option string) :
  checked_due raw = Some due ->
  exists d, Date.strptime raw = Some d /\ Date.valid d = true /\
            due = Some (Date.isoformat d).
Proof.
  unfold checked_due, validate_date.
  destruct (negb (Py.nonempty raw)); [discriminate|].
  destruct (Date.strptime raw) as [d|] eqn:P; [|discriminate].
  intros [= <-]. exists d. split; [reflexivity|].
  split; [exact (strptime_valid _ _ P)|reflexivity].
Qed.

Lemma add_due_canonical tk (w : string) (due : option string) :
  add_due tk w = Some due ->
  due = None \/ exists d, Date.valid d = true /\ due = Some (Date.isoformat d).
Proof.
  unfold add_due. intros H.
  assert (C : checked_due (Py.strip w) = Some due ->
              exists d, Date.valid d = true /\ due = Some (Date.isoformat d)).
  { intros E. destruct (checked_due_some _ _ E) as [d [_ [V ->]]]. now exists d. }
  destruct tk.
  - destruct (Py.strip w =? "")%string; [injection H as <-; now left|auto].
  - destruct (Py.startswith (Py.strip w) "YYYY" || negb (Py.nonempty (Py.strip w)));
      [injection H as <-; now left|auto].
Qed.

Lemma edit_due_canonical tk (w : string) (due : option string) :
  edit_due tk w = Some due ->
  due = None \/ exists d, Date.valid d = true /\ due = Some (Date.isoformat d).
Proof.
  unfold edit_due. intros H.
  assert (C : checked_due (Py.strip w) = Some due ->
              exists d, Date.valid d = true /\ due = Some (Date.isoformat d)).
  { intros E. destruct (checked_due_some _ _ E) as [d [_ [V ->]]]. now exists d. }
  destruct tk.
  - destruct (Py.strip w =? "")%string; [injection H as <-; now left|auto].
  - destruct (Py.nonempty (Py.strip w)); [auto|injection H as <-; now left].
Qed.

Lemma canonical_of_due (t : Task) :
  due_date t = None \/
  (exists d, Date.valid d = true /\ due_date t = Some (Date.isoformat d)) ->
  canonical_due t.
Proof.
  unfold canonical_due. intros [->|[d [V ->]]]; [exact I|now exists d].
Qed.

Lemma step_canonical tk today (a : Action) (app : App) :
  Forall canonical_due (tasks app) ->
  Forall canonical_due (tasks (fst (step tk today a app))).
Proof.
  intros F.
  destruct (step_tasks tk today a app) as [H|[H|[H|[H|[H|H]]]]].
  - now rewrite H.
  - destruct H as (nw & e & p & w & due & _ & _ & Ed & ->).
    apply Forall_app. split; [assumption|]. constructor; [|constructor].
    apply canonical_of_due. cbn [due_date]. exact (add_due_canonical _ _ _ Ed).
  - destruct H as (i & msgs & _ & _ & ->).
    apply modify_Forall; [|assumption]. intros t H. exact H.
  - destruct H as (k & e & p & d & i & due & _ & _ & _ & Ed & ->).
    apply modify_Forall; [|assumption]. intros t _.
    apply canonical_of_due. cbn [due_date set_edited].
    exact (edit_due_canonical _ _ _ Ed).
  - destruct H as (i & msgs & _ & _ & ->).
    apply modify_Forall; [|assumption]. intros t H. exact H.
  - destruct H as (_ & _ & ->).
    apply Forall_map. eapply Forall_impl; [|exact F].
    intros t H. destruct (is_comp t); exact H.
Qed.

Lemma invalid_date_head (n : Z) (tail : string) :
  Py.str n +++ tail <> "Invalid date".
Proof.
  destruct (str_head n) as [c [r [-> [D| ->]]]]; cbn; intros [= -> _];
    discriminate D.
Qed.

(** X4: the due dates that [add_task] and the Save button store are
    calendar dates in the form [isoformat] writes.  If the list starts
    out with such due dates only, it keeps them through any session, and no
    row of the tree then reads "Invalid date" in its Days Left column. *)
Theorem due_dates_stay_readable tk (acts : list (Date.t * Action)) (app : App) :
  Forall canonical_due (tasks app) ->
  Forall canonical_due (tasks (run tk acts app)) /\
  (forall today f s row,
     In row (insert_rows today (visible (tasks (run tk acts app)) f s)) ->
     days_left row <> "Invalid date").
Proof.
  intros F.
  assert (G : Forall canonical_due (tasks (run tk acts app))).
  { apply (run_invariant tk (Forall canonical_due)); [|assumption].
    intros today a app0. apply step_canonical. }
  split; [assumption|].
  intros today f s row H.
  destruct (tree_row_origin _ _ _ _ _ H) as [t [Hin [_ [_ E]]]].
  destruct (make_row_fields _ _ _ E) as [-> _].
  rewrite Forall_forall in G. specialize (G t Hin).
  unfold canonical_due in G. unfold due_info, has_due.
  destruct (due_date t) as [due|] eqn:Ed; [|discriminate].
  destruct G as [d [V ->]].
  pose proof (strptime_isoformat_valid d V) as P.
  destruct (Date.isoformat d) as [|c r] eqn:Ei; [discriminate P|].
  cbn [Py.nonempty]. rewrite P. cbn [fst].
  destruct (0 <=? Date.sub_days d today); apply invalid_date_head.
Qed.

Lemma due_dates_stay_readable_witness :
  Forall canonical_due
    (tasks (run false [(today0, AddTask "2024-05-02 10:00" "Pay rent" "High" "2024-2-29")]
              (start [sample_B]))) /\
  (forall today f s row,
     In row
       (insert_rows today
          (visible
             (tasks (run false
                       [(today0, AddTask "2024-05-02 10:00" "Pay rent" "High" "2024-2-29")]
                       (start [sample_B]))) f s)) ->
     days_left row <> "Invalid date").
Proof.
  apply (due_dates_stay_readable false
           [(today0, AddTask "2024-05-02 10:00" "Pay rent" "High" "2024-2-29")]
           (start [sample_B])).
  constructor; [|constructor].
  exists (Date.mk 2000 1 1). split; reflexivity.
Defined.

(** *** Identifiers *)

Lemma frame_distinct_ids (ts ts' : list Task) :
  frame ts ts' ->
  Forall numeric ts /\ NoDup (map id ts) ->
  Forall numeric ts' /\ NoDup (map id ts').
Proof.
  intros [kept [added [-> [K A]]]] [F N].
  pose proof (Forall2_same_numeric _ _ K F) as Fk.
  pose proof (Forall2_same_ids _ _ K) as Ik.
  destruct A as [->|[a [-> Ia]]].
  - rewrite app_nil_r. split; [assumption|]. now rewrite Ik.
  - split.
    + apply Forall_app. split; [assumption|]. constructor; [|constructor].
      unfold numeric. rewrite Ia, int_str. discriminate.
    + rewrite map_app, Ik. cbn [map].
      apply NoDup_app;
        [assumption|constructor; [intros []|constructor]|].
      intros x Hx [<-|[]]. apply in_map_iff in Hx as [t [E Ht]].
      assert (L : next_id ts < next_id ts).
      { apply (next_id_above ts t); [assumption|assumption|].
        now rewrite E, Ia, int_str. }
      lia.
Qed.

(** X5: when the ids of the stored records are numeric and pairwise
    distinct, they stay numeric and pairwise distinct through any session:
    no action changes an id, and [add_task] issues an id above every id in
    the list, deleted records included. *)
Theorem ids_stay_distinct tk (acts : list (Date.t * Action)) (app : App) :
  Forall numeric (tasks app) ->
  NoDup (map id (tasks app)) ->
  Forall numeric (tasks (run tk acts app)) /\
  NoDup (map id (tasks (run tk acts app))).
Proof.
  intros F N.
  apply (run_invariant tk
           (fun ts => Forall numeric ts /\ NoDup (map id ts))); [|now split].
  intros today a app0. apply frame_distinct_ids, step_frame.
Qed.

Lemma ids_stay_distinct_witness :
  Forall numeric
    (tasks (run true [(today0, AddTask "2024-05-02 10:00" "Pay rent" "High" "")]
              (start [sample "7" true; sample "3" false]))) /\
  NoDup
    (map id
       (tasks (run true [(today0, AddTask "2024-05-02 10:00" "Pay rent" "High" "")]
                 (start [sample "7" true; sample "3" false])))).
Proof.
  apply (ids_stay_distinct true
           [(today0, AddTask "2024-05-02 10:00" "Pay rent" "High" "")]
           (start [sample "7" true; sample "3" false])).
  - repeat constructor; discriminate.
  - repeat constructor; cbn; intuition discriminate.
Defined.

Lemma next_id_after_add (ts : list Task) (a : Task) :
  Forall numeric ts -> id a = Py.str (next_id ts) ->
  next_id (ts ++ [a]) = next_id ts + 1.
Proof.
  intros F Ia.
  assert (Na : Py.int (id a) = Some (next_id ts)) by (rewrite Ia; apply int_str).
  destruct (next_id_numeric (ts ++ [a])) as [m [-> [[t [Ht Em]] Hm]]].
  - destruct ts; discriminate.
  - intros t Ht. apply in_app_iff in Ht as [Ht|[<-|[]]].
    + rewrite Forall_forall in F. specialize (F t Ht). unfold numeric in F.
      destruct (Py.int (id t)) as [n|]; [now exists n|congruence].
    + now exists (next_id ts).
  - f_equal.
    assert (Ge : next_id ts <= m).
    { apply (Hm a); [apply in_app_iff; right; now left|assumption]. }
    apply in_app_iff in Ht as [Ht|[<-|[]]].
    + pose proof (next_id_above ts t m F Ht Em). lia.
    + congruence.
Qed.

(** X6: when every id of the list is numeric, two tasks added one after
    the other get consecutive numbers: the first the number [next_id]
    gives for the list, the second that number plus one. *)
Theorem successive_adds_number_consecutively tk today1 today2
  (now1 e1 p1 w1 now2 e2 p2 w2 : string) (app : App) :
  Forall numeric (tasks app) ->
  whitespace_only e1 = false -> add_due tk w1 <> None ->
  whitespace_only e2 = false -> add_due tk w2 <> None ->
  exists t1 t2,
    tasks (fst (add_task tk today2 now2 e2 p2 w2
                  (fst (add_task tk today1 now1 e1 p1 w1 app)))) =
      tasks app ++ [t1; t2] /\
    id t1 = Py.str (next_id (tasks app)) /\
    id t2 = Py.str (next_id (tasks app) + 1).
Proof.
  intros F He1 Hd1 He2 Hd2.
  destruct (add_due tk w1) as [due1|] eqn:D1; [|congruence].
  destruct (add_due tk w2) as [due2|] eqn:D2; [|congruence].
  assert (A : forall today nw e p w due app0,
             whitespace_only e = false -> add_due tk w = Some due ->
             tasks (fst (add_task tk today nw e p w app0)) =
               tasks app0 ++
               [ {| id := Py.str (next_id (tasks app0)); text := Py.strip e;
                    priority := p; due_date := due; completed := false;
                    created := nw; deleted := false |} ]).
  { intros today nw e p w due app0 He Hd. unfold add_task.
    rewrite (strip_nonempty _ He), Hd. cbn [negb]. apply tasks_commit. }
  rewrite (A _ _ _ _ _ _ _ He2 D2), (A _ _ _ _ _ _ _ He1 D1).
  rewrite <- app_assoc. cbn [List.app].
  eexists _, _. split; [reflexivity|]. split; [reflexivity|].
  cbn [id]. f_equal. now apply next_id_after_add.
Qed.

Lemma successive_adds_number_consecutively_witness :
  exists t1 t2,
    tasks (fst (add_task true today0 "2024-05-02 10:05" "Call Ann" "Low" "2024-06-01"
                  (fst (add_task true today0 "2024-05-02 10:00" "Pay rent" "High" ""
                          (start [sample "7" true; sample "3" false]))))) =
      tasks (start [sample "7" true; sample "3" false]) ++ [t1; t2] /\
    id t1 = Py.str (next_id (tasks (start [sample "7" true; sample "3" false]))) /\
    id t2 = Py.str (next_id (tasks (start [sample "7" true; sample "3" false])) + 1).
Proof.
  apply (successive_adds_number_consecutively true today0 today0
           "2024-05-02 10:00" "Pay rent" "High" ""
           "2024-05-02 10:05" "Call Ann" "Low" "2024-06-01"
           (start [sample "7" true; sample "3" false])).
  - repeat constructor; discriminate.
  - reflexivity.
  - discriminate.
  - reflexivity.
  - discriminate.
Defined.

(** *** The data file *)

Lemma save_tasks_writable (ts : list Task) (d : Disk) :
  writable d = true ->
  save_tasks ts d =
    ({| file := Text (Json.dumps (tasks_value ts)); writable := true |}, []) /\
  load_tasks (fst (save_tasks ts d)) = (tasks_value ts, []) /\
  writable (fst (save_tasks ts d)) = true.
Proof.
  intros W. unfold save_tasks. rewrite W. split; [reflexivity|].
  split; [|reflexivity].
  unfold load_tasks. cbn [fst file].
  now rewrite (loads_dumps _ (wf_tasks_value ts)).
Qed.

Lemma save_tasks_failed (ts : list Task) (d : Disk) :
  writable d = false -> save_tasks ts d = (d, [SaveFailed]).
Proof. intros W. unfold save_tasks. now rewrite W. Qed.

Lemma step_in_sync tk today (a : Action) (app : App) :
  writable (disk app) = true -> in_sync app ->
  in_sync (fst (step tk today a app)) /\
  writable (disk (fst (step tk today a app))) = true /\
  snd (step tk today a app) <> [SaveFailed].
Proof.
  intros W S. unfold in_sync in *.
  destruct (step_disk tk today a app) as [[Et [Ed Hm]]|[Ed Em]].
  - rewrite Et, Ed. repeat split; try assumption.
    intros E. rewrite E in Hm. apply Hm. now left.
  - rewrite Ed, Em.
    destruct (save_tasks_writable (tasks (fst (step tk today a app))) _ W)
      as [E1 [E2 E3]].
    repeat split; try assumption. rewrite E1. discriminate.
Qed.



Lemma step_ignores_disk tk today (a : Action) (app : App) (d : Disk) :
  tasks (fst (step tk today a (with_tasks app (tasks app) d))) =
    tasks (fst (step tk today a app)) /\
  tree (fst (step tk today a (with_tasks app (tasks app) d))) =
    tree (fst (step tk today a app)).
Proof.
  assert (C : forall ts,
             tasks (fst (commit today (with_tasks app (tasks app) d) ts)) =
               tasks (fst (commit today app ts)) /\
             tree (fst (commit today (with_tasks app (tasks app) d) ts)) =
               tree (fst (commit today app ts))).
  { intros ts. unfold commit.
    destruct (save_tasks ts (disk (with_tasks app (tasks app) d))),
             (save_tasks ts (disk app)). now split. }
  destruct a; cbn [step fst]; try (now split).
  - unfold add_task. cbn [tasks with_tasks].
    destruct (negb (Py.nonempty (Py.strip task_entry))); [now split|].
    destruct (add_due tk due_widget); [apply C|now split].
  - unfold toggle_complete, selected_id. cbn [tasks with_tasks selection tree].
    destruct (get_selected_task _ _) as [[i|] msgs]; [apply C|now split].
  - unfold edit_task, selected_id. cbn [tasks with_tasks selection tree].
    destruct (get_selected_task _ _) as [[i|] msgs]; now split.
  - unfold save. cbn [tasks with_tasks dialogs].
    destruct (nth_error (dialogs app) k) as [i|]; [|now split].
    destruct (negb (Py.nonempty (Py.strip e_task))); [now split|].
    destruct (edit_due tk d_entry) as [due|]; [|now split].
    specialize (C (modify i (set_edited (Py.strip e_task) pvar due) (tasks app))).
    destruct (commit today (with_tasks app (tasks app) d) _),
             (commit today app _). exact C.
  - unfold delete_task, selected_id. cbn [tasks with_tasks selection tree].
    destruct (get_selected_task _ _) as [[i|] msgs]; [|now split].
    destruct confirm; [apply C|now split].
  - unfold clear_completed. cbn [tasks with_tasks].
    destruct (filter is_comp (tasks app)); [now split|].
    destruct confirm; [apply C|now split].
Qed.

(** X8: when the data file cannot be written, an action leaves the file as
    it was, and it still does to the list and to the tree what it does
    when the save succeeds; whenever it changed the list, the save error
    is the message shown.  The change is kept in memory only. *)
Theorem failed_save_keeps_change tk today (a : Action) (app : App) :
  writable (disk app) = false ->
  disk (fst (step tk today a app)) = disk app /\
  (forall d,
     tasks (fst (step tk today a app)) =
       tasks (fst (step tk today a (with_tasks app (tasks app) d))) /\
     tree (fst (step tk today a app)) =
       tree (fst (step tk today a (with_tasks app (tasks app) d)))) /\
  (tasks (fst (step tk today a app)) <> tasks app ->
   snd (step tk today a app) = [SaveFailed]).
Proof.
  intros W. split; [|split].
  - destruct (step_disk tk today a app) as [[_ [Ed _]]|[Ed _]]; [assumption|].
    rewrite Ed. now rewrite save_tasks_failed.
  - intros d. destruct (step_ignores_disk tk today a app d) as [-> ->].
    now split.
  - intros N. destruct (step_disk tk today a app) as [[Et _]|[_ Em]];
      [contradiction|].
    rewrite Em. now rewrite save_tasks_failed.
Qed.

Lemma failed_save_keeps_change_witness :
  disk (fst (step true today0 (AddTask "2024-05-02 10:00" "Pay rent" "High" "")
               (with_tasks (start []) [] (mkDisk Absent false)))) =
    disk (with_tasks (start []) [] (mkDisk Absent false)) /\
  (forall d,
     tasks (fst (step true today0 (AddTask "2024-05-02 10:00" "Pay rent" "High" "")
                   (with_tasks (start []) [] (mkDisk Absent false)))) =
       tasks (fst (step true today0 (AddTask "2024-05-02 10:00" "Pay rent" "High" "")
                     (with_tasks (with_tasks (start []) [] (mkDisk Absent false))
                        (tasks (with_tasks (start []) [] (mkDisk Absent false))) d))) /\
     tree (fst (step true today0 (AddTask "2024-05-02 10:00" "Pay rent" "High" "")
                  (with_tasks (start []) [] (mkDisk Absent false)))) =
       tree (fst (step true today0 (AddTask "2024-05-02 10:00" "Pay rent" "High" "")
                    (with_tasks (with_tasks (start []) [] (mkDisk Absent false))
                       (tasks (with_tasks (start []) [] (mkDisk Absent false))) d)))) /\
  (tasks (fst (step true today0 (AddTask "2024-05-02 10:00" "Pay rent" "High" "")
                (with_tasks (start []) [] (mkDisk Absent false)))) <>
     tasks (with_tasks (start []) [] (mkDisk Absent false)) ->
   snd (step true today0 (AddTask "2024-05-02 10:00" "Pay rent" "High" "")
          (with_tasks (start []) [] (mkDisk Absent false))) = [SaveFailed]).
Proof.
  apply (failed_save_keeps_change true today0
           (AddTask "2024-05-02 10:00" "Pay rent" "High" "")
           (with_tasks (start []) [] (mkDisk Absent false))).
  reflexivity.
Defined.


(** ** Views under different filters *)

Lemma key_le_refl (k : Key) : key_le k k.
Proof.
  destruct k as [[[c p] d] t]. unfold key_le. right. split; [reflexivity|].
  right. split; [reflexivity|]. right. split; [reflexivity|].
  unfold str_le. now rewrite str_compare_refl.
Qed.

Lemma insert_head (x : Task) (l : list Task) :
  (forall y, In y l -> key_le (sort_key x) (sort_key y)) ->
  insert x l = x :: l.
Proof.
  destruct l as [|y r]; intros H; cbn [insert]; [reflexivity|].
  assert (E : key_lt (sort_key y) (sort_key x) = false)
    by (apply key_lt_false, H; now left).
  now rewrite E.
Qed.

(** Inserting into a sorted list and filtering commute. *)
Lemma filter_insert (p : Task -> bool) (x : Task) (l : list Task) :
  ascending l ->
  filter p (insert x l) =
  if p x then insert x (filter p l) else filter p l.
Proof.
  unfold ascending. induction l as [|y r IH]; intros A.
  - cbn. now destruct (p x).
  - inversion A as [|? ? Ar Hy]; subst. cbn [insert].
    destruct (key_lt (sort_key y) (sort_key x)) eqn:E.
    + cbn [filter]. rewrite (IH Ar).
      destruct (p y), (p x); try reflexivity. cbn [insert]. now rewrite E.
    + apply key_lt_false in E.
      change (filter p (x :: y :: r)) with
        (if p x then x :: filter p (y :: r) else filter p (y :: r)).
      destruct (p x); [|reflexivity].
      rewrite insert_head; [reflexivity|].
      intros z Hz. apply filter_In in Hz as [[<-|Hz] _]; [assumption|].
      rewrite Forall_forall in Hy.
      exact (key_le_trans _ _ _ E (Hy z Hz)).
Qed.

Lemma filter_sort (p : Task -> bool) (l : list Task) :
  filter p (sort l) = sort (filter p l).
Proof.
  induction l as [|x r IH]; [reflexivity|]. cbn [sort filter].
  rewrite filter_insert by apply sort_ascending. rewrite IH.
  now destruct (p x).
Qed.

Lemma filter_filter_imp (p q : Task -> bool) (l : list Task) :
  (forall t, p t = true -> q t = true) -> filter p (filter q l) = filter p l.
Proof.
  intros H. induction l as [|x r IH]; [reflexivity|]. cbn [filter].
  destruct (q x) eqn:Q; cbn [filter]; rewrite IH; [reflexivity|].
  destruct (p x) eqn:P; [|reflexivity]. rewrite (H x P) in Q. discriminate.
Qed.

Lemma filter_andb (p q : Task -> bool) (l : list Task) :
  filter (fun t => p t && q t) l = filter q (filter p l).
Proof.
  induction l as [|x r IH]; [reflexivity|]. cbn [filter].
  destruct (p x); cbn [andb filter]; rewrite IH; reflexivity.
Qed.

Lemma keep_all (t : Task) : keep "All" "" t = negb (deleted t).
Proof. unfold keep. destruct (deleted t); reflexivity. Qed.

Lemma keep_pending (s : string) (t : Task) :
  keep "Pending" s t = keep "All" s t && negb (completed t).
Proof.
  unfold keep. destruct (deleted t); [reflexivity|].
  destruct (completed t); cbn [negb];
    rewrite ?andb_false_r, ?andb_true_r; reflexivity.
Qed.

Lemma keep_completed (s : string) (t : Task) :
  keep "Completed" s t = keep "All" s t && completed t.
Proof.
  unfold keep. destruct (deleted t); [reflexivity|].
  destruct (completed t); rewrite ?andb_false_r, ?andb_true_r; reflexivity.
Qed.

(** In a sorted list the records that are not completed come first. *)
Lemma ascending_split (l : list Task) :
  ascending l ->
  l = filter (fun t => negb (completed t)) l ++ filter completed l.
Proof.
  unfold ascending. induction 1 as [|y r Ar IH Hy]; [reflexivity|].
  cbn [filter]. destruct (completed y) eqn:C; cbn [negb].
  - assert (T : Forall (fun z => completed z = true) r).
    { eapply Forall_impl; [|exact Hy]. intros z. unfold sort_key, key_le.
      rewrite C. intros [[H _]|[H _]]; [discriminate|now symmetry]. }
    assert (E1 : filter (fun t => negb (completed t)) r = []).
    { clear -T. induction T as [|z r Hz T IH]; [reflexivity|].
      cbn [filter]. now rewrite Hz. }
    assert (E2 : filter completed r = r).
    { clear -T. induction T as [|z r Hz T IH]; [reflexivity|].
      cbn [filter]. now rewrite Hz, IH. }
    now rewrite E1, E2.
  - cbn [List.app]. now rewrite <- IH.
Qed.

(** X10: whatever the filter and the search text, the view is the view
    under All with no search text from which the rows that the filter and
    the search reject are taken out: the filter and the search remove
    rows, they never change the order of those that stay. *)
Theorem view_is_sublist_of_full_view (ts : list Task) (f s : string) :
  visible ts f s =
  filter (keep f (Py.strip (Py.lower s))) (visible ts "All" "").
Proof.
  unfold visible.
  change (Py.strip (Py.lower "")) with "".
  rewrite filter_sort, filter_filter_imp; [reflexivity|].
  intros t H. rewrite keep_all. now rewrite (keep_not_deleted _ _ _ H).
Qed.

Lemma visible_pending (ts : list Task) (s : string) :
  visible ts "Pending" s =
  filter (fun t => negb (completed t)) (visible ts "All" s).
Proof.
  unfold visible. rewrite filter_sort, <- filter_andb. f_equal.
  apply filter_ext. intros t. apply keep_pending.
Qed.

Lemma visible_completed (ts : list Task) (s : string) :
  visible ts "Completed" s = filter completed (visible ts "All" s).
Proof.
  unfold visible. rewrite filter_sort, <- filter_andb. f_equal.
  apply filter_ext. intros t. apply keep_completed.
Qed.

Lemma all_is_pending_then_completed_aux (ts : list Task) (s : string) :
  visible ts "All" s = visible ts "Pending" s ++ visible ts "Completed" s.
Proof.
  rewrite visible_pending, visible_completed.
  apply ascending_split. apply sort_ascending.
Qed.

(** X11: under any search text, the view under All is the view under
    Pending followed by the view under Completed. *)
Theorem all_is_pending_then_completed (ts : list Task) (s : string) :
  visible ts "All" s = visible ts "Pending" s ++ visible ts "Completed" s /\
  (forall t, In t (visible ts "Pending" s) -> completed t = false) /\
  (forall t, In t (visible ts "Completed" s) -> completed t = true).
Proof.
  split; [apply all_is_pending_then_completed_aux|].
  rewrite visible_pending, visible_completed.
  split; intros t H; apply filter_In in H as [_ H];
    [now apply negb_true_iff|assumption].
Qed.

Lemma key_eqb_eq (a b : Key) : key_eqb a b = true <-> a = b.
Proof.
  destruct a as [[[c1 p1] d1] t1], b as [[[c2 p2] d2] t2]. unfold key_eqb.
  rewrite !andb_true_iff, Bool.eqb_true_iff, Z.eqb_eq, !String.eqb_eq.
  split; [intros [[[-> ->] ->] ->]; reflexivity|now intros [= -> -> -> ->]].
Qed.

Lemma sort_same_key (k : Key) (l : list Task) :
  Forall (fun t => sort_key t = k) l -> sort l = l.
Proof.
  induction 1 as [|x r Hx H IH]; [reflexivity|]. cbn [sort]. rewrite IH.
  apply insert_head. intros y Hy. rewrite Forall_forall in H.
  rewrite Hx, (H y Hy). apply key_le_refl.
Qed.

(** X12: the sort is stable: the visible records that have the same sort
    key (same completion, priority rank, due date and creation stamp) are
    shown in the order in which they are stored. *)
Theorem equal_keys_keep_storage_order (ts : list Task) (f s : string) (k : Key) :
  filter (fun t => key_eqb (sort_key t) k) (visible ts f s) =
  filter (fun t => key_eqb (sort_key t) k)
    (filter (keep f (Py.strip (Py.lower s))) ts).
Proof.
  unfold visible. rewrite filter_sort. apply (sort_same_key k).
  apply Forall_forall. intros t Ht. apply filter_In in Ht as [_ Ht].
  now apply key_eqb_eq.
Qed.

(** ** The statistics label *)

(** X13: the statistics label counts what the filters show when the search
    box is empty: its total is the number of tasks under All, its pending
    count the number under Pending, its completed count the number under
    Completed. *)
Theorem stats_count_the_views (ts : list Task) :
  stats ts =
  (Z.of_nat (List.length (visible ts "All" "")),
   Z.of_nat (List.length (visible ts "Pending" "")),
   Z.of_nat (List.length (visible ts "Completed" ""))) /\
  stats_label ts =
  "Total: " +++ Py.str (Z.of_nat (List.length (visible ts "All" ""))) +++
  " | Pending: " +++ Py.str (Z.of_nat (List.length (visible ts "Pending" ""))) +++
  " | Completed: " +++
  Py.str (Z.of_nat (List.length (visible ts "Completed" ""))).
Proof.
  assert (A : List.length (visible ts "All" "") =
              List.length (filter (fun x => negb (deleted x)) ts)).
  { unfold visible. rewrite (Permutation_length (sort_perm _)).
    change (Py.strip (Py.lower "")) with "".
    now rewrite (filter_ext _ (fun x => negb (deleted x)) keep_all). }
  assert (C : List.length (visible ts "Completed" "") =
              List.length (filter (fun x => completed x && negb (deleted x)) ts)).
  { unfold visible. rewrite (Permutation_length (sort_perm _)).
    change (Py.strip (Py.lower "")) with "".
    rewrite (filter_ext (keep "Completed" "")
               (fun x => completed x && negb (deleted x))); [reflexivity|].
    intros t. rewrite keep_completed, keep_all. apply andb_comm. }
  pose proof (f_equal (@List.length Task)
                (all_is_pending_then_completed_aux ts "")) as P.
  rewrite length_app in P.
  assert (M : Z.of_nat (List.length (visible ts "All" "")) -
              Z.of_nat (List.length (visible ts "Completed" "")) =
              Z.of_nat (List.length (visible ts "Pending" ""))) by lia.
  assert (S : stats ts =
              (Z.of_nat (List.length (visible ts "All" "")),
               Z.of_nat (List.length (visible ts "Pending" "")),
               Z.of_nat (List.length (visible ts "Completed" "")))).
  { unfold stats. rewrite <- A, <- C, M. reflexivity. }
  split; [exact S|]. unfold stats_label. now rewrite S.
Qed.

(** ** The rows of the tree and the selection *)

Lemma insert_rows_all (today : Date.t) (vis : list Task) :
  Forall (fun t => Py.split_first (created t) <> None) vis ->
  Forall2 (fun t row => make_row today t = Some row) vis (insert_rows today vis).
Proof.
  induction 1 as [|t r Ht H IH]; cbn [insert_rows]; [constructor|].
  destruct (make_row today t) as [row|] eqn:E.
  - now constructor.
  - unfold make_row in E. destruct (Py.split_first (created t));
      [discriminate|congruence].
Qed.

Lemma insert_rows_cut (today : Date.t) (l1 l2 : list Task) (t : Task) :
  make_row today t = None ->
  insert_rows today (l1 ++ t :: l2) = insert_rows today l1.
Proof.
  intros E. induction l1 as [|x r IH]; cbn [List.app insert_rows].
  - now rewrite E.
  - destruct (make_row today x); [now rewrite IH|reflexivity].
Qed.





Lemma find_task_complete (ts : list Task) (t : Task) :
  In t ts -> deleted t = false -> exists j, find_task ts (id t) = Some j.
Proof.
  induction ts as [|x r IH]; intros Hin Hd; [contradiction|]. cbn [find_task].
  destruct ((id x =? id t)%string && negb (deleted x)) eqn:E; [now exists O|].
  destruct Hin as [->|Hin].
  - rewrite String.eqb_refl, Hd in E. discriminate.
  - destruct (IH Hin Hd) as [j ->]. now exists (S j).
Qed.

Lemma NoDup_map_inj {A B} (g : A -> B) (l : list A) (a b : A) :
  NoDup (map g l) -> In a l -> In b l -> g a = g b -> a = b.
Proof.
  induction l as [|x r IH]; intros N Ha Hb E; [contradiction|].
  cbn [map] in N. inversion N as [|? ? Hx Nr]; subst.
  destruct Ha as [->|Ha], Hb as [->|Hb]; auto.
  - exfalso. apply Hx. rewrite E. now apply in_map.
  - exfalso. apply Hx. rewrite <- E. now apply in_map.
Qed.

(** X16: when the records that are not deleted have pairwise distinct ids,
    the lookup of the selection returns the very record the selected row
    was made from. *)
Theorem selection_resolves_to_shown_record (today : Date.t) (ts : list Task)
  (f s : string) (i : nat) (row : Row) :
  NoDup (map id (live ts)) ->
  nth_error (insert_rows today (visible ts f s)) i = Some row ->
  exists j t,
    get_selected_task ts (Some (row_id row)) = (Some j, []) /\
    nth_error ts j = Some t /\ deleted t = false /\
    make_row today t = Some row.
Proof.
  intros N Hrow. apply nth_error_In in Hrow.
  destruct (tree_row_origin _ _ _ _ _ Hrow) as [t [Hin [Hd [_ E]]]].
  assert (I : row_id row = id t).
  { unfold make_row in E. destruct (Py.split_first (created t));
      [|discriminate]. now injection E as <-. }
  destruct (find_task_complete ts t Hin Hd) as [j Hj].
  destruct (find_task_sound _ _ _ Hj) as [u [Hu [Iu Du]]].
  assert (u = t).
  { apply (NoDup_map_inj id (live ts)); try assumption.
    - apply filter_In. split; [eapply nth_error_In; eassumption|now rewrite Du].
    - apply filter_In. split; [assumption|now rewrite Hd]. }
  subst u. exists j, t. unfold get_selected_task. rewrite I, Hj.
  now repeat split.
Qed.

Lemma selection_resolves_to_shown_record_witness :
  exists j t,
    get_selected_task [sample "1" true; sample_B] (Some (row_id row_B)) =
      (Some j, []) /\
    nth_error [sample "1" true; sample_B] j = Some t /\ deleted t = false /\
    make_row today0 t = Some row_B.
Proof.
  apply (selection_resolves_to_shown_record today0 [sample "1" true; sample_B]
           "All" "" 0%nat row_B).
  - repeat constructor. intros [].
  - reflexivity.
Defined.

Lemma find_task_first (ts : list Task) (x : string) (i : nat) :
  find_task ts x = Some i ->
  forall j u, (j < i)%nat -> nth_error ts j = Some u -> id u = x ->
              deleted u = true.
Proof.
  revert i. induction ts as [|t r IH]; intros i; cbn [find_task];
    [discriminate|].
  destruct ((id t =? x)%string && negb (deleted t)) eqn:E.
  - intros [= <-] j u Hj. lia.
  - destruct (find_task r x) as [k|]; [|discriminate].
    intros [= <-] [|j] u Hj; cbn [nth_error].
    + intros [= <-] Hi. apply String.eqb_eq in Hi. rewrite Hi in E.
      now destruct (deleted t).
    + apply (IH k eq_refl). lia.
Qed.

Lemma find_task_none (ts : list Task) (x : string) :
  find_task ts x = None <->
  (forall t, In t ts -> id t = x -> deleted t = true).
Proof.
  split.
  - intros H t Hin Hi. destruct (deleted t) eqn:D; [reflexivity|].
    destruct (find_task_complete ts t Hin D) as [j Hj]. congruence.
  - intros H. destruct (find_task ts x) as [i|] eqn:E; [|reflexivity].
    destruct (find_task_sound _ _ _ E) as [t [Ht [Hi Hd]]].
    rewrite (H t (nth_error_In _ _ Ht) Hi) in Hd. discriminate.
Qed.

(** X17: for the id shown in the selected row, [get_selected_task] returns
    the first stored record that carries this id and is not deleted; it
    returns nothing, and shows no message, exactly when every record with
    this id is deleted; with no row selected it returns nothing and shows
    the selection warning. *)
Theorem lookup_returns_first_live_match (ts : list Task) (x : string) :
  get_selected_task ts None = (None, [SelectTask]) /\
  (forall i,
     fst (get_selected_task ts (Some x)) = Some i ->
     (exists t, nth_error ts i = Some t /\ id t = x /\ deleted t = false) /\
     (forall j u, (j < i)%nat -> nth_error ts j = Some u -> id u = x ->
                  deleted u = true)) /\
  (get_selected_task ts (Some x) = (None, []) <->
   (forall t, In t ts -> id t = x -> deleted t = true)).
Proof.
  split; [reflexivity|]. unfold get_selected_task. cbn [fst]. split.
  - intros i E. split; [exact (find_task_sound _ _ _ E)|].
    exact (find_task_first _ _ _ E).
  - rewrite <- find_task_none. split.
    + now intros [= ->].
    + now intros ->.
Qed.

(** ** [clear_completed] *)

Lemma filter_nil_imp (p q : Task -> bool) (l : list Task) :
  (forall t, p t = true -> q t = true) -> filter q l = [] -> filter p l = [].
Proof.
  intros H E. rewrite <- (filter_filter_imp p q l H). now rewrite E.
Qed.

Lemma keep_completed_is_comp (s : string) (t : Task) :
  keep "Completed" s t = true -> is_comp t = true.
Proof.
  intros H. pose proof (keep_not_deleted _ _ _ H) as D.
  rewrite keep_completed in H. apply andb_prop in H as [_ C].
  unfold is_comp. now rewrite C, D.
Qed.

Lemma clear_leaves_none (ts : list Task) :
  filter is_comp (map (fun t => if is_comp t then set_deleted t else t) ts) = [].
Proof.
  induction ts as [|t r IH]; [reflexivity|]. cbn [map filter].
  destruct (is_comp t) eqn:E.
  - unfold is_comp at 1. cbn [set_deleted deleted completed].
    now rewrite andb_false_r.
  - now rewrite E.
Qed.

Lemma clear_keeps_pending (s : string) (ts : list Task) :
  filter (keep "Pending" s)
    (map (fun t => if is_comp t then set_deleted t else t) ts) =
  filter (keep "Pending" s) ts.
Proof.
  induction ts as [|t r IH]; [reflexivity|]. cbn [map filter]. rewrite IH.
  destruct (is_comp t) eqn:E; [|reflexivity].
  unfold is_comp in E. apply andb_prop in E as [C D].
  assert (K1 : keep "Pending" s (set_deleted t) = false) by reflexivity.
  assert (K2 : keep "Pending" s t = false).
  { rewrite keep_pending, C. apply andb_false_r. }
  now rewrite K1, K2.
Qed.

(** X18: Clear Completed, once confirmed, leaves no record that is
    completed and not deleted: the view under Completed is empty, the view
    under Pending is what it was, every record is still stored under its
    id, and a second Clear Completed finds nothing to clear.  When there
    is nothing to clear in the first place, the handler says so and changes
    nothing, whatever the answer would have been. *)
Theorem clear_completed_empties_completed_view (today : Date.t) (app : App) :
  (filter is_comp (tasks app) = [] ->
   forall confirm, clear_completed today confirm app = (app, [NoCompleted])) /\
  (clear_completed today false app = (app, []) \/
   clear_completed today false app = (app, [NoCompleted])) /\
  (forall s,
     visible (tasks (fst (clear_completed today true app))) "Completed" s = []) /\
  (forall s,
     visible (tasks (fst (clear_completed today true app))) "Pending" s =
     visible (tasks app) "Pending" s) /\
  map id (tasks (fst (clear_completed today true app))) = map id (tasks app) /\
  (forall today' confirm,
     snd (clear_completed today' confirm (fst (clear_completed today true app))) =
     [NoCompleted]).
Proof.
  assert (N : filter is_comp (tasks (fst (clear_completed today true app))) = []).
  { unfold clear_completed.
    destruct (filter is_comp (tasks app)) eqn:E; [exact E|].
    rewrite tasks_commit. apply clear_leaves_none. }
  split; [|split; [|split; [|split; [|split]]]].
  - intros E confirm. unfold clear_completed. now rewrite E.
  - unfold clear_completed. destruct (filter is_comp (tasks app)); auto.
  - intros s. unfold visible.
    rewrite (filter_nil_imp _ is_comp _ (keep_completed_is_comp _) N).
    reflexivity.
  - intros s. unfold clear_completed.
    destruct (filter is_comp (tasks app)); [reflexivity|].
    rewrite tasks_commit. unfold visible. now rewrite clear_keeps_pending.
  - unfold clear_completed.
    destruct (filter is_comp (tasks app)); [reflexivity|].
    rewrite tasks_commit, map_map. apply map_ext.
    intros u. now destruct (is_comp u).
  - intros today' confirm. unfold clear_completed at 1. now rewrite N.
Qed.

(** ** [toggle_complete] *)

Lemma find_task_modify (i : nat) (g : Task -> Task) (ts : list Task)
  (x : string) :
  (forall t, id (g t) = id t /\ deleted (g t) = deleted t) ->
  find_task (modify i g ts) x = find_task ts x.
Proof.
  intros H. revert i. induction ts as [|t r IH]; intros [|i]; cbn; try reflexivity.
  - destruct (H t) as [-> ->]. reflexivity.
  - now rewrite IH.
Qed.

Lemma modify_modify (i : nat) (g h : Task -> Task) (ts : list Task) :
  modify i g (modify i h ts) = modify i (fun t => g (h t)) ts.
Proof.
  revert i. induction ts as [|t r IH]; intros [|i]; cbn; try reflexivity.
  now rewrite IH.
Qed.

Lemma modify_id (i : nat) (g : Task -> Task) (ts : list Task) :
  (forall t, nth_error ts i = Some t -> g t = t) -> modify i g ts = ts.
Proof.
  revert i. induction ts as [|t r IH]; intros [|i] H; cbn; try reflexivity.
  - now rewrite (H t eq_refl).
  - rewrite IH; [reflexivity|]. intros u Hu. now apply H.
Qed.

(** X19: Mark Complete is its own inverse.  It flips the completed flag of
    the selected task and nothing else, and used again on the same task
    (selected again, since the refresh drops the selection) it gives back
    the list as it was. *)
Theorem toggle_twice_restores_list (today1 today2 : Date.t) (app app2 : App)
  (i : nat) (msgs : list Message) :
  get_selected_task (tasks app) (selected_id app) = (Some i, msgs) ->
  tasks app2 = tasks (fst (toggle_complete today1 app)) ->
  selected_id app2 = selected_id app ->
  tasks (fst (toggle_complete today1 app)) =
    modify i (fun t => set_completed (negb (completed t)) t) (tasks app) /\
  selected_id (fst (toggle_complete today1 app)) = None /\
  tasks (fst (toggle_complete today2 app2)) = tasks app.
Proof.
  intros Hsel Ht Hs.
  assert (T1 : tasks (fst (toggle_complete today1 app)) =
               modify i (fun t => set_completed (negb (completed t)) t)
                 (tasks app)).
  { unfold toggle_complete. rewrite Hsel. apply tasks_commit. }
  split; [exact T1|]. split.
  - unfold toggle_complete. rewrite Hsel. unfold commit.
    destruct (save_tasks _ _). reflexivity.
  - unfold toggle_complete at 1. rewrite Hs, Ht, T1.
    unfold get_selected_task in *.
    destruct (selected_id app) as [x|]; [|discriminate].
    rewrite find_task_modify by (intros t; now split).
    injection Hsel as -> _.
    rewrite tasks_commit, modify_modify. apply modify_id.
    intros [i0 x0 p0 d0 c0 r0 e0] _. cbn. now rewrite negb_involutive.
Qed.

Lemma toggle_twice_restores_list_witness :
  tasks (fst (toggle_complete today0
                (fst (step true today0 (SelectRow 0) (start [sample_B]))))) =
    modify 0 (fun t => set_completed (negb (completed t)) t)
      (tasks (fst (step true today0 (SelectRow 0) (start [sample_B])))) /\
  selected_id (fst (toggle_complete today0
                      (fst (step true today0 (SelectRow 0) (start [sample_B]))))) =
    None /\
  tasks (fst (toggle_complete today0
                (fst (step true today0 (SelectRow 0)
                        (fst (toggle_complete today0
                                (fst (step true today0 (SelectRow 0)
                                        (start [sample_B]))))))))) =
    tasks (fst (step true today0 (SelectRow 0) (start [sample_B]))).
Proof.
  apply (toggle_twice_restores_list today0 today0
           (fst (step true today0 (SelectRow 0) (start [sample_B])))
           (fst (step true today0 (SelectRow 0)
                   (fst (toggle_complete today0
                           (fst (step true today0 (SelectRow 0)
                                   (start [sample_B])))))))
           0%nat []); reflexivity.
Defined.

(** ** Saving an Edit dialog as it opened *)

Lemma every_zfill (p : ascii -> bool) (w : nat) (s : string) :
  p "0"%char = true -> every p s = true -> every p (Date.zfill w s) = true.
Proof.
  intros H0 Hs. unfold Date.zfill. generalize (w - String.length s)%nat.
  intros n. induction n as [|n IH]; cbn; [assumption|]. now rewrite H0.
Qed.

Lemma sign_or_digit_not_space (c : ascii) :
  sign_or_digit c = true -> negb (Py.isspace c) = true.
Proof.
  unfold sign_or_digit. intros H. apply orb_prop in H as [H|H].
  - unfold Py.isdigit in H. apply andb_prop in H as [H1 H2].
    apply N.leb_le in H1, H2. unfold Py.isspace.
    apply negb_true_iff, orb_false_iff.
    split; apply andb_false_iff; right; apply N.leb_gt; lia.
  - apply Ascii.eqb_eq in H. now subst.
Qed.

Lemma isoformat_no_space (d : Date.t) :
  every (fun c => negb (Py.isspace c)) (Date.isoformat d) = true.
Proof.
  assert (Z : forall w n,
             every (fun c => negb (Py.isspace c)) (Date.zfill w (Py.str n)) = true).
  { intros w n. apply every_zfill; [reflexivity|].
    eapply every_impl; [apply sign_or_digit_not_space|apply str_chars]. }
  unfold Date.isoformat. rewrite !every_append, !Z. reflexivity.
Qed.

(** X20: with the plain due-date entry used without [tkcalendar], the Save
    button of an Edit dialog whose fields are left as [edit_task] filled
    them gives the list as it was, for a task whose text has no
    surrounding whitespace and whose due date, if any, is a calendar date
    in ISO form: the stored date is read back and written as it is. *)
Theorem unchanged_edit_changes_nothing (today : Date.t) (k i : nat) (t : Task)
  (app : App) :
  nth_error (dialogs app) k = Some i ->
  nth_error (tasks app) i = Some t ->
  Py.strip (text t) = text t -> text t <> "" ->
  canonical_due t ->
  let '(e_task, pvar, d_entry) := dialog_fields t in
  tasks (fst (save false today k e_task pvar d_entry app)) = tasks app /\
  snd (save false today k e_task pvar d_entry app) =
    snd (save_tasks (tasks app) (disk app)).
Proof.
  intros Hk Ht Hs Hn Hc. unfold dialog_fields.
  assert (Ed : edit_due false
                 (match has_due t with Some d => d | None => "" end) =
               Some (due_date t)).
  { unfold canonical_due in Hc. unfold edit_due, has_due.
    destruct (due_date t) as [due|]; [|reflexivity].
    destruct Hc as [d [V ->]].
    pose proof (strptime_isoformat_valid d V) as P.
    assert (Ne : Py.nonempty (Date.isoformat d) = true)
      by (destruct (Date.isoformat d); [discriminate P|reflexivity]).
    rewrite Ne. unfold Py.strip.
    rewrite (strip_by_none _ _ (isoformat_no_space d)), Ne.
    unfold checked_due, validate_date. now rewrite Ne, P. }
  assert (M : modify i (set_edited (text t) (priority t) (due_date t))
                (tasks app) = tasks app).
  { apply modify_id. intros u Hu. rewrite Ht in Hu. injection Hu as <-.
    now destruct t. }
  unfold save. rewrite Hk, Hs, Ed.
  assert (Nt : Py.nonempty (text t) = true)
    by (destruct (text t) eqn:Et; [congruence|reflexivity]).
  rewrite Nt. cbn [negb]. rewrite M.
  destruct (commit_fields today app (tasks app)) as [C1 [_ [C3 _]]].
  destruct (commit today app (tasks app)) as [app' m]. cbn [fst snd] in *.
  split; assumption.
Qed.

Lemma unchanged_edit_changes_nothing_witness :
  tasks (fst (save false today0 0 "Pay rent" "Low" "2000-01-01"
                (with_dialogs (start [sample_B]) [0%nat]))) =
    tasks (with_dialogs (start [sample_B]) [0%nat]) /\
  snd (save false today0 0 "Pay rent" "Low" "2000-01-01"
         (with_dialogs (start [sample_B]) [0%nat])) =
    snd (save_tasks (tasks (with_dialogs (start [sample_B]) [0%nat]))
           (disk (with_dialogs (start [sample_B]) [0%nat]))).
Proof.
  apply (unchanged_edit_changes_nothing today0 0%nat 0%nat sample_B
           (with_dialogs (start [sample_B]) [0%nat])).
  - reflexivity.
  - reflexivity.
  - reflexivity.
  - discriminate.
  - exists (Date.mk 2000 1 1). split; reflexivity.
Defined.

(** ** The placeholder of the plain due-date entry *)

Lemma rstrip_by_keeps_head (p : ascii -> bool) (c : ascii) (r : string) :
  p c = false -> Py.rstrip_by p (String c r) = String c (Py.rstrip_by p r).
Proof.
  intros H. cbn [Py.rstrip_by]. destruct (Py.rstrip_by p r); [now rewrite H|reflexivity].
Qed.

Lemma prefix_append (p w : string) :
  Py.startswith w p = true -> exists r, w = p +++ r.
Proof.
  unfold Py.startswith. revert w.
  induction p as [|a p IH]; intros w H; [now exists w|].
  destruct w as [|b w]; [discriminate H|]. cbn [String.prefix] in H.
  destruct (Ascii.ascii_dec a b) as [<-|]; [|discriminate H].
  destruct (IH w H) as [r ->]. now exists r.
Qed.

Lemma startswith_append (p r : string) : Py.startswith (p +++ r) p = true.
Proof.
  unfold Py.startswith. induction p as [|a p IH]; cbn;
    [destruct r; reflexivity|].
  destruct (Ascii.ascii_dec a a); [assumption|contradiction].
Qed.

(** X21: the focus handler of the plain due-date entry deletes a text that
    starts with "YYYY" and leaves any other text alone; [add_task] reads
    the same due date from the entry whether or not the handler ran, and it
    reads the placeholder it puts back after an add as no due date. *)
Theorem clearing_placeholder_keeps_reading (w : string) :
  add_due false (clear_date_placeholder w) = add_due false w /\
  (Py.startswith w "YYYY" = true -> add_due false w = Some None) /\
  add_due false "YYYY-MM-DD (optional)" = Some None.
Proof.
  assert (Y : Py.startswith w "YYYY" = true -> add_due false w = Some None).
  { intros H. apply prefix_append in H as [r ->].
    unfold add_due, Py.strip, Py.strip_by. cbn [String.append Py.lstrip_by].
    change (Py.isspace "Y") with false. cbn iota.
    rewrite !rstrip_by_keeps_head by reflexivity.
    change (String "Y" (String "Y" (String "Y" (String "Y"
              (Py.rstrip_by Py.isspace r)))))
      with ("YYYY" +++ Py.rstrip_by Py.isspace r).
    now rewrite startswith_append. }
  split; [|split; [exact Y|reflexivity]].
  unfold clear_date_placeholder.
  destruct (Py.startswith w "YYYY") eqn:E; [|reflexivity].
  now rewrite (Y eq_refl).
Qed.

(** ** [export_task] *)

Lemma export_task_exported (path : string) (can_open : bool) (app : App)
  (p c : string) (msgs : list Message) :
  export_task path can_open app = (Exported p c, msgs) ->
  exists t,
    In t (tasks app) /\ deleted t = false /\ selected_id app = Some (id t) /\
    p = path /\ path <> "" /\ can_open = true /\ msgs = [] /\
    c = if Py.endswith (Py.lower path) ".json"
        then Json.dumps (task_dict t) else export_text t.
Proof.
  unfold export_task.
  destruct (get_selected_task (tasks app) (selected_id app)) as [[i|] m] eqn:E;
    [|discriminate].
  destruct (get_selected_task_sound _ _ _ _ E) as [t [x [Hs [Ht [Hi Hd]]]]].
  rewrite Ht. destruct path as [|a path]; [discriminate|]. cbn [Py.nonempty negb].
  destruct can_open; [|discriminate].
  intros H. exists t.
  split; [eapply nth_error_In; eassumption|]. split; [assumption|].
  split; [now rewrite Hs, Hi|].
  destruct (Py.endswith _ _); injection H as <- <- <-; now repeat split.
Qed.



Lemma lines_from_prefix (a r : string) (cur : string -> string) :
  one_line a = true ->
  lines_from cur (a +++ r) = lines_from (fun x => cur (a +++ x)) r.
Proof.
  unfold one_line. revert cur.
  induction a as [|c a IH]; intros cur H; [reflexivity|].
  cbn [every] in H. apply andb_prop in H as [Hc Ha].
  apply negb_true_iff in Hc. cbn [String.append lines_from]. rewrite Hc.
  exact (IH (fun x => cur (String c x)) Ha).
Qed.

Lemma lines_from_line (a r : string) (cur : string -> string) :
  one_line a = true ->
  lines_from cur (a +++ LF +++ r) = cur a :: lines_from (fun x => x) r.
Proof.
  intros H. rewrite (lines_from_prefix _ _ _ H).
  cbn [LF String.append lines_from]. rewrite Ascii.eqb_refl.
  now rewrite append_empty.
Qed.

Lemma one_line_append (a b : string) :
  one_line a = true -> one_line b = true -> one_line (a +++ b) = true.
Proof. unfold one_line. intros Ha Hb. now rewrite every_append, Ha, Hb. Qed.

Lemma export_text_lines (t : Task) :
  one_line (id t) = true -> one_line (text t) = true ->
  one_line (priority t) = true -> one_line (created t) = true ->
  (forall d, has_due t = Some d -> one_line d = true) ->
  lines (export_text t) =
  [ "Task ID: " +++ id t;
    "Task: " +++ text t;
    "Priority: " +++ priority t;
    "Due Date: " +++ match has_due t with Some d => d | None => "No due date" end;
    "Status: " +++ (if completed t then "Done" else "Pending");
    "Created: " +++ created t;
    "" ].
Proof.
  intros Hi Ht Hp Hc Hd.
  assert (Hd' : one_line match has_due t with
                         | Some d => d
                         | None => "No due date"
                         end = true).
  { destruct (has_due t) as [d|]; [now apply Hd|reflexivity]. }
  assert (Hs : one_line (if completed t then "Done" else "Pending") = true)
    by (destruct (completed t); reflexivity).
  assert (L : forall (label field rest : string),
             one_line label = true -> one_line field = true ->
             lines_from (fun x => x) ((label +++ field +++ LF) +++ rest) =
             (label +++ field) :: lines_from (fun x => x) rest).
  { intros label field rest Hl Hf.
    rewrite append_assoc, append_assoc, <- (append_assoc label field).
    apply (lines_from_line (label +++ field) rest (fun x => x)).
    now apply one_line_append. }
  unfold lines, export_text.
  rewrite !L by (assumption || reflexivity).
  rewrite <- (append_empty ("Created: " +++ created t +++ LF)).
  rewrite L by (assumption || reflexivity). reflexivity.
Qed.



